(** * dtop: container tree model and statistics aggregation

    A shallow embedding of the Go sources of dtop (packages [docker],
    [model], [ui] and [main]) together with the properties of its
    specification.

    Conventions of the embedding:
    - a Go [string] is a Rocq [string] (a sequence of bytes);
    - Go's [int] is a [Z] wrapped to 64 bits by [wrap_int], [uint64] is a
      [Z] reduced modulo [2^64], [float64] is a primitive binary64 float;
    - a [*TreeNode] is an address into a node store ([list TreeNode]);
      [nil] is [None];
    - a call that does not return normally (a run-time panic, or a
      traversal of a cyclic node store) yields [None] / [Panic]. *)

From Stdlib Require Import ZArith Floats String Ascii DecimalString.
From stdpp Require Import gmap strings list sorting.

(** ** Go library functions used by the program *)

Module strings.

(** [strings.Index(s, substr)], with [None] for [-1]. *)
Definition Index (s substr : string) : option nat := String.index 0 substr s.

(** The slice expression [s[:idx]]. *)
Definition slice_to (s : string) (idx : nat) : string := String.substring 0 idx s.

(** [strings.Join(elems, sep)]. *)
Definition Join (elems : list string) (sep : string) : string := String.concat sep elems.

(** [strings.TrimPrefix(s, prefix)]. *)
Definition TrimPrefix (s prefix : string) : string :=
  if String.prefix prefix s
  then String.substring (String.length prefix) (String.length s - String.length prefix) s
  else s.

(** [strings.HasPrefix(s, prefix)]. *)
Definition HasPrefix (s prefix : string) : bool := String.prefix prefix s.

(** The largest allocation of the run-time system ([maxAlloc], on
    64-bit Linux). *)
Definition maxAlloc : Z := (2 ^ 48)%Z.

(** [strings.Repeat(s, count)], which panics on a negative count, on an
    output whose length overflows, and on an output that is longer than
    the largest allocation ("makeslice: len out of range").  An output
    within that limit is taken to fit the memory there is. *)
Definition Repeat (s : string) (count : Z) : option string :=
  if (count <? 0)%Z then None
  else if (maxAlloc <? Z.of_nat (String.length s) * count)%Z then None
  else Some (foldr (λ x acc, x +:+ acc) "" (replicate (Z.to_nat count) s)).

End strings.

(** *** Machine integers and floats *)

(** Go's [int] on a 64-bit platform: results of arithmetic wrap around. *)
Definition wrap_int (z : Z) : Z := ((z + 2 ^ 63) mod 2 ^ 64 - 2 ^ 63)%Z.

(** [uint64] arithmetic is modulo [2^64]. *)
Definition wrap_uint64 (z : Z) : Z := (z mod 2 ^ 64)%Z.

(** The values of type [int], [uint64] and [uint32]. *)
Definition is_int (z : Z) : Prop := (- 2 ^ 63 ≤ z < 2 ^ 63)%Z.
Definition is_uint64 (z : Z) : Prop := (0 ≤ z < 2 ^ 64)%Z.
Definition is_uint32 (z : Z) : Prop := (0 ≤ z < 2 ^ 32)%Z.

(** The conversion [float64(n)] of an integer: round to nearest, ties to even. *)
Definition float64_of_Z (z : Z) : float := SF2Prim (binary_normalize 53 1024 z 0 false).

(** The conversion [rune(n)] of an [int]: its low 32 bits, signed. *)
Definition wrap_int32 (z : Z) : Z := ((z + 2 ^ 31) mod 2 ^ 32 - 2 ^ 31)%Z.

(** The byte of value [b]. *)
Definition byte (b : Z) : ascii := ascii_of_N (Z.to_N b).

(** The conversion [string(r)] of a rune: the UTF-8 encoding of the code
    point [r]; what is no code point (out of range, or a surrogate half)
    is encoded as U+FFFD. *)
Definition string_of_rune (r : Z) : string :=
  if (r <? 0)%Z || (0x10FFFF <? r)%Z || ((0xD800 <=? r)%Z && (r <=? 0xDFFF)%Z)
  then String (byte 0xEF) (String (byte 0xBF) (String (byte 0xBD) ""))
  else if (r <? 0x80)%Z then String (byte r) ""
  else if (r <? 0x800)%Z then
    String (byte (Z.lor 0xC0 (Z.shiftr r 6)))
      (String (byte (Z.lor 0x80 (Z.land r 0x3F))) "")
  else if (r <? 0x10000)%Z then
    String (byte (Z.lor 0xE0 (Z.shiftr r 12)))
      (String (byte (Z.lor 0x80 (Z.land (Z.shiftr r 6) 0x3F)))
         (String (byte (Z.lor 0x80 (Z.land r 0x3F))) ""))
  else
    String (byte (Z.lor 0xF0 (Z.shiftr r 18)))
      (String (byte (Z.lor 0x80 (Z.land (Z.shiftr r 12) 0x3F)))
         (String (byte (Z.lor 0x80 (Z.land (Z.shiftr r 6) 0x3F)))
            (String (byte (Z.lor 0x80 (Z.land r 0x3F))) ""))).

(** The conversion [string(runes)] of a slice of runes. *)
Definition string_of_runes (rs : list Z) : string :=
  foldr (λ r acc, string_of_rune r +:+ acc) "" rs.

Module utf8.

(** The value of a byte. *)
Definition byte_value (a : ascii) : Z := Z.of_N (N_of_ascii a).

(** The replacement character U+FFFD. *)
Definition RuneError : Z := 0xFFFD.

(** The first byte of an encoding of several bytes: the number of bytes
    and the range of the second byte (shortest encodings only, no
    surrogate halves, nothing above U+10FFFF). *)
Definition first (s0 : Z) : option (nat * Z * Z) :=
  if (s0 <? 0xC2)%Z then None
  else if (s0 <? 0xE0)%Z then Some (2%nat, 0x80%Z, 0xBF%Z)
  else if (s0 =? 0xE0)%Z then Some (3%nat, 0xA0%Z, 0xBF%Z)
  else if (s0 =? 0xED)%Z then Some (3%nat, 0x80%Z, 0x9F%Z)
  else if (s0 <? 0xF0)%Z then Some (3%nat, 0x80%Z, 0xBF%Z)
  else if (s0 =? 0xF0)%Z then Some (4%nat, 0x90%Z, 0xBF%Z)
  else if (s0 <? 0xF4)%Z then Some (4%nat, 0x80%Z, 0xBF%Z)
  else if (s0 =? 0xF4)%Z then Some (4%nat, 0x80%Z, 0x8F%Z)
  else None.

(** The bytes that continue an encoding. *)
Definition continuation (b : Z) : bool := (0x80 <=? b)%Z && (b <=? 0xBF)%Z.

(** The first code point of the string [String a0 r0] and the rest of the
    string behind it.  Where no valid encoding starts (also when the
    string ends inside one), the code point is U+FFFD and one byte is
    consumed. *)
Definition decodeRune (a0 : ascii) (r0 : string) : Z * string :=
  let s0 := byte_value a0 in
  if (s0 <? 0x80)%Z then (s0, r0)
  else
    match first s0, r0 with
    | Some (sz, lo, hi), String a1 r1 =>
        let s1 := byte_value a1 in
        if (s1 <? lo)%Z || (hi <? s1)%Z then (RuneError, r0)
        else if (sz <=? 2)%nat then (((s0 - 0xC0) * 64 + (s1 - 0x80))%Z, r1)
        else
          match r1 with
          | String a2 r2 =>
              let s2 := byte_value a2 in
              if negb (continuation s2) then (RuneError, r0)
              else if (sz <=? 3)%nat
              then (((s0 - 0xE0) * 4096 + (s1 - 0x80) * 64 + (s2 - 0x80))%Z, r2)
              else
                match r2 with
                | String a3 r3 =>
                    let s3 := byte_value a3 in
                    if negb (continuation s3) then (RuneError, r0)
                    else (((s0 - 0xF0) * 262144 + (s1 - 0x80) * 4096
                           + (s2 - 0x80) * 64 + (s3 - 0x80))%Z, r3)
                | EmptyString => (RuneError, r0)
                end
          | EmptyString => (RuneError, r0)
          end
    | _, _ => (RuneError, r0)
    end.

End utf8.

(** The conversion [[]rune(s)] of a string: its code points from the left
    to the right; every turn consumes a byte at least, so as many turns
    as the string has bytes exhaust it. *)
Fixpoint runesLoop (fuel : nat) (s : string) : list Z :=
  match fuel, s with
  | S fuel, String a0 r0 =>
      let '(r, rest) := utf8.decodeRune a0 r0 in r :: runesLoop fuel rest
  | _, _ => []
  end.

Definition runes_of_string (s : string) : list Z := runesLoop (String.length s) s.

Module fmt.

(** Decimal digits of a natural number. *)
Definition decimal (z : Z) : string := NilZero.string_of_uint (N.to_uint (Z.to_N z)).

(** [n / d] rounded to the nearest integer, ties to even, for [0 < d]. *)
Definition div_round_even (n d : Z) : Z :=
  let q := (n / d)%Z in
  let r := (n mod d)%Z in
  if (2 * r <? d)%Z then q
  else if (d <? 2 * r)%Z then (q + 1)%Z
  else if Z.even q then q else (q + 1)%Z.

(** The verb [%.1f]: the exact value of the float, correctly rounded to
    one digit after the decimal point. *)
Definition f1 (x : float) : string :=
  match Prim2SF x with
  | S754_zero s => (if s then "-0.0" else "0.0")
  | S754_infinity s => (if s then "-Inf" else "+Inf")
  | S754_nan => "NaN"
  | S754_finite s m e =>
      let t := if (0 <=? e)%Z then (10 * Z.pos m * 2 ^ e)%Z
               else div_round_even (10 * Z.pos m) (2 ^ (- e)) in
      (if s then "-" else "") +:+ decimal (t / 10) +:+ "." +:+ decimal (t mod 10)
  end.

(** The verb [%.0f]: the exact value of the float, correctly rounded to
    an integer. *)
Definition f0 (x : float) : string :=
  match Prim2SF x with
  | S754_zero s => (if s then "-0" else "0")
  | S754_infinity s => (if s then "-Inf" else "+Inf")
  | S754_nan => "NaN"
  | S754_finite s m e =>
      let t := if (0 <=? e)%Z then (Z.pos m * 2 ^ e)%Z
               else div_round_even (Z.pos m) (2 ^ (- e)) in
      (if s then "-" else "") +:+ decimal t
  end.

End fmt.

(** *** The fan-in of a buffered channel

    [n] goroutines each send one value on a channel buffered for all of
    them and the receiver reads [n] values.  The order of arrival is the
    scheduler's: [choices] picks, at every receive, which of the values
    not yet received comes next (modulo their number; [0] once [choices]
    is used up). *)
Fixpoint receive_all {A} (n : nat) (choices : list nat) (pending : list A) : list A :=
  match n with
  | O => []
  | S n' =>
      let k := (hd 0 choices `mod` length pending)%nat in
      match pending !! k with
      | Some x => x :: receive_all n' (tl choices) (delete k pending)
      | None => []
      end
  end.

(** *** Sorting *)

(** Byte-wise order on strings, as Go's [<] and [<=] on [string]. *)
Definition string_le (a b : string) : Prop := String.leb a b = true.
Definition string_lt (a b : string) : Prop := String.ltb a b = true.

#[global] Instance string_le_dec (a b : string) : Decision (string_le a b) :=
  bool_eq_dec (String.leb a b) true.
#[global] Instance string_lt_dec (a b : string) : Decision (string_lt a b) :=
  bool_eq_dec (String.ltb a b) true.

Module sort.

(** [sort.Strings(x)]: the ascending rearrangement of [x]. *)
Definition Strings (x : list string) : list string := merge_sort string_le x.

(** [sort.Slice(x, less)] where [less a b] is [key a < key b]: a
    rearrangement of [x] in which no element is followed by one with a
    smaller key.  (Go's sort is not stable; elements with equal keys
    come in the order of this merge sort, which need not be the order in
    which Go's algorithm leaves them: nothing below depends on the order
    among equal keys.) *)
Definition Slice {A} (key : A → string) (x : list A) : list A :=
  merge_sort (λ a b, string_le (key a) (key b)) x.

End sort.

(** ** Package docker *)

(** What a call returns: a value, an [error], or a run-time panic. *)
Inductive outcome (A : Type) : Type :=
  | Ok (a : A)
  | Err (e : string)
  | Panic.
Arguments Ok {A} a.
Arguments Err {A} e.
Arguments Panic {A}.

Module docker.

Record ContainerInfo := {
  ID : string;
  Name : string;
  Image : string;
  State : string;
  Status : string;
  CPUPerc : float;
  MemPerc : float;
  MemUsage : string;
  NetRx : Z;  (* Network bytes received *)
  NetTx : Z;  (* Network bytes transmitted *)
  NetIO : string;
  BlockIO : string;
  CreatedAt : Z;  (* [time.Unix(sec, 0)], as the seconds *)
  Labels : gmap string string }.

(** *** The container runtime's API, as the client library presents it *)

(** [container.ListOptions]. *)
Record ListOptions := { All : bool }.

(** An entry of the list the runtime returns. *)
Record Summary := {
  sum_ID : string;
  sum_Names : list string;
  sum_Image : string;
  sum_State : string;
  sum_Status : string;
  sum_Created : Z;
  sum_Labels : gmap string string }.

(** Stats structures for parsing Docker stats JSON *)
Record networkStats := { RxBytes : Z; TxBytes : Z }.

Record statsResponse := {
  CPUStats_CPUUsage_TotalUsage : Z;
  CPUStats_SystemUsage : Z;
  CPUStats_OnlineCPUs : Z;
  PreCPUStats_CPUUsage_TotalUsage : Z;
  PreCPUStats_SystemUsage : Z;
  MemoryStats_Usage : Z;
  MemoryStats_Limit : Z;
  Networks : gmap string networkStats }.

(** The zero value of [statsResponse]. *)
Definition statsResponse_zero : statsResponse :=
  {| CPUStats_CPUUsage_TotalUsage := 0; CPUStats_SystemUsage := 0;
     CPUStats_OnlineCPUs := 0; PreCPUStats_CPUUsage_TotalUsage := 0;
     PreCPUStats_SystemUsage := 0; MemoryStats_Usage := 0;
     MemoryStats_Limit := 0; Networks := ∅ |}.

(** What one stats request comes to: the request fails; the body is
    not a JSON document of the expected shape ([Decode] returns an error
    other than [io.EOF]); the body is empty ([Decode] returns [io.EOF]
    and leaves the zero value); the body decodes to [v]. *)
Inductive statsReply :=
  | StatsRequestError (e : string)
  | StatsDecodeError (e : string)
  | StatsDecodeEOF
  | StatsDecoded (v : statsResponse).

(** The client: the answers of the runtime during one call. *)
Record Client := {
  ContainerList : ListOptions → string + list Summary;
  ContainerStats : string → statsReply }.

Record statsData := {
  cpuPerc : float;
  memPerc : float;
  memUsage : string;
  netRx : Z;
  netTx : Z }.

(** The loop of [formatBytes]:
    [for n := bytes / unit; n >= unit; n /= unit { div *= unit; exp++ }]. *)
Fixpoint formatBytes_loop (fuel : nat) (n div exp : Z) : Z * Z :=
  match fuel with
  | O => (div, exp)
  | S fuel' =>
      if (1024 <=? n)%Z
      then formatBytes_loop fuel' (n / 1024)%Z (wrap_uint64 (div * 1024)) (exp + 1)%Z
      else (div, exp)
  end.

Definition formatBytes (bytes : Z) : string :=
  if (bytes <? 1024)%Z then "0 B"
  else
    (* a [uint64] is below [1024^7], so seven turns exhaust the loop *)
    let '(div, exp) := formatBytes_loop 7 (bytes / 1024)%Z 1024%Z 0%Z in
    fmt.f1 (float64_of_Z bytes / float64_of_Z div)%float +:+ " " +:+
    String.substring (Z.to_nat exp) 1 "KMGTPE" +:+ "iB".

(** The CPU percentage of [getContainerStats]. *)
Definition cpuPercent (v : statsResponse) : float :=
  let cpuDelta :=
    float64_of_Z (wrap_uint64 (CPUStats_CPUUsage_TotalUsage v - PreCPUStats_CPUUsage_TotalUsage v)) in
  let systemDelta :=
    float64_of_Z (wrap_uint64 (CPUStats_SystemUsage v - PreCPUStats_SystemUsage v)) in
  let onlineCPUs := float64_of_Z (CPUStats_OnlineCPUs v) in
  if (0 <? systemDelta)%float && (0 <? cpuDelta)%float
  then ((cpuDelta / systemDelta) * onlineCPUs * 100)%float
  else 0%float.

(** The memory percentage of [getContainerStats]. *)
Definition memPercent (v : statsResponse) : float :=
  if (0 <? MemoryStats_Limit v)%Z
  then ((float64_of_Z (MemoryStats_Usage v) / float64_of_Z (MemoryStats_Limit v)) * 100)%float
  else 0%float.

(** The statistics computed from a decoded response. *)
Definition statsOf (v : statsResponse) : statsData :=
  {| cpuPerc := cpuPercent v;
     memPerc := memPercent v;
     memUsage := formatBytes (MemoryStats_Usage v) +:+ " / " +:+ formatBytes (MemoryStats_Limit v);
     (* network totals across all interfaces *)
     netRx := map_fold (λ _ net acc, wrap_uint64 (acc + RxBytes net)) 0%Z (Networks v);
     netTx := map_fold (λ _ net acc, wrap_uint64 (acc + TxBytes net)) 0%Z (Networks v) |}.

(** [statsData{0.0, 0.0, "N/A", 0, 0}]. *)
Definition statsData_failed : statsData :=
  {| cpuPerc := 0; memPerc := 0; memUsage := "N/A"; netRx := 0; netTx := 0 |}.

Definition getContainerStats (c : Client) (containerID : string) : statsData :=
  match ContainerStats c containerID with
  | StatsRequestError _ => statsData_failed
  | StatsDecodeError _ => statsData_failed
  | StatsDecodeEOF => statsOf statsResponse_zero
  | StatsDecoded v => statsOf v
  end.

Record statsResult := {
  index : nat;
  res_cpuPerc : float;
  res_memPerc : float;
  res_memUsage : string;
  res_netRx : Z;
  res_netTx : Z }.

(** The record [result[i]] built without stats; [ctr.Names[0]] and
    [ctr.ID[:12]] panic when out of range. *)
Definition initialInfo (ctr : Summary) : outcome ContainerInfo :=
  match sum_Names ctr with
  | [] => Panic
  | name0 :: _ =>
      if (String.length (sum_ID ctr) <? 12)%nat then Panic
      else Ok {| ID := String.substring 0 12 (sum_ID ctr);
                 Name := strings.TrimPrefix name0 "/";
                 Image := sum_Image ctr;
                 State := sum_State ctr;
                 Status := sum_Status ctr;
                 CPUPerc := 0;
                 MemPerc := 0;
                 MemUsage := "N/A";
                 NetRx := 0;
                 NetTx := 0;
                 NetIO := "";
                 BlockIO := "";
                 CreatedAt := sum_Created ctr;
                 Labels := sum_Labels ctr |}
  end.

(** The first loop of [ListContainersWithStats], from index [i] on: the
    records, or a panic. *)
Fixpoint initialInfos (containers : list Summary) : outcome (list ContainerInfo) :=
  match containers with
  | [] => Ok []
  | ctr :: rest =>
      match initialInfo ctr with
      | Ok info =>
          match initialInfos rest with
          | Ok infos => Ok (info :: infos)
          | Err e => Err e
          | Panic => Panic
          end
      | Err e => Err e
      | Panic => Panic
      end
  end.

(** What the goroutine started for [containers[idx]] sends on [statsChan]. *)
Definition sampleTask (c : Client) (idx : nat) (containerID : string) : statsResult :=
  let stats := getContainerStats c containerID in
  {| index := idx;
     res_cpuPerc := cpuPerc stats;
     res_memPerc := memPerc stats;
     res_memUsage := memUsage stats;
     res_netRx := netRx stats;
     res_netTx := netTx stats |}.

(** The values sent on [statsChan]: one for each container whose state
    is ["running"], when stats are requested. *)
Fixpoint statsSent (c : Client) (includeStats : bool) (i : nat) (containers : list Summary)
  : list statsResult :=
  match containers with
  | [] => []
  | ctr :: rest =>
      (if String.eqb (sum_State ctr) "running" && includeStats
       then [sampleTask c i (sum_ID ctr)] else [])
      ++ statsSent c includeStats (S i) rest
  end.

(** The assignments [info.CPUPerc = stats.cpuPerc] ... [info.NetTx = stats.netTx]. *)
Definition setStats (stats : statsResult) (info : ContainerInfo) : ContainerInfo :=
  {| ID := ID info; Name := Name info; Image := Image info;
     State := State info; Status := Status info;
     CPUPerc := res_cpuPerc stats;
     MemPerc := res_memPerc stats;
     MemUsage := res_memUsage stats;
     NetRx := res_netRx stats;
     NetTx := res_netTx stats;
     NetIO := NetIO info; BlockIO := BlockIO info;
     CreatedAt := CreatedAt info; Labels := Labels info |}.

(** One turn of the collecting loop, on [result[stats.index]]. *)
Definition mergeStats (result : list ContainerInfo) (stats : statsResult) : outcome (list ContainerInfo) :=
  match result !! index stats with
  | None => Panic
  | Some info => Ok (<[index stats := setStats stats info]> result)
  end.

Fixpoint collectStats (result : list ContainerInfo) (received : list statsResult)
  : outcome (list ContainerInfo) :=
  match received with
  | [] => Ok result
  | stats :: rest =>
      match mergeStats result stats with
      | Ok result' => collectStats result' rest
      | Err e => Err e
      | Panic => Panic
      end
  end.

(** [ListContainersWithStats]; [choices] is the scheduler's order of
    arrival on [statsChan] (see [receive_all]). *)
Definition ListContainersWithStats (c : Client) (choices : list nat) (includeStats : bool)
  : outcome (list ContainerInfo) :=
  (* Only list running containers (equivalent to `docker ps` without -a) *)
  match ContainerList c {| All := false |} with
  | inl err => Err err
  | inr containers =>
      match initialInfos containers with
      | Ok result =>
          let sent := statsSent c includeStats 0 containers in
          let runningCount := length sent in
          if includeStats
          then collectStats result (receive_all runningCount choices sent)
          else Ok result
      | Err e => Err e
      | Panic => Panic
      end
  end.

Definition ListContainers (c : Client) (choices : list nat) : outcome (list ContainerInfo) :=
  ListContainersWithStats c choices true.

(** A client that answers every list request the way [c] answers the
    request for the running containers only. *)
Definition runningOnly (c : Client) : Client :=
  {| ContainerList := λ _, ContainerList c {| All := false |};
     ContainerStats := ContainerStats c |}.

(** The second copy of the package in [client.go], without statistics. *)
Module v0.

Definition info (ctr : Summary) : outcome ContainerInfo :=
  match sum_Names ctr with
  | [] => Panic
  | name0 :: _ =>
      let name :=
        if strings.HasPrefix name0 "/"
        then String.substring 1 (String.length name0 - 1) name0 else name0 in
      if (String.length (sum_ID ctr) <? 12)%nat then Panic
      else Ok {| ID := String.substring 0 12 (sum_ID ctr);
                 Name := name;
                 Image := sum_Image ctr;
                 State := sum_State ctr;
                 Status := sum_Status ctr;
                 CPUPerc := 0;
                 MemPerc := 0;
                 MemUsage := "N/A";
                 NetRx := 0;
                 NetTx := 0;
                 NetIO := "";
                 BlockIO := "";
                 CreatedAt := sum_Created ctr;
                 Labels := sum_Labels ctr |}
  end.

Fixpoint infos (containers : list Summary) : outcome (list ContainerInfo) :=
  match containers with
  | [] => Ok []
  | ctr :: rest =>
      match info ctr with
      | Ok i =>
          match infos rest with
          | Ok others => Ok (i :: others)
          | Err e => Err e
          | Panic => Panic
          end
      | Err e => Err e
      | Panic => Panic
      end
  end.

Definition ListContainers (c : Client) : outcome (list ContainerInfo) :=
  (* Only list running containers (equivalent to `docker ps` without -a) *)
  match ContainerList c {| All := false |} with
  | inl err => Err err
  | inr containers => infos containers
  end.

End v0.

End docker.

(** The byte [c] occurs in [s]. *)
Fixpoint has_byte (c : ascii) (s : string) : bool :=
  match s with
  | EmptyString => false
  | String b s' => if Ascii.eqb c b then true else has_byte c s'
  end.

(** ** Package model *)

Module model.

Inductive NodeType := NodeTypeProject | NodeTypeContainer.

#[global] Instance NodeType_eq_dec : EqDecision NodeType.
Proof. solve_decision. Defined.

(** A [*TreeNode] is an address into the node store. *)
Record TreeNode := {
  Type_ : NodeType;
  Name : string;
  Container : option docker.ContainerInfo;
  Children : list nat;
  Expanded : bool;
  Parent : option nat }.

Record Tree := {
  Root : option nat;
  Flat : list nat;  (* Flattened view for navigation *)
  Selected : Z }.

(** [len(t.Flat)]. *)
Definition lenFlat (t : Tree) : Z := Z.of_nat (length (Flat t)).

(** Assignments to a field of a node or of the tree. *)
Definition set_Children (f : list nat → list nat) (n : TreeNode) : TreeNode :=
  {| Type_ := Type_ n; Name := Name n; Container := Container n;
     Children := f (Children n); Expanded := Expanded n; Parent := Parent n |}.
Definition set_Expanded (b : bool) (n : TreeNode) : TreeNode :=
  {| Type_ := Type_ n; Name := Name n; Container := Container n;
     Children := Children n; Expanded := b; Parent := Parent n |}.
Definition set_Flat (flat : list nat) (t : Tree) : Tree :=
  {| Root := Root t; Flat := flat; Selected := Selected t |}.
Definition set_Selected (i : Z) (t : Tree) : Tree :=
  {| Root := Root t; Flat := Flat t; Selected := i |}.

(** [ParseProjectName] extracts the project name from a container name. *)
Definition ParseProjectName (containerName : string) : string :=
  (* Try underscore separator first (docker-compose v1) *)
  match strings.Index containerName "_" with
  | Some idx => strings.slice_to containerName idx
  | None =>
      (* Try dash separator (docker-compose v2) *)
      match strings.Index containerName "-" with
      | Some idx => strings.slice_to containerName idx
      | None => containerName (* No separator found, use full name as project *)
      end
  end.

(** A left-to-right loop whose body may fail. *)
Fixpoint for_each {A S} (body : S → A → option S) (s : S) (xs : list A) : option S :=
  match xs with
  | [] => Some s
  | x :: xs' =>
      match body s x with
      | Some s' => for_each body s' xs'
      | None => None
      end
  end.

(** [flattenNode]: the flattened view [flat] extended by the visible
    nodes below [node].  [fuel] bounds the depth of the recursion. *)
Fixpoint flattenNode (fuel : nat) (h : list TreeNode) (depth : Z) (flat : list nat) (node : nat)
  : option (list nat) :=
  match fuel with
  | O => None
  | S fuel' =>
      match h !! node with
      | None => None
      | Some n =>
          (* Don't add root to flat view *)
          let flat :=
            if negb (bool_decide (Type_ n = NodeTypeProject)) || negb (String.eqb (Name n) "root")
            then flat ++ [node] else flat in
          (* Add children if expanded *)
          if Expanded n
          then for_each (flattenNode fuel' h (wrap_int (depth + 1))) flat (Children n)
          else Some flat
      end
  end.

(** [UpdateFlatView] creates a flattened view of visible nodes for
    navigation.  A path without repetition in a store of [length h]
    nodes has at most that many nodes. *)
Definition UpdateFlatView (h : list TreeNode) (t : Tree) : option Tree :=
  match Root t with
  | None => None
  | Some root =>
      match flattenNode (S (length h)) h 0 [] root with
      | Some flat => Some (set_Flat flat t)
      | None => None
      end
  end.

(** [projects[projectName] = append(projects[projectName], &containers[i])]. *)
Definition groupContainer (projects : gmap string (list docker.ContainerInfo))
    (container : docker.ContainerInfo) : gmap string (list docker.ContainerInfo) :=
  let projectName := ParseProjectName (docker.Name container) in
  <[projectName := default [] (projects !! projectName) ++ [container]]> projects.

(** [parent.Children = append(parent.Children, child)]. *)
Definition appendChild (parent child : nat) (h : list TreeNode) : list TreeNode :=
  alter (set_Children (λ children, children ++ [child])) parent h.

Definition addContainer (projectNode : nat) (h : list TreeNode)
    (container : docker.ContainerInfo) : list TreeNode :=
  let containerNode := length h in
  let h := h ++ [ {| Type_ := NodeTypeContainer;
                     Name := docker.Name container;
                     Container := Some container;
                     Children := [];
                     Expanded := false;
                     Parent := Some projectNode |} ] in
  appendChild projectNode containerNode h.

Definition addProject (projects : gmap string (list docker.ContainerInfo)) (root : nat)
    (h : list TreeNode) (projectName : string) : list TreeNode :=
  (* Sort containers within project alphabetically *)
  let containers := sort.Slice docker.Name (default [] (projects !! projectName)) in
  let projectNode := length h in
  let h := h ++ [ {| Type_ := NodeTypeProject;
                     Name := projectName;
                     Container := None;
                     Children := [];
                     Expanded := true;
                     Parent := Some root |} ] in
  let h := foldl (addContainer projectNode) h containers in
  appendChild root projectNode h.

(** [BuildTree] groups containers by project prefix.  The tree is made
    of new nodes only: its store starts empty. *)
Definition BuildTree (containers : list docker.ContainerInfo) : option (list TreeNode * Tree) :=
  let root := 0%nat in
  let h := [ {| Type_ := NodeTypeProject;
                Name := "root";
                Container := None;
                Children := [];
                Expanded := true;
                Parent := None |} ] in
  (* Group containers by project *)
  let projects := foldl groupContainer ∅ containers in
  (* Sort project names alphabetically *)
  let projectNames := sort.Strings (map_to_list projects).*1 in
  (* Build tree structure in alphabetical order *)
  let h := foldl (addProject projects root) h projectNames in
  match UpdateFlatView h {| Root := Some root; Flat := []; Selected := 0 |} with
  | Some tree => Some (h, tree)
  | None => None
  end.

(** [GetSelected] returns the currently selected node. *)
Definition GetSelected (t : Tree) : option nat :=
  if (Selected t <? 0)%Z || (lenFlat t <=? Selected t)%Z then None
  else Flat t !! Z.to_nat (Selected t).

(** [MoveUp] moves selection up. *)
Definition MoveUp (t : Tree) : Tree :=
  if (0 <? Selected t)%Z then set_Selected (wrap_int (Selected t - 1)) t else t.

(** [MoveDown] moves selection down. *)
Definition MoveDown (t : Tree) : Tree :=
  if (Selected t <? wrap_int (lenFlat t - 1))%Z
  then set_Selected (wrap_int (Selected t + 1)) t else t.

(** [ToggleExpanded] toggles the expanded state of the selected node. *)
Definition ToggleExpanded (h : list TreeNode) (t : Tree) : option (list TreeNode * Tree) :=
  match GetSelected t with
  | None => Some (h, t)
  | Some node =>
      match h !! node with
      | None => None
      | Some n =>
          if bool_decide (Type_ n = NodeTypeProject) then
            let h' := <[node := set_Expanded (negb (Expanded n)) n]> h in
            match UpdateFlatView h' t with
            | Some t' => Some (h', t')
            | None => None
            end
          else Some (h, t)
      end
  end.

(** The loop of [GetNodePath]:
    [for current != nil && current.Name != "root" { ... }]. *)
Fixpoint pathLoop (fuel : nat) (h : list TreeNode) (path : list string) (current : option nat)
  : option (list string) :=
  match current with
  | None => Some path
  | Some c =>
      match fuel with
      | O => None
      | S fuel' =>
          match h !! c with
          | None => None
          | Some n =>
              if String.eqb (Name n) "root" then Some path
              else pathLoop fuel' h (Name n :: path) (Parent n)
          end
      end
  end.

(** [GetNodePath] returns a unique path identifier for a node. *)
Definition GetNodePath (h : list TreeNode) (node : option nat) : option string :=
  match node with
  | None => Some ""
  | Some _ =>
      (* Build path from root to node *)
      match pathLoop (S (length h)) h [] node with
      | Some path => Some (strings.Join path "/")
      | None => None
      end
  end.

(** The search of [RestoreSelection] through the flat view, from index
    [i] on: the index of the first node with the given path. *)
Fixpoint searchPath (h : list TreeNode) (path : string) (i : nat) (nodes : list nat)
  : option (option nat) :=
  match nodes with
  | [] => Some None
  | node :: rest =>
      match GetNodePath h (Some node) with
      | None => None
      | Some p =>
          if String.eqb p path then Some (Some i) else searchPath h path (S i) rest
      end
  end.

(** [RestoreSelection] attempts to restore selection to a node with the
    given path. *)
Definition RestoreSelection (h : list TreeNode) (t : Tree) (path : string) : option Tree :=
  if String.eqb path "" then Some t
  else
    match searchPath h path 0 (Flat t) with
    | None => None
    | Some (Some i) => Some (set_Selected (Z.of_nat i) t)
    | Some None =>
        (* If exact match not found, keep current selection (or default to 0) *)
        if (lenFlat t <=? Selected t)%Z then Some (set_Selected 0 t) else Some t
    end.

(** The loop of [GetDepth]:
    [for current != nil && current.Name != "root" { depth++; current = current.Parent }]. *)
Fixpoint depthLoop (fuel : nat) (h : list TreeNode) (depth : Z) (current : option nat)
  : option Z :=
  match current with
  | None => Some depth
  | Some c =>
      match fuel with
      | O => None
      | S fuel' =>
          match h !! c with
          | None => None
          | Some n =>
              if String.eqb (Name n) "root" then Some depth
              else depthLoop fuel' h (wrap_int (depth + 1)) (Parent n)
          end
      end
  end.

(** [GetDepth] returns the depth of a node in the tree. *)
Definition GetDepth (h : list TreeNode) (node : nat) : option Z :=
  match h !! node with
  | None => None
  | Some n => depthLoop (S (length h)) h 0 (Parent n)
  end.

(** [formatInt]: [string(rune('0' + value/10)) + string(rune('0' + value%10))];
    Go's [/] and [%] truncate towards zero. *)
Definition formatInt (value : Z) : string :=
  string_of_rune (wrap_int32 (wrap_int (48 + Z.quot value 10)))
  +:+ string_of_rune (wrap_int32 (wrap_int (48 + Z.rem value 10))).

Definition formatUnit (value : Z) (unit : string) : string :=
  if String.eqb unit "" then "" else formatInt value +:+ unit.

Definition formatDuration (a b c : Z) (aUnit bUnit cUnit : string) : string :=
  let result := "" in
  let result := if (0 <? a)%Z then result +:+ formatUnit a aUnit else result in
  let result :=
    if (0 <? b)%Z then
      let result := if negb (String.eqb result "") then result +:+ " " else result in
      result +:+ formatUnit b bUnit
    else result in
  let result :=
    if (0 <? c)%Z && negb (String.eqb cUnit "") then
      let result := if negb (String.eqb result "") then result +:+ " " else result in
      result +:+ formatUnit c cUnit
    else result in
  result.

End model.

(** ** Package ui *)

Module ui.

(** The fields of [Model] that the tree view uses; [nodes] is the store
    of the nodes that [tree] points into. *)
Record Model := {
  nodes : list model.TreeNode;
  tree : option model.Tree;
  width : Z;
  height : Z;
  viewportTop : Z  (* First visible line in the tree *) }.

Definition set_tree (t : model.Tree) (m : Model) : Model :=
  {| nodes := nodes m; tree := Some t; width := width m; height := height m;
     viewportTop := viewportTop m |}.
Definition set_viewportTop (top : Z) (m : Model) : Model :=
  {| nodes := nodes m; tree := tree m; width := width m; height := height m;
     viewportTop := top |}.

(** The visible height that [adjustViewport] computes: total minus
    title and header and footer, at least one. *)
Definition visibleHeight (m : Model) : Z :=
  let visibleHeight := wrap_int (height m - 5) in
  if (visibleHeight <? 1)%Z then 1%Z else visibleHeight.

(** [adjustViewport] ensures the selected item is visible in the viewport. *)
Definition adjustViewport (m : Model) : Model :=
  match tree m with
  | None => m
  | Some t =>
      if (model.lenFlat t =? 0)%Z then m
      else
        let visibleHeight := visibleHeight m in
        let selected := model.Selected t in
        (* Scroll down if selected is below viewport *)
        let m :=
          if (wrap_int (viewportTop m + visibleHeight) <=? selected)%Z
          then set_viewportTop (wrap_int (wrap_int (selected - visibleHeight) + 1)) m
          else m in
        (* Scroll up if selected is above viewport *)
        let m :=
          if (selected <? viewportTop m)%Z then set_viewportTop selected m else m in
        (* Ensure viewport doesn't go negative *)
        if (viewportTop m <? 0)%Z then set_viewportTop 0 m else m
  end.

(** The calls that move the selection and the viewport. *)
Inductive call := MoveUp | MoveDown | AdjustViewport.

(** One call on the model; [m.tree.MoveUp()] needs a tree. *)
Definition step (m : Model) (c : call) : option Model :=
  match c with
  | MoveUp =>
      match tree m with
      | Some t => Some (set_tree (model.MoveUp t) m)
      | None => None
      end
  | MoveDown =>
      match tree m with
      | Some t => Some (set_tree (model.MoveDown t) m)
      | None => None
      end
  | AdjustViewport => Some (adjustViewport m)
  end.

Definition run (m : Model) (calls : list call) : option Model :=
  model.for_each step m calls.

(** *** The snapshot printer *)

(** The loop of [formatNetBytesPlain]:
    [for n := bytes / unit; n >= unit && exp < 4; n /= unit { div *= unit; exp++ }]. *)
Fixpoint formatNetBytesPlain_loop (fuel : nat) (n div exp : Z) : Z * Z :=
  match fuel with
  | O => (div, exp)
  | S fuel' =>
      if (1024 <=? n)%Z && (exp <? 4)%Z
      then formatNetBytesPlain_loop fuel' (n / 1024)%Z (wrap_uint64 (div * 1024)) (exp + 1)%Z
      else (div, exp)
  end.

(** [formatNetBytesPlain]; [None] is the panic of [units[exp]] out of range. *)
Definition formatNetBytesPlain (bytes : Z) : option string :=
  if (bytes <? 1024)%Z then Some "0"
  else
    (* [exp] stops at 4, so four turns exhaust the loop *)
    let '(div, exp) := formatNetBytesPlain_loop 4 (bytes / 1024)%Z 1024%Z 0%Z in
    let value := (float64_of_Z bytes / float64_of_Z div)%float in
    let units := ["B"; "K"; "M"; "G"; "T"] in
    match (if (exp <? 0)%Z then None else units !! Z.to_nat exp) with
    | None => None
    | Some unit_ =>
        if (100 <=? value)%float then Some (fmt.f0 value +:+ unit_)
        else if (10 <=? value)%float then Some (fmt.f1 value +:+ unit_)
        else Some (fmt.f1 value +:+ unit_)
    end.

(** [truncateOrPadPlain], and [truncateOrPad] of the interactive view,
    which reads the same.  [None] is a panic: of the slice expression
    [runes[:width-3]] with a bound out of range (on the only path to a
    bound above the length, [width-3] has wrapped around and is above any
    capacity as well), or of [strings.Repeat]. *)
Definition truncateOrPadPlain (s : string) (width : Z) : option string :=
  let runes := runes_of_string s in
  if (width <? Z.of_nat (length runes))%Z then
    let bound := wrap_int (width - 3) in
    if (bound <? 0)%Z || (Z.of_nat (length runes) <? bound)%Z then None
    else Some (string_of_runes (take (Z.to_nat bound) runes) +:+ "...")
  else
    pad ← strings.Repeat " " (wrap_int (width - Z.of_nat (length runes)));
    Some (s +:+ pad).

Definition truncateOrPad (s : string) (width : Z) : option string :=
  let runes := runes_of_string s in
  if (width <? Z.of_nat (length runes))%Z then
    let bound := wrap_int (width - 3) in
    if (bound <? 0)%Z || (Z.of_nat (length runes) <? bound)%Z then None
    else Some (string_of_runes (take (Z.to_nat bound) runes) +:+ "...")
  else
    pad ← strings.Repeat " " (wrap_int (width - Z.of_nat (length runes)));
    Some (s +:+ pad).

(** *** The whole model, its messages and its commands *)

Inductive ViewMode := ViewModeMain | ViewModeMenu | ViewModeLogs.

#[global] Instance ViewMode_eq_dec : EqDecision ViewMode.
Proof. solve_decision. Defined.

(** The [Action] of a menu item, by the values that its closure captures.
    The children of a project are captured as pointers to nodes; the
    actions read their [Container] only, which nothing writes to after
    [BuildTree], so the nodes are captured as they are when the menu
    opens. *)
Inductive action :=
  | RestartAll (children : list model.TreeNode)
  | StopAll (children : list model.TreeNode)
  | Down (children : list model.TreeNode)
  | StartAll (children : list model.TreeNode)
  | Restart (containerID : string)
  | Stop (containerID : string)
  | Remove (containerID : string)
  | Start (containerID : string)
  | Logs (containerID : string) (container : docker.ContainerInfo).

Record MenuItem := { Label : string; Action : action }.

(** The calls on the client of the container runtime. *)
Inductive runtimeCall :=
  | RestartContainer (containerID : string)
  | StopContainer (containerID : string)
  | StartContainer (containerID : string)
  | RemoveContainer (containerID : string)
  | GetContainerLogs (containerID : string) (tail : Z)
  | ListContainersWithStats (includeStats : bool).

(** The calls that a loop [for _, child := range children] makes on the
    children with a container for which [cond] holds. *)
Definition forChildren (cond : docker.ContainerInfo → bool)
    (call : string → runtimeCall) (children : list model.TreeNode) : list runtimeCall :=
  flat_map (λ child,
    match model.Container child with
    | Some container => if cond container then [call (docker.ID container)] else []
    | None => []
    end) children.

(** The command of an action starts a goroutine (but for the logs) and,
    without waiting for it, makes a call of its own, whose result is its
    message.  The calls of the goroutine, in order: *)
Definition goroutineCalls (a : action) : list runtimeCall :=
  match a with
  | RestartAll children =>
      forChildren (λ c, String.eqb (docker.State c) "running") RestartContainer children
  | StopAll children =>
      forChildren (λ c, String.eqb (docker.State c) "running") StopContainer children
  | Down children =>
      (* Stop and remove containers (volumes are preserved) *)
      forChildren (λ _, true) RemoveContainer children
  | StartAll children =>
      forChildren (λ c, negb (String.eqb (docker.State c) "running")) StartContainer children
  | Restart containerID => [RestartContainer containerID]
  | Stop containerID => [StopContainer containerID]
  | Remove containerID => [RemoveContainer containerID]
  | Start containerID => [StartContainer containerID]
  | Logs _ _ => []
  end.

(** The call of the command itself: [m.refreshContainers()()], which is
    [ListContainersWithStats(true)] (a list request and a statistics
    request for every running container), or the logs. *)
Definition commandCall (a : action) : runtimeCall :=
  match a with
  | Logs containerID _ => GetContainerLogs containerID 1000
  | _ =>
      (* Immediately refresh to show operation started *)
      ListContainersWithStats true
  end.

(** The commands that [Update] returns; [nil] is [None]. *)
#[warnings="-register-all"]
Inductive Cmd :=
  | Quit
  | Batch (cmds : list Cmd)
  | refreshContainersWithStats (includeStats : bool)
  | tickCmd
  | runAction (a : action).

Definition refreshContainers : Cmd := refreshContainersWithStats true.

(** The messages that [Update] receives. *)
Inductive Msg :=
  | WindowSizeMsg (Width Height : Z)
  | containersMsg (containers : list docker.ContainerInfo)
  | tickMsg
  | logsMsg (containerName content : string)
  | errMsg (err : string)
  | KeyMsg (key : string)
  | otherMsg.

(** The message of the command [refreshContainersWithStats(includeStats)]
    on the client [c]; [choices] is the scheduler's, as in the listing. *)
Definition refreshMsg (c : docker.Client) (choices : list nat) (includeStats : bool)
  : outcome Msg :=
  match docker.ListContainersWithStats c choices includeStats with
  | Err err => Ok (errMsg err)
  | Ok containers => Ok (containersMsg containers)
  | Panic => Panic
  end.

(** The message of the command of an action; [logs] is what
    [GetContainerLogs] returns. *)
Definition actionMsg (c : docker.Client) (choices : list nat) (logs : string + string)
    (a : action) : outcome Msg :=
  match a with
  | Logs _ container =>
      match logs with
      | inl err => Ok (errMsg err)
      | inr logs => Ok (logsMsg (docker.Name container) logs)
      end
  | _ => refreshMsg c choices true
  end.

(** The struct [Model]: the fields of the tree view ([Model] above, with
    the node store) and the others, but for the client. *)
Record FullModel := {
  treeView : Model;
  viewMode : ViewMode;
  menuItems : list MenuItem;
  menuSelected : Z;
  logsContent : string;
  logsScroll : Z;
  logsContainer : string;
  err : option string }.

Definition set_treeView (v : Model) (m : FullModel) : FullModel :=
  {| treeView := v; viewMode := viewMode m; menuItems := menuItems m;
     menuSelected := menuSelected m; logsContent := logsContent m;
     logsScroll := logsScroll m; logsContainer := logsContainer m; err := err m |}.
Definition set_viewMode (mode : ViewMode) (m : FullModel) : FullModel :=
  {| treeView := treeView m; viewMode := mode; menuItems := menuItems m;
     menuSelected := menuSelected m; logsContent := logsContent m;
     logsScroll := logsScroll m; logsContainer := logsContainer m; err := err m |}.
Definition set_menuItems (items : list MenuItem) (m : FullModel) : FullModel :=
  {| treeView := treeView m; viewMode := viewMode m; menuItems := items;
     menuSelected := menuSelected m; logsContent := logsContent m;
     logsScroll := logsScroll m; logsContainer := logsContainer m; err := err m |}.
Definition set_menuSelected (i : Z) (m : FullModel) : FullModel :=
  {| treeView := treeView m; viewMode := viewMode m; menuItems := menuItems m;
     menuSelected := i; logsContent := logsContent m;
     logsScroll := logsScroll m; logsContainer := logsContainer m; err := err m |}.
Definition set_logsContent (content : string) (m : FullModel) : FullModel :=
  {| treeView := treeView m; viewMode := viewMode m; menuItems := menuItems m;
     menuSelected := menuSelected m; logsContent := content;
     logsScroll := logsScroll m; logsContainer := logsContainer m; err := err m |}.
Definition set_logsScroll (i : Z) (m : FullModel) : FullModel :=
  {| treeView := treeView m; viewMode := viewMode m; menuItems := menuItems m;
     menuSelected := menuSelected m; logsContent := logsContent m;
     logsScroll := i; logsContainer := logsContainer m; err := err m |}.
Definition set_logsContainer (name : string) (m : FullModel) : FullModel :=
  {| treeView := treeView m; viewMode := viewMode m; menuItems := menuItems m;
     menuSelected := menuSelected m; logsContent := logsContent m;
     logsScroll := logsScroll m; logsContainer := name; err := err m |}.
Definition set_err (e : option string) (m : FullModel) : FullModel :=
  {| treeView := treeView m; viewMode := viewMode m; menuItems := menuItems m;
     menuSelected := menuSelected m; logsContent := logsContent m;
     logsScroll := logsScroll m; logsContainer := logsContainer m; err := e |}.

Definition set_nodes (h : list model.TreeNode) (m : Model) : Model :=
  {| nodes := h; tree := tree m; width := width m; height := height m;
     viewportTop := viewportTop m |}.
Definition set_size (w h : Z) (m : Model) : Model :=
  {| nodes := nodes m; tree := tree m; width := w; height := h;
     viewportTop := viewportTop m |}.

(** [NewModel]: the tree is [&model.Tree{}], the other fields are zero. *)
Definition NewModel : FullModel :=
  {| treeView :=
       {| nodes := [];
          tree := Some {| model.Root := None; model.Flat := []; model.Selected := 0 |};
          width := 0; height := 0; viewportTop := 0 |};
     viewMode := ViewModeMain;
     menuItems := [];
     menuSelected := 0;
     logsContent := "";
     logsScroll := 0;
     logsContainer := "";
     err := None |}.

Definition Init : Cmd :=
  Batch [ refreshContainersWithStats false;  (* First load without stats (instant) *)
          tickCmd ].

(** **** A refresh of the containers *)

(** The body of the loop that saves the expand/collapse state of each
    project of the flat view. *)
Definition saveExpanded (h : list model.TreeNode) (expandedProjects : gmap string bool)
    (node : nat) : option (gmap string bool) :=
  match h !! node with
  | None => None
  | Some n =>
      if bool_decide (model.Type_ n = model.NodeTypeProject)
      then Some (<[model.Name n := model.Expanded n]> expandedProjects)
      else Some expandedProjects
  end.

(** The body of the loop that restores it on the children of the new root. *)
Definition restoreExpanded (expandedProjects : gmap string bool) (h : list model.TreeNode)
    (node : nat) : option (list model.TreeNode) :=
  match h !! node with
  | None => None
  | Some n =>
      if bool_decide (model.Type_ n = model.NodeTypeProject) then
        match expandedProjects !! model.Name n with
        | Some expanded => Some (<[node := model.set_Expanded expanded n]> h)
        | None => Some h
        end
      else Some h
  end.

(** What the case [containersMsg] of [Update] saves of the old tree:
    the path of the selected node and the flags of the projects. *)
Definition savedState (m : Model) : option (string * gmap string bool) :=
  match tree m with
  | Some t =>
      selectedPath ←
        match model.GetSelected t with
        | Some selectedNode => model.GetNodePath (nodes m) (Some selectedNode)
        | None => Some ""
        end;
      (* Save expand/collapse state for each project *)
      expandedProjects ← model.for_each (saveExpanded (nodes m)) ∅ (model.Flat t);
      Some (selectedPath, expandedProjects)
  | None => Some ("", ∅)
  end.

(** The case [containersMsg] of [Update], on the fields of the tree view. *)
Definition updateContainers (m : Model) (msg : list docker.ContainerInfo) : option Model :=
  (* Preserve selection and expand/collapse state across refresh *)
  '(selectedPath, expandedProjects) ← savedState m;
  '(h, t) ← model.BuildTree msg;
  (* Restore expand/collapse state *)
  root ← model.Root t;
  rootNode ← h !! root;
  h ← model.for_each (restoreExpanded expandedProjects) h (model.Children rootNode);
  t ← model.UpdateFlatView h t;
  (* Restore selection if possible *)
  t ← (if negb (String.eqb selectedPath "")
       then model.RestoreSelection h t selectedPath else Some t);
  (* Adjust viewport to ensure selection is visible *)
  Some (adjustViewport (set_tree t (set_nodes h m))).

(** **** The keys of the tree view *)

(** The key [key] is one of [names]. *)
Definition keyIs (key : string) (names : list string) : bool := bool_decide (key ∈ names).

(** [for i := 0; i < visibleHeight && m.tree.Selected > 0; i++ { m.tree.MoveUp() }]. *)
Fixpoint pgupLoop (fuel : nat) (i visibleHeight : Z) (t : model.Tree) : model.Tree :=
  match fuel with
  | O => t
  | S fuel' =>
      if (i <? visibleHeight)%Z && (0 <? model.Selected t)%Z
      then pgupLoop fuel' (wrap_int (i + 1)) visibleHeight (model.MoveUp t)
      else t
  end.

(** [for i := 0; i < visibleHeight && m.tree.Selected < len(m.tree.Flat)-1; i++
    { m.tree.MoveDown() }]. *)
Fixpoint pgdownLoop (fuel : nat) (i visibleHeight : Z) (t : model.Tree) : model.Tree :=
  match fuel with
  | O => t
  | S fuel' =>
      if (i <? visibleHeight)%Z && (model.Selected t <? wrap_int (model.lenFlat t - 1))%Z
      then pgdownLoop fuel' (wrap_int (i + 1)) visibleHeight (model.MoveDown t)
      else t
  end.

(** [node.Expanded = expanded; m.tree.UpdateFlatView(); m.adjustViewport()]. *)
Definition setExpanded (m : Model) (t : model.Tree) (node : nat) (n : model.TreeNode)
    (expanded : bool) : option Model :=
  let h := <[node := model.set_Expanded expanded n]> (nodes m) in
  t ← model.UpdateFlatView h t;
  Some (adjustViewport (set_tree t (set_nodes h m))).

(** The cases of the tree navigation in [handleKeyPress] that act on the
    tree view ([m.tree] is dereferenced in each of them); the loops of
    "pgup" and "pgdown" make [visibleHeight] turns at most. *)
Definition treeKey (m : Model) (key : string) : option Model :=
  if keyIs key ["up"; "k"] then
    t ← tree m;
    Some (adjustViewport (set_tree (model.MoveUp t) m))
  else if keyIs key ["down"; "j"] then
    t ← tree m;
    Some (adjustViewport (set_tree (model.MoveDown t) m))
  else if keyIs key ["pgup"] then
    (* Page up - move up by viewport height *)
    let visibleHeight := visibleHeight m in
    t ← tree m;
    Some (adjustViewport (set_tree (pgupLoop (Z.to_nat visibleHeight) 0 visibleHeight t) m))
  else if keyIs key ["pgdown"] then
    (* Page down - move down by viewport height *)
    let visibleHeight := visibleHeight m in
    t ← tree m;
    Some (adjustViewport (set_tree (pgdownLoop (Z.to_nat visibleHeight) 0 visibleHeight t) m))
  else if keyIs key ["home"] then
    (* Jump to top *)
    t ← tree m;
    Some (adjustViewport (set_tree (model.set_Selected 0 t) m))
  else if keyIs key ["end"] then
    (* Jump to bottom *)
    t ← tree m;
    let t := if (0 <? model.lenFlat t)%Z
             then model.set_Selected (wrap_int (model.lenFlat t - 1)) t else t in
    Some (adjustViewport (set_tree t m))
  else if keyIs key ["left"; "h"] then
    t ← tree m;
    match model.GetSelected t with
    | None => Some m
    | Some node =>
        n ← nodes m !! node;
        if bool_decide (model.Type_ n = model.NodeTypeProject) && model.Expanded n
        then setExpanded m t node n false
        else Some m
    end
  else if keyIs key ["right"; "l"] then
    t ← tree m;
    match model.GetSelected t with
    | None => Some m
    | Some node =>
        n ← nodes m !! node;
        if bool_decide (model.Type_ n = model.NodeTypeProject) && negb (model.Expanded n)
        then setExpanded m t node n true
        else Some m
    end
  else Some m.

(** **** The menu *)

Definition getProjectMenuItems (h : list model.TreeNode) (node : model.TreeNode)
  : option (list MenuItem) :=
  (* Capture the children slice to avoid closure issues *)
  children ← mapM (λ child, h !! child) (model.Children node);
  Some [ {| Label := "Restart All"; Action := RestartAll children |};
         {| Label := "Stop All"; Action := StopAll children |};
         {| Label := "Down (stop & remove, keeps volumes)"; Action := Down children |};
         {| Label := "Start All"; Action := StartAll children |} ].

Definition getContainerMenuItems (node : model.TreeNode) : list MenuItem :=
  match model.Container node with
  | None => []
  | Some container =>
      (* Capture container ID to avoid closure issues *)
      let containerID := docker.ID container in
      let containerState := docker.State container in
      let items := [] in
      let items :=
        if String.eqb containerState "running" then
          items ++ [ {| Label := "Restart"; Action := Restart containerID |} ]
                ++ [ {| Label := "Stop"; Action := Stop containerID |} ]
                ++ [ {| Label := "Remove (keeps volumes)"; Action := Remove containerID |} ]
        else
          items ++ [ {| Label := "Start"; Action := Start containerID |} ] in
      items ++ [ {| Label := "Logs"; Action := Logs containerID container |} ]
  end.

Definition openMenu (m : FullModel) : option FullModel :=
  t ← tree (treeView m);
  match model.GetSelected t with
  | None => Some m
  | Some node =>
      n ← nodes (treeView m) !! node;
      let m := set_viewMode ViewModeMenu (set_menuSelected 0 m) in
      match model.Type_ n with
      | model.NodeTypeProject =>
          items ← getProjectMenuItems (nodes (treeView m)) n;
          Some (set_menuItems items m)
      | model.NodeTypeContainer => Some (set_menuItems (getContainerMenuItems n) m)
      end
  end.

(** **** [Update] *)

(** The keys of the logs view. *)
Definition logsKey (m : FullModel) (key : string) : FullModel :=
  if keyIs key ["esc"; "q"] then
    set_logsScroll 0 (set_logsContent "" (set_viewMode ViewModeMain m))
  else if keyIs key ["up"; "k"] then
    if (0 <? logsScroll m)%Z then set_logsScroll (wrap_int (logsScroll m - 1)) m else m
  else if keyIs key ["down"; "j"] then
    set_logsScroll (wrap_int (logsScroll m + 1)) m
  else if keyIs key ["pgup"] then
    let m := set_logsScroll (wrap_int (logsScroll m - wrap_int (height (treeView m) - 5))) m in
    if (logsScroll m <? 0)%Z then set_logsScroll 0 m else m
  else if keyIs key ["pgdown"] then
    set_logsScroll (wrap_int (logsScroll m + wrap_int (height (treeView m) - 5))) m
  else if keyIs key ["home"] then set_logsScroll 0 m
  else if keyIs key ["g"] then set_logsScroll 0 m
  else if keyIs key ["G"] then
    (* Go to end *)
    set_logsScroll 999999 m  (* Will be clamped in view *)
  else m.

(** The keys of the menu; [m.menuItems[m.menuSelected]] panics out of range. *)
Definition menuKey (m : FullModel) (key : string) : option (FullModel * option Cmd) :=
  if keyIs key ["up"; "k"] then
    Some (if (0 <? menuSelected m)%Z
          then set_menuSelected (wrap_int (menuSelected m - 1)) m else m, None)
  else if keyIs key ["down"; "j"] then
    Some (if (menuSelected m <? wrap_int (Z.of_nat (length (menuItems m)) - 1))%Z
          then set_menuSelected (wrap_int (menuSelected m + 1)) m else m, None)
  else if keyIs key ["enter"] then
    (* Execute selected action *)
    if (menuSelected m <? Z.of_nat (length (menuItems m)))%Z then
      match (if (menuSelected m <? 0)%Z then None
             else menuItems m !! Z.to_nat (menuSelected m)) with
      | Some item => Some (set_viewMode ViewModeMain m, Some (runAction (Action item)))
      | None => None
      end
    else Some (m, None)
  else if keyIs key ["esc"] then Some (set_viewMode ViewModeMain m, None)
  else Some (m, None).

Definition handleKeyPress (m : FullModel) (key : string) : option (FullModel * option Cmd) :=
  (* Handle logs view *)
  if bool_decide (viewMode m = ViewModeLogs) then Some (logsKey m key, None)
  (* Handle menu navigation *)
  else if bool_decide (viewMode m = ViewModeMenu) then menuKey m key
  (* Handle tree navigation *)
  else if keyIs key ["q"; "ctrl+c"] then Some (m, Some Quit)
  else if keyIs key ["enter"] then
    m ← openMenu m; Some (m, None)
  else
    v ← treeKey (treeView m) key; Some (set_treeView v m, None).

Definition Update (m : FullModel) (msg : Msg) : option (FullModel * option Cmd) :=
  match msg with
  | WindowSizeMsg Width Height =>
      (* Adjust viewport on resize *)
      Some (set_treeView (adjustViewport (set_size Width Height (treeView m))) m, None)
  | containersMsg msg =>
      v ← updateContainers (treeView m) msg; Some (set_treeView v m, None)
  | tickMsg => Some (m, Some (Batch [refreshContainers; tickCmd]))
  | logsMsg containerName content =>
      Some (set_viewMode ViewModeLogs
              (set_logsScroll 0 (set_logsContent content (set_logsContainer containerName m))),
            None)
  | errMsg err => Some (set_err (Some err) m, None)
  | KeyMsg key => handleKeyPress m key
  | otherMsg => Some (m, None)
  end.

(** The model after the messages [msgs], one after the other. *)
Definition updates (m : FullModel) (msgs : list Msg) : option FullModel :=
  model.for_each (λ m msg, fst <$> Update m msg) m msgs.

End ui.

(** ** Package main *)

Module main.

(** The command-line flags after [flag.Parse()]. *)
Record Flags := { flag_list : bool; flag_l : bool; flag_version : bool }.

(** What the program meets when it runs: its flags, what
    [docker.NewClient] gives (a client, or the error of a configuration
    it cannot use: creating the client sends nothing to the runtime), the
    scheduler's choices during the listing, and the error of the
    interactive program, if any. *)
Record World := {
  flags : Flags;
  NewClient : string + docker.Client;
  choices : list nat;
  Run : option string }.

(** What the program does to the outside. *)
Inductive effect :=
  | Println (s : string)
  | Printf (s : string)
  | PrintSnapshot (nodes : list model.TreeNode) (tree : model.Tree)
  | RunProgram.

(** [main]: the effects in order and the exit status of the process
    ([0] on return, the argument of [os.Exit], [2] on a panic). *)
Definition main (w : World) : list effect * Z :=
  (* Version flag *)
  if flag_version (flags w) then
    ([Println "dtop v0.1.0";
      Println "Docker container monitor - https://github.com/ekinertac/dtop"], 0%Z)
  else
    (* Initialize Docker client *)
    match NewClient w with
    | inl err => ([Printf ("Failed to create Docker client: " +:+ err +:+ String "010" "")], 1%Z)
    | inr dockerClient =>
        (* List mode - print once and exit *)
        if flag_list (flags w) || flag_l (flags w) then
          match docker.ListContainers dockerClient (choices w) with
          | Err err => ([Printf ("Failed to list containers: " +:+ err +:+ String "010" "")], 1%Z)
          | Panic => ([], 2%Z)
          | Ok containers =>
              match model.BuildTree containers with
              | Some (h, tree) => ([PrintSnapshot h tree], 0%Z)
              | None => ([], 2%Z)
              end
          end
        else
          (* Interactive mode - start TUI *)
          match Run w with
          | Some err => ([RunProgram; Printf ("Error running program: " +:+ err +:+ String "010" "")], 1%Z)
          | None => ([RunProgram], 0%Z)
          end
    end.

End main.

(** ** Trees under a sequence of calls *)

(** The calls on a tree that the key handlers make. *)
Inductive treeCall := CallMoveUp | CallMoveDown | CallToggleExpanded.

Definition treeStep (s : list model.TreeNode * model.Tree) (c : treeCall)
  : option (list model.TreeNode * model.Tree) :=
  match c with
  | CallMoveUp => Some (s.1, model.MoveUp s.2)
  | CallMoveDown => Some (s.1, model.MoveDown s.2)
  | CallToggleExpanded => model.ToggleExpanded s.1 s.2
  end.

(** The store and the tree after [BuildTree(containers)] and then [calls]. *)
Definition treeAfter (containers : list docker.ContainerInfo) (calls : list treeCall)
  : option (list model.TreeNode * model.Tree) :=
  match model.BuildTree containers with
  | Some s => model.for_each treeStep s calls
  | None => None
  end.

(** The project nodes of a tree: the children of its root. *)
Definition projectsOf (h : list model.TreeNode) (t : model.Tree) : list nat :=
  match model.Root t with
  | Some root => match h !! root with Some n => model.Children n | None => [] end
  | None => []
  end.

(** The names of the nodes at the addresses [ps]. *)
Definition namesOf (h : list model.TreeNode) (ps : list nat) : list string :=
  omap (λ p, model.Name <$> h !! p) ps.

(** The names of the children of the node at [p]. *)
Definition childNames (h : list model.TreeNode) (p : nat) : list string :=
  match h !! p with
  | Some n => namesOf h (model.Children n)
  | None => []
  end.

(** The number of container nodes below the project at [p] if it is
    expanded, [0] if it is collapsed. *)
Definition expandedContainers (h : list model.TreeNode) (p : nat) : nat :=
  match h !! p with
  | Some n => if model.Expanded n then length (model.Children n) else 0
  | None => 0
  end.

(** How often the address [p] occurs in a flat view. *)
Definition occurrences (p : nat) (flat : list nat) : nat :=
  length (filter (λ q, q = p) flat).

(** *** The layout of a built tree in the store

    [BuildTree] allocates the root at address [0] and then, project after
    project, the project node followed by its container nodes. *)

Record project := {
  p_name : string;
  p_expanded : bool;
  p_containers : list docker.ContainerInfo }.

Definition containerNode (parent : nat) (c : docker.ContainerInfo) : model.TreeNode :=
  {| model.Type_ := model.NodeTypeContainer;
     model.Name := docker.Name c;
     model.Container := Some c;
     model.Children := [];
     model.Expanded := false;
     model.Parent := Some parent |}.

Definition projectNode (base : nat) (g : project) : model.TreeNode :=
  {| model.Type_ := model.NodeTypeProject;
     model.Name := p_name g;
     model.Container := None;
     model.Children := seq (S base) (length (p_containers g));
     model.Expanded := p_expanded g;
     model.Parent := Some 0 |}.

Definition projectNodes (base : nat) (g : project) : list model.TreeNode :=
  projectNode base g :: (containerNode base <$> p_containers g).

(** The number of nodes of a project. *)
Definition projectSize (g : project) : nat := S (length (p_containers g)).

(** The number of nodes of the projects [gs]. *)
Definition bodySize (gs : list project) : nat := sum_list_with projectSize gs.

Fixpoint projectAddrs (base : nat) (gs : list project) : list nat :=
  match gs with
  | [] => []
  | g :: gs' => base :: projectAddrs (base + projectSize g) gs'
  end.

Fixpoint bodyNodes (base : nat) (gs : list project) : list model.TreeNode :=
  match gs with
  | [] => []
  | g :: gs' => projectNodes base g ++ bodyNodes (base + projectSize g) gs'
  end.

Definition rootNode (children : list nat) : model.TreeNode :=
  {| model.Type_ := model.NodeTypeProject;
     model.Name := "root";
     model.Container := None;
     model.Children := children;
     model.Expanded := true;
     model.Parent := None |}.

Definition layout (gs : list project) : list model.TreeNode :=
  rootNode (projectAddrs 1 gs) :: bodyNodes 1 gs.

(** A store that holds the nodes of the projects [gs] from [base] on. *)
Definition holds (h : list model.TreeNode) (base : nat) (gs : list project) : Prop :=
  ∃ h1 h2, h = h1 ++ bodyNodes base gs ++ h2 ∧ length h1 = base.

(** The entries of the flat view that come from one project. *)
Definition shownOf (base : nat) (g : project) : list nat :=
  (if String.eqb (p_name g) "root" then [] else [base])
  ++ (if p_expanded g then seq (S base) (length (p_containers g)) else []).

Fixpoint flatOf (base : nat) (gs : list project) : list nat :=
  match gs with
  | [] => []
  | g :: gs' => shownOf base g ++ flatOf (base + projectSize g) gs'
  end.

(** The projects that [BuildTree] makes of a container list. *)
Definition groupsOf (containers : list docker.ContainerInfo) : list project :=
  let projects := foldl model.groupContainer ∅ containers in
  (λ projectName,
     {| p_name := projectName;
        p_expanded := true;
        p_containers := sort.Slice docker.Name (default [] (projects !! projectName)) |})
  <$> sort.Strings (map_to_list projects).*1.

(** A store and a tree of that layout. *)
Definition treeOf (gs : list project) (h : list model.TreeNode) (t : model.Tree) : Prop :=
  h = layout gs ∧ model.Root t = Some 0 ∧ model.Flat t = flatOf 1 gs.

(** The selection is an index of the flat view, or [0] when that is empty. *)
Definition selectionOk (t : model.Tree) : Prop :=
  (0 ≤ model.Selected t < 2 ^ 63)%Z ∧
  (model.Selected t < model.lenFlat t ∨ model.Selected t = 0)%Z.

(** The project [g] with its expansion flag set to [e]. *)
Definition withExpanded (e : bool) (g : project) : project :=
  {| p_name := p_name g; p_expanded := e; p_containers := p_containers g |}.

(** Two lists of projects that differ in the expansion flags at most. *)
Definition sameProjects (gs gs' : list project) : Prop :=
  (λ g, (p_name g, p_containers g)) <$> gs = (λ g, (p_name g, p_containers g)) <$> gs'.

(** The trees that the calls make of the tree built from [containers]. *)
Definition treeFrom (containers : list docker.ContainerInfo)
    (h : list model.TreeNode) (t : model.Tree) : Prop :=
  ∃ gs, treeOf gs h t ∧ sameProjects gs (groupsOf containers) ∧ selectionOk t.

(** No project is named ["root"] and no container is. *)
Definition noRoot (gs : list project) : Prop :=
  Forall (λ g, String.eqb (p_name g) "root" = false ∧
               Forall (λ c, docker.Name c ≠ "root") (p_containers g)) gs.

(** The number of containers of a project that the flat view shows. *)
Definition shownContainers (g : project) : nat :=
  if p_expanded g then length (p_containers g) else 0.

(** The groups of a map from project names to containers are made of the
    containers [cs], each under its project name, and none is empty. *)
Definition groupsWithin (cs : list docker.ContainerInfo)
    (projects : gmap string (list docker.ContainerInfo)) : Prop :=
  ∀ k l, projects !! k = Some l →
    l ≠ [] ∧ Forall (λ c, c ∈ cs ∧ model.ParseProjectName (docker.Name c) = k) l.

(** The runtime's entries that the listing can index: at least one name
    and an identifier of twelve bytes or more. *)
Definition wellFormed (ctr : docker.Summary) : Prop :=
  docker.sum_Names ctr ≠ [] ∧ 12 ≤ String.length (docker.sum_ID ctr).

(** A sampling failure, in the words of the specification: an I/O error
    (the request fails) or a malformed response (the body is no document
    of the statistics: it does not decode, or it is empty). *)
Definition samplingFails (c : docker.Client) (containerID : string) : Prop :=
  match docker.ContainerStats c containerID with
  | docker.StatsRequestError _ | docker.StatsDecodeError _ | docker.StatsDecodeEOF => True
  | docker.StatsDecoded _ => False
  end.

(** The record describes the entry [ctr] of the runtime's list: it has
    the first twelve bytes of its identifier, its first name without the
    leading slash, its image, state, status, creation time and labels. *)
Definition describes (ctr : docker.Summary) (record : docker.ContainerInfo) : Prop :=
  docker.ID record = String.substring 0 12 (docker.sum_ID ctr) ∧
  (∃ name names, docker.sum_Names ctr = name :: names ∧
                 docker.Name record = strings.TrimPrefix name "/") ∧
  docker.Image record = docker.sum_Image ctr ∧
  docker.State record = docker.sum_State ctr ∧
  docker.Status record = docker.sum_Status ctr ∧
  docker.NetIO record = "" ∧ docker.BlockIO record = "" ∧
  docker.CreatedAt record = docker.sum_Created ctr ∧
  docker.Labels record = docker.sum_Labels ctr.

(** The figures of a record: CPU percent, memory percent, memory usage
    and the two network counters. *)
Definition figures (record : docker.ContainerInfo) : float * float * string * Z * Z :=
  (docker.CPUPerc record, docker.MemPerc record, docker.MemUsage record,
   docker.NetRx record, docker.NetTx record).

(** The placeholders. *)
Definition placeholders : float * float * string * Z * Z :=
  (0%float, 0%float, "N/A", 0%Z, 0%Z).

(** The figures of a running container by the runtime's reply to the
    request for its statistics: the placeholders if the request fails or
    the body does not decode; zeros and the usage of zero bytes for an
    empty body; else what the response says. *)
Definition sampled (reply : docker.statsReply) : float * float * string * Z * Z :=
  match reply with
  | docker.StatsRequestError _ | docker.StatsDecodeError _ => placeholders
  | docker.StatsDecodeEOF => (0%float, 0%float, "0 B / 0 B", 0%Z, 0%Z)
  | docker.StatsDecoded v =>
      (docker.cpuPercent v, docker.memPercent v,
       docker.formatBytes (docker.MemoryStats_Usage v) +:+ " / "
       +:+ docker.formatBytes (docker.MemoryStats_Limit v),
       docker.netRx (docker.statsOf v), docker.netTx (docker.statsOf v))
  end.

(** A runtime that cannot be reached: every request fails. *)
Definition unreachable (c : docker.Client) : Prop :=
  (∀ options, ∃ err, docker.ContainerList c options = inl err) ∧
  (∀ containerID, ∃ err, docker.ContainerStats c containerID = docker.StatsRequestError err).

(** The effects that print a snapshot table. *)
Definition isSnapshot (e : main.effect) : bool :=
  match e with main.PrintSnapshot _ _ => true | _ => false end.

(** *** Notions of the further properties *)

(** The network interfaces of a statistics response. *)
Definition interfaces (v : docker.statsResponse) : list docker.networkStats :=
  (map_to_list (docker.Networks v)).*2.

(** The depth and the path that the parent links of a built tree give a
    node: a node named ["root"] ends the walk, as the root does. *)
Definition depthOf (n : model.TreeNode) : Z :=
  match model.Type_ n with
  | model.NodeTypeProject => 0
  | model.NodeTypeContainer =>
      if String.eqb (model.ParseProjectName (model.Name n)) "root" then 0 else 1
  end.

Definition pathOf (n : model.TreeNode) : string :=
  let project := model.ParseProjectName (model.Name n) in
  if String.eqb (model.Name n) "root" then ""
  else
    match model.Type_ n with
    | model.NodeTypeProject => model.Name n
    | model.NodeTypeContainer =>
        if String.eqb project "root" then model.Name n
        else project +:+ "/" +:+ model.Name n
    end.

(** Every container of a project has that project's name as its project name. *)
Definition grouped (gs : list project) : Prop :=
  Forall (λ g, Forall (λ c, model.ParseProjectName (docker.Name c) = p_name g) (p_containers g)) gs.

(** The projects named ["root"], which the flat view does not show, are expanded. *)
Definition rootsExpanded (gs : list project) : Prop :=
  Forall (λ g, String.eqb (p_name g) "root" = true → p_expanded g = true) gs.

(** No project is without containers. *)
Definition nonEmpty (gs : list project) : Prop :=
  Forall (λ g, p_containers g ≠ []) gs.

(** Container names as the runtime gives them: pairwise distinct, without
    ["/"], and with a project name that is neither empty nor ["root"]. *)
Definition plainNames (cs : list docker.ContainerInfo) : Prop :=
  NoDup (docker.Name <$> cs) ∧
  Forall (λ c, has_byte "/" (docker.Name c) = false ∧
               model.ParseProjectName (docker.Name c) ≠ "root" ∧
               model.ParseProjectName (docker.Name c) ≠ "") cs.

(** The paths of the nodes that the flat view shows of a project, and of
    all projects. *)
Definition projectPaths (g : project) : list string :=
  p_name g ::
  (if p_expanded g then (λ c, p_name g +:+ "/" +:+ docker.Name c) <$> p_containers g else []).

Definition shownPaths (gs : list project) : list string := concat (projectPaths <$> gs).

(** The part of a path before its first ["/"]. *)
Definition pathHead (p : string) : string :=
  match strings.Index p "/" with
  | Some i => strings.slice_to p i
  | None => p
  end.

(** What makes the paths of the projects differ. *)
Definition distinctNames (gs : list project) : Prop :=
  NoDup (p_name <$> gs) ∧
  Forall (λ g, has_byte "/" (p_name g) = false ∧ p_name g ≠ "" ∧
               NoDup (docker.Name <$> p_containers g)) gs.

(** The byte is a decimal digit. *)
Definition is_digit (a : ascii) : bool :=
  (48 <=? nat_of_ascii a) && (nat_of_ascii a <=? 57).

(** The code points: up to U+10FFFF, without the surrogate halves. *)
Definition validRune (r : Z) : Prop :=
  (0 ≤ r ≤ 0x10FFFF)%Z ∧ ¬ (0xD800 ≤ r ≤ 0xDFFF)%Z.

(** A string that does not start with a continuation byte. *)
Definition startsFresh (t : string) : Prop :=
  match t with
  | String a _ => utf8.continuation (utf8.byte_value a) = false
  | EmptyString => True
  end.

(** [result] is [s] fitted to [width] columns: [width] code points, which
    are those of [s] followed by spaces if [s] has no more than [width],
    and the first [width - 3] of [s] followed by three dots otherwise;
    there is no result only if [s] is longer than a width below 3. *)
Definition fitted (s : string) (width : Z) (result : option string) : Prop :=
  let n := Z.of_nat (length (runes_of_string s)) in
  match result with
  | Some r =>
      Z.of_nat (length (runes_of_string r)) = width ∧
      ((n ≤ width)%Z →
       (∃ pad, r = s +:+ pad) ∧
       runes_of_string r = runes_of_string s ++ replicate (Z.to_nat (width - n)) 32%Z) ∧
      ((width < n)%Z →
       runes_of_string r
       = take (Z.to_nat (width - 3)) (runes_of_string s) ++ [46; 46; 46]%Z)
  | None => (width < n)%Z ∧ (width < 3)%Z
  end.

(** The flags that a refresh saves of the projects [gs], and a project
    with the flag saved under its name, if there is one. *)
Definition saveFlag (expandedProjects : gmap string bool) (g : project) : gmap string bool :=
  if String.eqb (p_name g) "root" then expandedProjects
  else <[p_name g := p_expanded g]> expandedProjects.

Definition savedFlags (gs : list project) : gmap string bool := foldl saveFlag ∅ gs.

Definition restoreFlag (expandedProjects : gmap string bool) (g : project) : project :=
  match expandedProjects !! p_name g with
  | Some expanded => withExpanded expanded g
  | None => g
  end.

(** The tree of a model before its first refresh, or a tree of a layout. *)
Definition treeState (h : list model.TreeNode) (t : model.Tree) : Prop :=
  (h = [] ∧ model.Root t = None ∧ model.Flat t = []) ∨
  ∃ gs, treeOf gs h t ∧ nonEmpty gs ∧ rootsExpanded gs ∧ NoDup (p_name <$> gs).

(** The state of the tree view that [Update] keeps: the selection is an
    index of the flat view and is in the viewport. *)
Definition viewOk (m : ui.Model) : Prop :=
  ∃ t, ui.tree m = Some t ∧ treeState (ui.nodes m) t ∧ selectionOk t ∧
       (Z.of_nat (length (ui.nodes m)) < 2 ^ 63)%Z ∧
       is_int (ui.viewportTop m) ∧
       (model.Flat t ≠ [] →
        (0 ≤ ui.viewportTop m)%Z ∧
        (ui.viewportTop m ≤ model.Selected t < ui.viewportTop m + ui.visibleHeight m)%Z).

Definition modelOk (m : ui.FullModel) : Prop :=
  viewOk (ui.treeView m) ∧ (0 ≤ ui.menuSelected m < 2 ^ 63)%Z.

(** A message that the program can receive: the length of a Go slice is an [int]. *)
Definition validMsg (msg : ui.Msg) : Prop :=
  match msg with
  | ui.containersMsg containers => (Z.of_nat (length containers) < 2 ^ 62)%Z
  | _ => True
  end.

(** *** Example data *)

(** A running container of the given name. *)
Definition containerNamed (name : string) : docker.ContainerInfo :=
  {| docker.ID := "0123456789ab"; docker.Name := name; docker.Image := "image";
     docker.State := "running"; docker.Status := "Up 2 hours";
     docker.CPUPerc := 0; docker.MemPerc := 0; docker.MemUsage := "N/A";
     docker.NetRx := 0; docker.NetTx := 0; docker.NetIO := ""; docker.BlockIO := "";
     docker.CreatedAt := 0; docker.Labels := ∅ |}.

Definition exampleContainers : list docker.ContainerInfo :=
  containerNamed <$> ["shopapp_web_1"; "shopapp_db_1"; "standalone"].

(** The store and the tree that [BuildTree] makes of them. *)
Definition exampleStore : list model.TreeNode :=
  Eval vm_compute in
    match model.BuildTree exampleContainers with Some (h, _) => h | None => [] end.

Definition exampleTree : model.Tree :=
  {| model.Root := Some 0; model.Flat := [1; 2; 3; 4; 5]; model.Selected := 0 |}.

(** A model showing that tree in a terminal of seven lines: two lines
    remain for the tree. *)
Definition exampleModel : ui.Model :=
  {| ui.nodes := exampleStore; ui.tree := Some exampleTree;
     ui.width := 80; ui.height := 7; ui.viewportTop := 0 |}.

(** A statistics response with the given CPU counters. *)
Definition cpuCounters (total preTotal system preSystem onlineCPUs : Z) : docker.statsResponse :=
  {| docker.CPUStats_CPUUsage_TotalUsage := total;
     docker.CPUStats_SystemUsage := system;
     docker.CPUStats_OnlineCPUs := onlineCPUs;
     docker.PreCPUStats_CPUUsage_TotalUsage := preTotal;
     docker.PreCPUStats_SystemUsage := preSystem;
     docker.MemoryStats_Usage := 512 * 1024 * 1024;
     docker.MemoryStats_Limit := 2048 * 1024 * 1024;
     docker.Networks := {[ "eth0" := {| docker.RxBytes := 1000; docker.TxBytes := 2000 |} ]} |}.

(** A response in which the total CPU usage is below the previous one,
    as after the counters of a container were reset. *)
Definition counterReset : docker.statsResponse := cpuCounters 100 200 2000 1000 1.

(** A runtime whose every sample is that response. *)
Definition counterResetClient : docker.Client :=
  {| docker.ContainerList := λ _, inr [];
     docker.ContainerStats := λ _, docker.StatsDecoded counterReset |}.

(** A runtime entry of a container in the given state. *)
Definition summaryOf (id name state : string) : docker.Summary :=
  {| docker.sum_ID := id; docker.sum_Names := ["/" +:+ name]; docker.sum_Image := "image";
     docker.sum_State := state; docker.sum_Status := "Up 2 hours";
     docker.sum_Created := 1700000000; docker.sum_Labels := ∅ |}.

(** A runtime with one running container, whose every sample has an
    empty body. *)
Definition emptyBodyClient : docker.Client :=
  {| docker.ContainerList := λ _, inr [summaryOf "aaaaaaaaaaaaaaaa" "shopapp_web_1" "running"];
     docker.ContainerStats := λ _, docker.StatsDecodeEOF |}.

Definition exampleSummaries : list docker.Summary :=
  [ summaryOf "aaaaaaaaaaaaaaaa" "shopapp_web_1" "running";
    summaryOf "bbbbbbbbbbbbbbbb" "shopapp_db_1" "running";
    summaryOf "cccccccccccccccc" "standalone" "running" ].

(** A container that has exited: the runtime lists it on request of all
    containers only. *)
Definition exitedSummary : docker.Summary :=
  summaryOf "dddddddddddddddd" "shopapp_worker_1" "exited".

(** A runtime that cannot be reached: it fails to list its containers and
    to sample them. *)
Definition unlistableClient : docker.Client :=
  {| docker.ContainerList := λ _, inl "cannot list";
     docker.ContainerStats := λ _, docker.StatsRequestError "cannot sample" |}.

(** The program started with [-list] on a runtime that can be reached. *)
Definition listWorld (c : docker.Client) : main.World :=
  {| main.flags := {| main.flag_list := true; main.flag_l := false; main.flag_version := false |};
     main.NewClient := inr c;
     main.choices := [];
     main.Run := None |}.

(** The program started without flags. *)
Definition interactiveWorld (c : docker.Client) : main.World :=
  {| main.flags := {| main.flag_list := false; main.flag_l := false; main.flag_version := false |};
     main.NewClient := inr c;
     main.choices := [];
     main.Run := None |}.

(** A container that is paused: the runtime lists it among the running
    ones (as [docker ps] does), in the state ["paused"]. *)
Definition pausedSummary : docker.Summary :=
  summaryOf "eeeeeeeeeeeeeeee" "shopapp_cache_1" "paused".

(** A runtime with these three running containers and the exited one;
    sampling the second fails. *)
Definition exampleClient : docker.Client :=
  {| docker.ContainerList := λ options,
       inr (if docker.All options then exampleSummaries ++ [exitedSummary]
            else exampleSummaries);
     docker.ContainerStats := λ containerID,
       if String.eqb containerID "bbbbbbbbbbbbbbbb"
       then docker.StatsRequestError "connection reset"
       else docker.StatsDecoded (cpuCounters 240 200 1100 1000 2) |}.

(** The same runtime with the paused container as well. *)
Definition pausedClient : docker.Client :=
  {| docker.ContainerList := λ options,
       inr (if docker.All options then exampleSummaries ++ [pausedSummary; exitedSummary]
            else exampleSummaries ++ [pausedSummary]);
     docker.ContainerStats := docker.ContainerStats exampleClient |}.

(** The whole model showing the example tree, in the main view. *)
Definition exampleFull : ui.FullModel :=
  {| ui.treeView := exampleModel; ui.viewMode := ui.ViewModeMain; ui.menuItems := [];
     ui.menuSelected := 0; ui.logsContent := ""; ui.logsScroll := 0; ui.logsContainer := "";
     ui.err := None |}.

(** The same with the selection on the first container. *)
Definition exampleFullOnContainer : ui.FullModel :=
  ui.set_treeView (ui.set_tree (model.MoveDown exampleTree) exampleModel) exampleFull.

(** The example tree after its first project was collapsed, and a model
    showing it. *)
Definition collapsedStore : list model.TreeNode :=
  Eval vm_compute in
    match model.ToggleExpanded exampleStore exampleTree with Some (h, _) => h | None => [] end.

Definition collapsedTree : model.Tree :=
  {| model.Root := Some 0; model.Flat := [1; 4; 5]; model.Selected := 0 |}.

Definition collapsedFull : ui.FullModel :=
  {| ui.treeView :=
       {| ui.nodes := collapsedStore; ui.tree := Some collapsedTree;
          ui.width := 80; ui.height := 7; ui.viewportTop := 0 |};
     ui.viewMode := ui.ViewModeMain; ui.menuItems := [];
     ui.menuSelected := 0; ui.logsContent := ""; ui.logsScroll := 0; ui.logsContainer := "";
     ui.err := None |}.

(** ** Facts about the string functions *)

Lemma substring_0_app (pre post : string) :
  String.substring 0 (String.length pre) (pre +:+ post) = pre.
Proof.
  induction pre as [|a pre IH]; simpl.
  - by destruct post.
  - by rewrite IH.
Qed.

Lemma substring_0_all (s : string) : String.substring 0 (String.length s) s = s.
Proof. induction s as [|a s IH]; simpl; [done | by rewrite IH]. Qed.

Lemma Index_byte_absent (c : ascii) (s : string) :
  has_byte c s = false → strings.Index s (String c "") = None.
Proof.
  unfold strings.Index. induction s as [|b s IH]; simpl; [done|].
  destruct (Ascii.eqb_spec c b) as [->|Hne]; [done|]. intros Hs.
  destruct (ascii_dec c b) as [->|_]; [done|]. by rewrite IH.
Qed.

Lemma Index_byte_first (c : ascii) (pre post : string) :
  has_byte c pre = false →
  strings.Index (pre +:+ String c post) (String c "") = Some (String.length pre).
Proof.
  unfold strings.Index. induction pre as [|b pre IH]; simpl.
  - intros _. destruct (ascii_dec c c) as [_|Hne]; [|done]. by destruct post.
  - destruct (Ascii.eqb_spec c b) as [->|Hne]; [done|]. intros Hs.
    destruct (ascii_dec c b) as [->|_]; [done|]. by rewrite IH.
Qed.

Lemma has_byte_app (c : ascii) (s1 s2 : string) :
  has_byte c (s1 +:+ s2) = has_byte c s1 || has_byte c s2.
Proof.
  induction s1 as [|b s1 IH]; simpl; [done|]. by destruct (Ascii.eqb c b).
Qed.

(** ** The byte-wise order on strings *)

Lemma ascii_compare_refl (a : ascii) : Ascii.compare a a = Eq.
Proof. unfold Ascii.compare. apply N.compare_refl. Qed.

Lemma string_compare_refl (s : string) : String.compare s s = Eq.
Proof. induction s as [|a s IH]; simpl; [done|]. by rewrite ascii_compare_refl. Qed.

Lemma ascii_compare_trans (a b c : ascii) (o : comparison) :
  Ascii.compare a b = o → Ascii.compare b c = o → Ascii.compare a c = o.
Proof.
  unfold Ascii.compare. destruct o.
  - rewrite !N.compare_eq_iff. congruence.
  - rewrite !N.compare_lt_iff. lia.
  - rewrite !N.compare_gt_iff. lia.
Qed.

Lemma string_compare_lt_trans (s1 s2 s3 : string) :
  String.compare s1 s2 = Lt → String.compare s2 s3 = Lt → String.compare s1 s3 = Lt.
Proof.
  revert s2 s3. induction s1 as [|a s1 IH]; intros [|b s2] [|c s3]; simpl; try done.
  destruct (Ascii.compare a b) eqn:Hab; try done;
    destruct (Ascii.compare b c) eqn:Hbc; try done; intros H12 H23.
  - rewrite (ascii_compare_trans a b c Eq Hab Hbc). eauto.
  - apply Ascii.compare_eq_iff in Hab as ->. by rewrite Hbc.
  - apply Ascii.compare_eq_iff in Hbc as <-. by rewrite Hab.
  - by rewrite (ascii_compare_trans a b c Lt Hab Hbc).
Qed.

#[global] Instance string_lt_trans : Transitive string_lt.
Proof.
  intros s1 s2 s3. unfold string_lt, String.ltb.
  destruct (String.compare s1 s2) eqn:H12; try done.
  destruct (String.compare s2 s3) eqn:H23; try done.
  by rewrite (string_compare_lt_trans _ _ _ H12 H23).
Qed.

Lemma string_le_lt_eq (a b : string) : string_le a b ↔ string_lt a b ∨ a = b.
Proof.
  unfold string_le, string_lt, String.leb, String.ltb. split.
  - destruct (String.compare a b) eqn:Hc; try done; [|by left].
    right. by apply String.compare_eq_iff.
  - intros [H| ->]; [by destruct (String.compare a b)|].
    by rewrite string_compare_refl.
Qed.

#[global] Instance string_le_trans : Transitive string_le.
Proof.
  intros a b c. rewrite !string_le_lt_eq. intros [Hab| ->] [Hbc| ->]; eauto.
  left. by etrans.
Qed.

#[global] Instance string_le_total : Total string_le.
Proof. intros a b. apply String.leb_total. Qed.

#[global] Instance string_le_refl : Reflexive string_le.
Proof. intros a. apply string_le_lt_eq. by right. Qed.

Lemma string_lt_irrefl (a : string) : ¬ string_lt a a.
Proof. unfold string_lt, String.ltb. by rewrite string_compare_refl. Qed.

(** ** Sorting *)

Lemma sort_Strings_sorted (x : list string) : StronglySorted string_le (sort.Strings x).
Proof. apply Sorted_StronglySorted; [apply _|]. apply (Sorted_merge_sort string_le). Qed.

Lemma sort_Strings_perm (x : list string) : sort.Strings x ≡ₚ x.
Proof. apply (merge_sort_Permutation string_le). Qed.

(** Distinct strings in ascending order are in strictly ascending order. *)
Lemma sorted_NoDup_strict (x : list string) :
  NoDup x → StronglySorted string_le x → StronglySorted string_lt x.
Proof.
  induction 2 as [|a l Hl IH Ha]; [constructor|].
  apply NoDup_cons in H as [Hnotin Hnd]. constructor; [by apply IH|].
  apply Forall_forall. intros b Hb.
  rewrite Forall_forall in Ha. destruct (proj1 (string_le_lt_eq a b) (Ha b Hb)) as [? | ->]; [done|].
  by destruct Hnotin.
Qed.

Section sort_Slice.
Context {A : Type} (key : A → string).

Let le_key (a b : A) : Prop := string_le (key a) (key b).

#[local] Instance le_key_total : Total le_key.
Proof. intros a b. apply string_le_total. Qed.

#[local] Instance le_key_trans : Transitive le_key.
Proof. intros a b c. unfold le_key. apply string_le_trans. Qed.

Lemma sort_Slice_perm (x : list A) : sort.Slice key x ≡ₚ x.
Proof. apply (merge_sort_Permutation le_key). Qed.

Lemma sort_Slice_sorted (x : list A) : StronglySorted string_le (key <$> sort.Slice key x).
Proof.
  assert (StronglySorted le_key (sort.Slice key x)) as Hs.
  { apply Sorted_StronglySorted; [apply _|]. apply (Sorted_merge_sort le_key). }
  induction Hs as [|a l Hl IH Ha]; simpl; constructor; [done|].
  by apply Forall_fmap.
Qed.
End sort_Slice.

(** ** The layout of a tree in the store *)

Lemma length_projectNodes (base : nat) (g : project) :
  length (projectNodes base g) = projectSize g.
Proof. unfold projectNodes, projectSize. simpl. by rewrite length_fmap. Qed.

Lemma bodySize_nil : bodySize [] = 0.
Proof. done. Qed.

Lemma bodySize_cons (g : project) (gs : list project) :
  bodySize (g :: gs) = projectSize g + bodySize gs.
Proof. done. Qed.

Lemma bodySize_app (gs1 gs2 : list project) :
  bodySize (gs1 ++ gs2) = bodySize gs1 + bodySize gs2.
Proof. apply sum_list_with_app. Qed.

Lemma length_bodyNodes (base : nat) (gs : list project) :
  length (bodyNodes base gs) = bodySize gs.
Proof.
  revert base. induction gs as [|g gs IH]; intros base; [done|].
  cbn [bodyNodes]. by rewrite length_app, length_projectNodes, IH, bodySize_cons.
Qed.

Lemma length_layout (gs : list project) : length (layout gs) = S (bodySize gs).
Proof. unfold layout. cbn [length]. by rewrite length_bodyNodes. Qed.

Lemma bodyNodes_app (base : nat) (gs1 gs2 : list project) :
  bodyNodes base (gs1 ++ gs2) = bodyNodes base gs1 ++ bodyNodes (base + bodySize gs1) gs2.
Proof.
  revert base. induction gs1 as [|g gs1 IH]; intros base.
  - by rewrite bodySize_nil, Nat.add_0_r.
  - cbn [bodyNodes app]. rewrite IH, <- !app_assoc, bodySize_cons.
    by rewrite Nat.add_assoc.
Qed.

Lemma projectAddrs_app (base : nat) (gs1 gs2 : list project) :
  projectAddrs base (gs1 ++ gs2) = projectAddrs base gs1 ++ projectAddrs (base + bodySize gs1) gs2.
Proof.
  revert base. induction gs1 as [|g gs1 IH]; intros base.
  - by rewrite bodySize_nil, Nat.add_0_r.
  - cbn [projectAddrs app]. by rewrite IH, bodySize_cons, Nat.add_assoc.
Qed.

Lemma flatOf_app (base : nat) (gs1 gs2 : list project) :
  flatOf base (gs1 ++ gs2) = flatOf base gs1 ++ flatOf (base + bodySize gs1) gs2.
Proof.
  revert base. induction gs1 as [|g gs1 IH]; intros base.
  - by rewrite bodySize_nil, Nat.add_0_r.
  - cbn [flatOf app]. by rewrite IH, <- !app_assoc, bodySize_cons, Nat.add_assoc.
Qed.

Lemma length_projectAddrs (base : nat) (gs : list project) :
  length (projectAddrs base gs) = length gs.
Proof. revert base. induction gs as [|g gs IH]; intros base; simpl; [done|]. by rewrite IH. Qed.

Lemma holds_layout (gs : list project) : holds (layout gs) 1 gs.
Proof. exists [rootNode (projectAddrs 1 gs)], []. by rewrite app_nil_r. Qed.

Lemma holds_cons (h : list model.TreeNode) (base : nat) (g : project) (gs : list project) :
  holds h base (g :: gs) →
  holds h (base + projectSize g) gs ∧
  h !! base = Some (projectNode base g) ∧
  ∀ j c, p_containers g !! j = Some c → h !! (S base + j) = Some (containerNode base c).
Proof.
  intros (h1 & h2 & -> & Hlen). split_and!.
  - exists (h1 ++ projectNodes base g), h2. split.
    + simpl. by rewrite <- !app_assoc.
    + rewrite length_app, length_projectNodes. lia.
  - simpl. by apply list_lookup_middle.
  - intros j c Hc. rewrite lookup_app_r by lia.
    replace (S base + j - length h1) with (S j) by lia. simpl.
    rewrite <- app_assoc, lookup_app_l by (rewrite length_fmap; by eapply lookup_lt_Some).
    by rewrite list_lookup_fmap, Hc.
Qed.

Lemma holds_app_r (h : list model.TreeNode) (base : nat) (gs1 gs2 : list project) :
  holds h base (gs1 ++ gs2) → holds h (base + bodySize gs1) gs2.
Proof.
  intros (h1 & h2 & -> & Hlen). exists (h1 ++ bodyNodes base gs1), h2. split.
  - by rewrite bodyNodes_app, <- !app_assoc.
  - rewrite length_app, length_bodyNodes. lia.
Qed.

(** ** The flattened view of a layout *)

Lemma flattenNode_S (fuel : nat) (h : list model.TreeNode) (d : Z) (flat : list nat) (node : nat) :
  model.flattenNode (S fuel) h d flat node =
  match h !! node with
  | None => None
  | Some n =>
      let flat :=
        if negb (bool_decide (model.Type_ n = model.NodeTypeProject))
           || negb (String.eqb (model.Name n) "root")
        then flat ++ [node] else flat in
      if model.Expanded n
      then model.for_each (model.flattenNode fuel h (wrap_int (d + 1))) flat (model.Children n)
      else Some flat
  end.
Proof. done. Qed.

Lemma flattenNode_container (fuel : nat) (h : list model.TreeNode) (d : Z) (flat : list nat)
    (node parent : nat) (c : docker.ContainerInfo) :
  h !! node = Some (containerNode parent c) →
  model.flattenNode (S fuel) h d flat node = Some (flat ++ [node]).
Proof. intros Hn. by rewrite flattenNode_S, Hn. Qed.

Lemma flatten_containers (fuel : nat) (h : list model.TreeNode) (d : Z) (parent : nat)
    (cs : list docker.ContainerInfo) (start : nat) (flat : list nat) :
  (∀ j c, cs !! j = Some c → h !! (start + j) = Some (containerNode parent c)) →
  model.for_each (model.flattenNode (S fuel) h d) flat (seq start (length cs))
  = Some (flat ++ seq start (length cs)).
Proof.
  revert start flat. induction cs as [|c cs IH]; intros start flat Hcs.
  - simpl. by rewrite app_nil_r.
  - cbn [length seq model.for_each].
    rewrite (flattenNode_container fuel h d flat start parent c)
      by (rewrite <- (Nat.add_0_r start); by apply Hcs).
    rewrite IH.
    + by rewrite <- app_assoc.
    + intros j c' Hc'. replace (S start + j) with (start + S j) by lia. by apply Hcs.
Qed.

Lemma flattenNode_project (fuel : nat) (h : list model.TreeNode) (d : Z) (flat : list nat)
    (base : nat) (g : project) (gs : list project) :
  holds h base (g :: gs) →
  model.flattenNode (S (S fuel)) h d flat base = Some (flat ++ shownOf base g).
Proof.
  intros (_ & Hp & Hcs)%holds_cons.
  rewrite flattenNode_S, Hp.
  cbn [projectNode model.Type_ model.Name model.Expanded model.Children].
  rewrite bool_decide_eq_true_2 by done. cbn [negb orb]. unfold shownOf.
  destruct (p_expanded g).
  - destruct (String.eqb (p_name g) "root"); cbn [negb].
    + by rewrite (flatten_containers fuel h _ base (p_containers g)).
    + rewrite (flatten_containers fuel h _ base (p_containers g)) by done.
      by rewrite <- app_assoc.
  - destruct (String.eqb (p_name g) "root"); cbn [negb]; by rewrite ?app_nil_r.
Qed.

Lemma flatten_projects (fuel : nat) (h : list model.TreeNode) (d : Z) (base : nat)
    (gs : list project) (flat : list nat) :
  holds h base gs →
  model.for_each (model.flattenNode (S (S fuel)) h d) flat (projectAddrs base gs)
  = Some (flat ++ flatOf base gs).
Proof.
  revert base flat. induction gs as [|g gs IH]; intros base flat Hh.
  - simpl. by rewrite app_nil_r.
  - cbn [projectAddrs model.for_each flatOf].
    rewrite (flattenNode_project fuel h d flat base g gs Hh).
    apply holds_cons in Hh as (Hh & _ & _). rewrite (IH _ _ Hh).
    by rewrite <- app_assoc.
Qed.

Lemma UpdateFlatView_layout (gs : list project) (t : model.Tree) :
  model.Root t = Some 0 →
  model.UpdateFlatView (layout gs) t = Some (model.set_Flat (flatOf 1 gs) t).
Proof.
  intros Hroot. unfold model.UpdateFlatView. rewrite Hroot, length_layout.
  destruct gs as [|g gs]; [done|].
  assert (∃ fuel, bodySize (g :: gs) = S fuel) as [fuel ->].
  { unfold bodySize, projectSize. simpl. eauto. }
  rewrite flattenNode_S. unfold layout at 1. cbn [lookup list_lookup rootNode
    model.Type_ model.Name model.Expanded model.Children]. cbn [String.eqb Ascii.eqb Bool.eqb negb orb
    bool_decide decide_rel].
  rewrite bool_decide_eq_true_2 by done. cbn [negb orb].
  by rewrite (flatten_projects fuel _ _ 1 (g :: gs) []) by apply holds_layout.
Qed.

(** ** What [BuildTree] allocates *)

Lemma addContainer_project (h : list model.TreeNode) (name : string) (e : bool)
    (done_ : list docker.ContainerInfo) (c : docker.ContainerInfo) :
  model.addContainer (length h)
    (h ++ projectNodes (length h) {| p_name := name; p_expanded := e; p_containers := done_ |}) c
  = h ++ projectNodes (length h)
           {| p_name := name; p_expanded := e; p_containers := done_ ++ [c] |}.
Proof.
  unfold model.addContainer, model.appendChild.
  rewrite <- app_assoc, alter_app_r_alt by lia. f_equal.
  rewrite Nat.sub_diag, length_app, length_projectNodes.
  unfold projectNodes, projectNode, projectSize, model.set_Children. simpl.
  rewrite fmap_app, length_app, seq_app. simpl.
  do 4 f_equal. lia.
Qed.

Lemma addContainers_project (h : list model.TreeNode) (name : string) (e : bool)
    (cs done_ : list docker.ContainerInfo) :
  foldl (model.addContainer (length h))
    (h ++ projectNodes (length h) {| p_name := name; p_expanded := e; p_containers := done_ |}) cs
  = h ++ projectNodes (length h)
           {| p_name := name; p_expanded := e; p_containers := done_ ++ cs |}.
Proof.
  revert done_. induction cs as [|c cs IH]; intros done_; simpl.
  - by rewrite app_nil_r.
  - by rewrite addContainer_project, IH, <- app_assoc.
Qed.

Lemma layout_snoc (gs : list project) (g : project) :
  layout (gs ++ [g])
  = rootNode (projectAddrs 1 gs ++ [length (layout gs)])
    :: bodyNodes 1 gs ++ projectNodes (length (layout gs)) g.
Proof.
  unfold layout. rewrite projectAddrs_app, bodyNodes_app. simpl.
  by rewrite length_bodyNodes, app_nil_r.
Qed.

Lemma addProject_layout (projects : gmap string (list docker.ContainerInfo))
    (gs : list project) (projectName : string) :
  model.addProject projects 0 (layout gs) projectName
  = layout (gs ++ [ {| p_name := projectName; p_expanded := true;
                       p_containers := sort.Slice docker.Name (default [] (projects !! projectName)) |} ]).
Proof.
  unfold model.addProject.
  change (layout gs ++ [_])
    with (layout gs ++ projectNodes (length (layout gs))
            {| p_name := projectName; p_expanded := true; p_containers := [] |}).
  rewrite addContainers_project, layout_snoc. by unfold layout.
Qed.

Lemma addProjects_layout (projects : gmap string (list docker.ContainerInfo))
    (gs : list project) (projectNames : list string) :
  foldl (model.addProject projects 0) (layout gs) projectNames
  = layout (gs ++ ((λ projectName,
                      {| p_name := projectName; p_expanded := true;
                         p_containers := sort.Slice docker.Name (default [] (projects !! projectName)) |})
                   <$> projectNames)).
Proof.
  revert gs. induction projectNames as [|n ns IH]; intros gs; simpl.
  - by rewrite app_nil_r.
  - by rewrite addProject_layout, IH, <- app_assoc.
Qed.

Lemma BuildTree_layout (containers : list docker.ContainerInfo) :
  model.BuildTree containers
  = Some (layout (groupsOf containers),
          {| model.Root := Some 0; model.Flat := flatOf 1 (groupsOf containers);
             model.Selected := 0 |}).
Proof.
  unfold model.BuildTree.
  change [ {| model.Type_ := model.NodeTypeProject; model.Name := "root";
              model.Container := None; model.Children := []; model.Expanded := true;
              model.Parent := None |} ] with (layout []).
  rewrite addProjects_layout, UpdateFlatView_layout by done. done.
Qed.

(** ** Nodes and addresses of a layout *)

Lemma flatOf_ge (base : nat) (gs : list project) (p : nat) :
  p ∈ flatOf base gs → base ≤ p.
Proof.
  revert base. induction gs as [|g gs IH]; intros base; cbn [flatOf].
  - by intros ?%elem_of_nil.
  - rewrite elem_of_app. intros [Hp|Hp].
    + unfold shownOf in Hp. rewrite elem_of_app in Hp. destruct Hp as [Hp|Hp].
      * destruct (String.eqb _ _); [by apply elem_of_nil in Hp|].
        apply list_elem_of_singleton in Hp. lia.
      * destruct (p_expanded g); [|by apply elem_of_nil in Hp].
        apply elem_of_seq in Hp. lia.
    + apply IH in Hp. lia.
Qed.

Lemma flatOf_lt (base : nat) (gs : list project) (p : nat) :
  p ∈ flatOf base gs → p < base + bodySize gs.
Proof.
  revert base. induction gs as [|g gs IH]; intros base; cbn [flatOf].
  - by intros ?%elem_of_nil.
  - rewrite elem_of_app, bodySize_cons. unfold projectSize at 2. intros [Hp|Hp].
    + unfold shownOf in Hp. rewrite elem_of_app in Hp. destruct Hp as [Hp|Hp].
      * destruct (String.eqb _ _); [by apply elem_of_nil in Hp|].
        apply list_elem_of_singleton in Hp. lia.
      * destruct (p_expanded g); [|by apply elem_of_nil in Hp].
        apply elem_of_seq in Hp. lia.
    + apply IH in Hp. unfold projectSize in Hp. lia.
Qed.

Lemma body_lookup_project (base : nat) (gs : list project) (k : nat) (n : model.TreeNode) :
  bodyNodes base gs !! k = Some n →
  model.Type_ n = model.NodeTypeProject →
  ∃ gs1 g gs2, gs = gs1 ++ g :: gs2 ∧ k = bodySize gs1 ∧ n = projectNode (base + k) g.
Proof.
  revert base k. induction gs as [|g gs IH]; intros base k; cbn [bodyNodes]; [done|].
  destruct k as [|k].
  - intros [= <-] _. exists [], g, gs. by rewrite bodySize_nil, Nat.add_0_r.
  - unfold projectNodes. cbn [app]. rewrite lookup_cons.
    intros Hk Hty. apply lookup_app_Some in Hk as [Hk|[Hlen Hk]].
    + by apply list_lookup_fmap_Some in Hk as (c & -> & _).
    + rewrite length_fmap in Hlen, Hk.
      destruct (IH _ _ Hk Hty) as (gs1 & g' & gs2 & -> & Hk' & ->).
      exists (g :: gs1), g', gs2. rewrite bodySize_cons. unfold projectSize.
      split_and!; [done|lia|f_equal; lia].
Qed.

Lemma insert_cons_S {A} (k : nat) (x a : A) (l : list A) :
  <[S k := x]> (a :: l) = a :: <[k := x]> l.
Proof. done. Qed.

(** Replacing the node of a project by one with another expansion flag. *)
Lemma layout_set_expanded (gs1 gs2 : list project) (g : project) (e : bool) :
  <[S (bodySize gs1) := model.set_Expanded e (projectNode (S (bodySize gs1)) g)]>
    (layout (gs1 ++ g :: gs2))
  = layout (gs1 ++ withExpanded e g :: gs2).
Proof.
  unfold layout. rewrite insert_cons_S. f_equal.
  - rewrite !projectAddrs_app. done.
  - rewrite !bodyNodes_app. cbn [bodyNodes].
    rewrite insert_app_r_alt by (rewrite length_bodyNodes; lia).
    rewrite length_bodyNodes, Nat.sub_diag. done.
Qed.

Lemma flatOf_split (base : nat) (gs1 gs2 : list project) (g : project) :
  flatOf base (gs1 ++ g :: gs2)
  = flatOf base gs1 ++ shownOf (base + bodySize gs1) g
    ++ flatOf (base + bodySize gs1 + projectSize g) gs2.
Proof. by rewrite flatOf_app. Qed.

(** The node selected in a tree of layout [gs], if it is a project. *)
Lemma selected_project (gs : list project) (h : list model.TreeNode) (t : model.Tree)
    (node : nat) (n : model.TreeNode) :
  treeOf gs h t →
  model.GetSelected t = Some node →
  h !! node = Some n →
  model.Type_ n = model.NodeTypeProject →
  ∃ gs1 g gs2, gs = gs1 ++ g :: gs2 ∧ node = S (bodySize gs1) ∧ n = projectNode node g
               ∧ String.eqb (p_name g) "root" = false.
Proof.
  intros (-> & Hroot & Hflat) Hsel Hn Hty.
  unfold model.GetSelected in Hsel.
  destruct (_ || _); [done|]. rewrite Hflat in Hsel.
  apply list_elem_of_lookup_2 in Hsel as Hin. pose proof (flatOf_ge _ _ _ Hin) as Hge.
  destruct node as [|k]; [lia|]. unfold layout in Hn. rewrite lookup_cons in Hn.
  destruct (body_lookup_project _ _ _ _ Hn Hty) as (gs1 & g & gs2 & -> & -> & ->).
  exists gs1, g, gs2. split_and!; try done.
  rewrite flatOf_split in Hin. rewrite !elem_of_app in Hin.
  destruct Hin as [Hin|[Hin|Hin]].
  - apply flatOf_lt in Hin. lia.
  - unfold shownOf in Hin. rewrite elem_of_app in Hin. destruct Hin as [Hin|Hin].
    + by destruct (String.eqb _ _); [apply elem_of_nil in Hin|].
    + destruct (p_expanded g); [|by apply elem_of_nil in Hin].
      apply elem_of_seq in Hin. lia.
  - apply flatOf_ge in Hin. unfold projectSize in Hin. lia.
Qed.

(** ** [ToggleExpanded] on a layout *)

Lemma flat_lookup_is_Some (gs : list project) (node : nat) :
  node ∈ flatOf 1 gs → is_Some (layout gs !! node).
Proof.
  intros Hin%flatOf_lt. apply lookup_lt_is_Some. rewrite length_layout. lia.
Qed.

Lemma GetSelected_elem (t : model.Tree) (node : nat) :
  model.GetSelected t = Some node →
  model.Flat t !! Z.to_nat (model.Selected t) = Some node ∧
  (0 ≤ model.Selected t < model.lenFlat t)%Z.
Proof.
  unfold model.GetSelected.
  destruct (_ <? 0)%Z eqn:H0; [done|]. destruct (_ <=? _)%Z eqn:H1; [done|]. simpl.
  intros Hsel. split; [done|]. lia.
Qed.

Lemma layout_lookup_project (gs1 gs2 : list project) (g : project) :
  layout (gs1 ++ g :: gs2) !! S (bodySize gs1) = Some (projectNode (S (bodySize gs1)) g).
Proof.
  pose proof (holds_layout (gs1 ++ g :: gs2)) as Hh.
  apply holds_app_r in Hh. by apply holds_cons in Hh as (_ & Hp & _).
Qed.

Lemma ToggleExpanded_project (gs1 gs2 : list project) (g : project) (t : model.Tree) :
  model.Root t = Some 0 →
  model.GetSelected t = Some (S (bodySize gs1)) →
  model.ToggleExpanded (layout (gs1 ++ g :: gs2)) t
  = Some (layout (gs1 ++ withExpanded (negb (p_expanded g)) g :: gs2),
          model.set_Flat (flatOf 1 (gs1 ++ withExpanded (negb (p_expanded g)) g :: gs2)) t).
Proof.
  intros Hroot Hsel. unfold model.ToggleExpanded.
  rewrite Hsel, layout_lookup_project, bool_decide_eq_true_2 by done.
  change (model.Expanded (projectNode (S (bodySize gs1)) g)) with (p_expanded g).
  rewrite (layout_set_expanded gs1 gs2 g (negb (p_expanded g))).
  by rewrite UpdateFlatView_layout.
Qed.

(** Toggling a selected project replaces its flag; anything else is left
    as it is. *)
Lemma ToggleExpanded_layout (gs : list project) (h : list model.TreeNode) (t : model.Tree) :
  treeOf gs h t →
  (∃ gs1 g gs2,
      gs = gs1 ++ g :: gs2 ∧
      model.GetSelected t = Some (S (bodySize gs1)) ∧
      String.eqb (p_name g) "root" = false ∧
      model.ToggleExpanded h t
      = Some (layout (gs1 ++ withExpanded (negb (p_expanded g)) g :: gs2),
              model.set_Flat (flatOf 1 (gs1 ++ withExpanded (negb (p_expanded g)) g :: gs2)) t))
  ∨ ((model.GetSelected t = None ∨
      ∃ node n, model.GetSelected t = Some node ∧ h !! node = Some n ∧
                model.Type_ n = model.NodeTypeContainer)
     ∧ model.ToggleExpanded h t = Some (h, t)).
Proof.
  intros Ht. pose proof Ht as (Hh & Hroot & Hflat).
  destruct (model.GetSelected t) as [node|] eqn:Hsel.
  2: { right. unfold model.ToggleExpanded. rewrite Hsel. eauto. }
  assert (is_Some (h !! node)) as [n Hn].
  { rewrite Hh. apply flat_lookup_is_Some. rewrite <- Hflat.
    apply GetSelected_elem in Hsel as [Hsel _]. by eapply list_elem_of_lookup_2. }
  destruct (decide (model.Type_ n = model.NodeTypeProject)) as [Hty|Hty].
  - left. destruct (selected_project gs h t node n Ht Hsel Hn Hty)
      as (gs1 & g & gs2 & -> & -> & -> & Hname).
    exists gs1, g, gs2. split_and!; try done.
    rewrite Hh. by apply ToggleExpanded_project.
  - right. split.
    + right. exists node, n. split_and!; try done. by destruct (model.Type_ n).
    + unfold model.ToggleExpanded. by rewrite Hsel, Hn, bool_decide_eq_false_2.
Qed.

Lemma sameProjects_toggle (gs1 gs2 : list project) (g : project) (e : bool) :
  sameProjects (gs1 ++ withExpanded e g :: gs2) (gs1 ++ g :: gs2).
Proof. unfold sameProjects. by rewrite !fmap_app, !fmap_cons. Qed.

(** ** Machine integers *)

Lemma wrap_int_id (z : Z) : is_int z → wrap_int z = z.
Proof.
  unfold is_int, wrap_int. intros Hz.
  rewrite Z.mod_small; lia.
Qed.

Lemma wrap_int_is_int (z : Z) : is_int (wrap_int z).
Proof.
  unfold is_int, wrap_int.
  pose proof (Z.mod_pos_bound (z + 2 ^ 63) (2 ^ 64)). lia.
Qed.

(** From [-2^63] on, wrapping does not increase a number. *)
Lemma wrap_int_le (z : Z) : (- 2 ^ 63 ≤ z)%Z → (wrap_int z ≤ z)%Z.
Proof.
  unfold wrap_int. intros Hz.
  pose proof (Z.mod_le (z + 2 ^ 63) (2 ^ 64)). lia.
Qed.

(** ** The selection under the calls *)

Lemma MoveUp_Selected (t : model.Tree) :
  (0 ≤ model.Selected t < 2 ^ 63)%Z →
  model.Selected (model.MoveUp t) = Z.max 0 (model.Selected t - 1).
Proof.
  intros Hsel. unfold model.MoveUp. destruct (0 <? _)%Z eqn:H0.
  - cbn [model.set_Selected model.Selected]. rewrite wrap_int_id by (unfold is_int; lia). lia.
  - lia.
Qed.

Lemma MoveDown_Selected_le (t : model.Tree) :
  (0 ≤ model.Selected t < 2 ^ 63)%Z →
  (model.Selected (model.MoveDown t) = model.Selected t ∨
   model.Selected (model.MoveDown t) = model.Selected t + 1 ∧
   model.Selected t + 1 < model.lenFlat t ∧ model.Selected t + 1 < 2 ^ 63)%Z.
Proof.
  intros Hsel. unfold model.MoveDown. destruct (_ <? _)%Z eqn:H0; [|by left].
  right. cbn [model.set_Selected model.Selected].
  pose proof (wrap_int_le (model.lenFlat t - 1)) as Hle.
  pose proof (wrap_int_is_int (model.lenFlat t - 1)) as Hint. unfold is_int in Hint.
  unfold model.lenFlat in *.
  rewrite wrap_int_id by (unfold is_int; lia). lia.
Qed.

Lemma MoveDown_Selected (t : model.Tree) :
  (0 ≤ model.Selected t < model.lenFlat t)%Z → is_int (model.lenFlat t) →
  model.Selected (model.MoveDown t) = Z.min (model.lenFlat t - 1) (model.Selected t + 1).
Proof.
  intros Hsel Hlen. unfold model.MoveDown, is_int in *.
  rewrite (wrap_int_id (model.lenFlat t - 1)) by (unfold is_int; lia).
  destruct (_ <? _)%Z eqn:H0.
  - cbn [model.set_Selected model.Selected]. rewrite wrap_int_id by (unfold is_int; lia). lia.
  - lia.
Qed.

Lemma MoveUp_selectionOk (t : model.Tree) : selectionOk t → selectionOk (model.MoveUp t).
Proof.
  intros [Hsel Hlen]. unfold selectionOk. rewrite (MoveUp_Selected t Hsel).
  replace (model.lenFlat (model.MoveUp t)) with (model.lenFlat t)
    by (unfold model.MoveUp; by destruct (0 <? _)%Z).
  lia.
Qed.

Lemma MoveDown_selectionOk (t : model.Tree) : selectionOk t → selectionOk (model.MoveDown t).
Proof.
  intros [Hsel Hlen]. unfold selectionOk.
  replace (model.lenFlat (model.MoveDown t)) with (model.lenFlat t)
    by (unfold model.MoveDown; by destruct (_ <? _)%Z).
  destruct (MoveDown_Selected_le t Hsel) as [->|(-> & ? & ?)]; lia.
Qed.

(** ** The flat view has no repetition *)

Lemma shownOf_bounds (base : nat) (g : project) (p : nat) :
  p ∈ shownOf base g → base ≤ p < base + projectSize g.
Proof.
  unfold shownOf, projectSize. rewrite elem_of_app. intros [Hp|Hp].
  - destruct (String.eqb _ _); [by apply elem_of_nil in Hp|].
    apply list_elem_of_singleton in Hp. lia.
  - destruct (p_expanded g); [|by apply elem_of_nil in Hp].
    apply elem_of_seq in Hp. lia.
Qed.

Lemma shownOf_NoDup (base : nat) (g : project) : NoDup (shownOf base g).
Proof.
  unfold shownOf. apply NoDup_app. split_and!.
  - destruct (String.eqb _ _); [apply NoDup_nil_2|apply NoDup_singleton].
  - intros p Hp Hp'. destruct (String.eqb _ _); [by apply elem_of_nil in Hp|].
    apply list_elem_of_singleton in Hp as ->.
    destruct (p_expanded g); [|by apply elem_of_nil in Hp'].
    apply elem_of_seq in Hp'. lia.
  - destruct (p_expanded g); [apply NoDup_seq|apply NoDup_nil_2].
Qed.

Lemma flatOf_NoDup (base : nat) (gs : list project) : NoDup (flatOf base gs).
Proof.
  revert base. induction gs as [|g gs IH]; intros base; cbn [flatOf]; [apply NoDup_nil_2|].
  apply NoDup_app. split_and!; [apply shownOf_NoDup| |apply IH].
  intros p Hp%shownOf_bounds Hp'%flatOf_ge. lia.
Qed.

(** A selected project stands right after the entries of the projects
    before it. *)
Lemma selected_project_index (gs1 gs2 : list project) (g : project) (t : model.Tree) :
  model.Flat t = flatOf 1 (gs1 ++ g :: gs2) →
  String.eqb (p_name g) "root" = false →
  model.GetSelected t = Some (S (bodySize gs1)) →
  model.Selected t = Z.of_nat (length (flatOf 1 gs1)).
Proof.
  intros Hflat Hname [Hsel Hrange]%GetSelected_elem.
  assert (model.Flat t !! length (flatOf 1 gs1) = Some (S (bodySize gs1))) as Hpos.
  { rewrite Hflat, flatOf_split. unfold shownOf. rewrite Hname. cbn [app].
    by apply list_lookup_middle. }
  assert (NoDup (model.Flat t)) as Hnd by (rewrite Hflat; apply flatOf_NoDup).
  pose proof (NoDup_lookup _ _ _ _ Hnd Hsel Hpos). lia.
Qed.

Lemma GetSelected_at (t : model.Tree) (pre post : list nat) (node : nat) :
  model.Flat t = pre ++ node :: post →
  model.Selected t = Z.of_nat (length pre) →
  model.GetSelected t = Some node.
Proof.
  intros Hflat Hsel. unfold model.GetSelected, model.lenFlat. rewrite Hflat, Hsel, length_app.
  cbn [length]. rewrite Nat2Z.id.
  destruct (_ <? 0)%Z eqn:H0; [lia|]. destruct (_ <=? _)%Z eqn:H1; [apply Z.leb_le in H1; lia|]. simpl.
  by apply list_lookup_middle.
Qed.

Lemma flatOf_project (gs1 gs2 : list project) (g : project) :
  String.eqb (p_name g) "root" = false →
  flatOf 1 (gs1 ++ g :: gs2)
  = flatOf 1 gs1
    ++ S (bodySize gs1)
       :: (if p_expanded g then seq (S (S (bodySize gs1))) (length (p_containers g)) else [])
    ++ flatOf (S (bodySize gs1) + projectSize g) gs2.
Proof. intros Hname. rewrite flatOf_split. unfold shownOf. by rewrite Hname. Qed.

(** ** The trees that the calls make *)

Lemma treeFrom_BuildTree (containers : list docker.ContainerInfo) :
  ∃ h t, model.BuildTree containers = Some (h, t) ∧ treeFrom containers h t ∧
         model.Selected t = 0%Z.
Proof.
  eexists _, _. split; [apply BuildTree_layout|]. split; [|done].
  exists (groupsOf containers). split_and!; try done.
  unfold selectionOk. cbn [model.Selected]. lia.
Qed.

Lemma treeFrom_step (containers : list docker.ContainerInfo)
    (h : list model.TreeNode) (t : model.Tree) (c : treeCall) :
  treeFrom containers h t →
  ∃ h' t', treeStep (h, t) c = Some (h', t') ∧ treeFrom containers h' t'.
Proof.
  intros (gs & Ht & Hsame & Hsel). destruct c; cbn [treeStep fst snd].
  - eexists _, _. split; [done|]. exists gs. split_and!; try done.
    + destruct Ht as (? & ? & ?). unfold model.MoveUp. by destruct (0 <? _)%Z.
    + by apply MoveUp_selectionOk.
  - eexists _, _. split; [done|]. exists gs. split_and!; try done.
    + destruct Ht as (? & ? & ?). unfold model.MoveDown. by destruct (_ <? _)%Z.
    + by apply MoveDown_selectionOk.
  - destruct (ToggleExpanded_layout gs h t Ht)
      as [(gs1 & g & gs2 & -> & Hget & Hname & ->)|[_ ->]].
    + eexists _, _. split; [done|].
      exists (gs1 ++ withExpanded (negb (p_expanded g)) g :: gs2). split_and!.
      * split_and!; try done. by destruct Ht as (? & ? & ?).
      * unfold sameProjects in *. rewrite <- Hsame. apply sameProjects_toggle.
      * destruct Ht as (_ & _ & Hflat).
        pose proof (selected_project_index gs1 gs2 g t Hflat Hname Hget) as Hidx.
        destruct Hsel as [Hsel _]. split; [done|]. left.
        unfold model.lenFlat. cbn [model.set_Flat model.Flat model.Selected].
        rewrite (flatOf_project gs1 gs2 (withExpanded _ g)) by done.
        rewrite Hidx, length_app. cbn [length]. lia.
    + eexists _, _. split; [done|]. by exists gs.
Qed.

Lemma treeAfter_treeFrom (containers : list docker.ContainerInfo) (calls : list treeCall) :
  ∃ h t, treeAfter containers calls = Some (h, t) ∧ treeFrom containers h t.
Proof.
  unfold treeAfter.
  destruct (treeFrom_BuildTree containers) as (h & t & -> & Hfrom & _).
  revert h t Hfrom. induction calls as [|c calls IH]; intros h t Hfrom; cbn [model.for_each].
  - by exists h, t.
  - destruct (treeFrom_step containers h t c Hfrom) as (h' & t' & -> & Hfrom').
    by apply IH.
Qed.

(** ** The groups of [BuildTree] *)

Lemma groupContainer_within (cs : list docker.ContainerInfo)
    (projects : gmap string (list docker.ContainerInfo)) (c : docker.ContainerInfo) :
  c ∈ cs → groupsWithin cs projects → groupsWithin cs (model.groupContainer projects c).
Proof.
  intros Hc Hm k l. unfold model.groupContainer.
  destruct (decide (model.ParseProjectName (docker.Name c) = k)) as [<-|Hne].
  - rewrite lookup_insert_eq. intros [= <-]. split; [by destruct (default _ _)|].
    apply Forall_app. split; [|by apply Forall_singleton].
    destruct (projects !! _) as [l|] eqn:Hl; [|by apply Forall_nil].
    by apply (Hm _ _ Hl).
  - rewrite lookup_insert_ne by done. apply Hm.
Qed.

Lemma groupContainers_within (cs cs' : list docker.ContainerInfo)
    (projects : gmap string (list docker.ContainerInfo)) :
  cs' ⊆ cs → groupsWithin cs projects → groupsWithin cs (foldl model.groupContainer projects cs').
Proof.
  revert projects. induction cs' as [|c cs' IH]; intros projects Hsub Hm; [done|].
  cbn [foldl]. apply IH; [set_solver|]. apply groupContainer_within; [set_solver|done].
Qed.

Lemma groups_within (cs : list docker.ContainerInfo) :
  groupsWithin cs (foldl model.groupContainer ∅ cs).
Proof. apply groupContainers_within; [done|]. intros k l. by rewrite lookup_empty. Qed.

Lemma groupsOf_names (cs : list docker.ContainerInfo) :
  StronglySorted string_lt (p_name <$> groupsOf cs).
Proof.
  assert (p_name <$> groupsOf cs
          = sort.Strings (map_to_list (foldl model.groupContainer ∅ cs)).*1) as ->.
  { unfold groupsOf. rewrite <- list_fmap_compose. apply list_fmap_id. }
  apply sorted_NoDup_strict; [|apply sort_Strings_sorted].
  rewrite sort_Strings_perm. apply NoDup_fst_map_to_list.
Qed.

Lemma groupsOf_elem (cs : list docker.ContainerInfo) (g : project) :
  g ∈ groupsOf cs →
  p_expanded g = true ∧
  StronglySorted string_le (docker.Name <$> p_containers g) ∧
  p_containers g ≠ [] ∧
  Forall (λ c, c ∈ cs ∧ model.ParseProjectName (docker.Name c) = p_name g) (p_containers g).
Proof.
  unfold groupsOf. intros (k & -> & Hk)%list_elem_of_fmap. cbn [p_expanded p_containers p_name].
  split; [done|]. split; [apply sort_Slice_sorted|].
  rewrite sort_Strings_perm in Hk. apply list_elem_of_fmap in Hk as ([k' l] & -> & Hkl).
  apply elem_of_map_to_list in Hkl. cbn [fst]. rewrite Hkl. cbn [default].
  destruct (groups_within cs k' l Hkl) as [Hne Hall]. split.
  - intros Hnil. apply Hne. apply Permutation_nil_r. rewrite <- Hnil.
    by rewrite sort_Slice_perm.
  - by rewrite sort_Slice_perm.
Qed.

Lemma ParseProjectName_root : model.ParseProjectName "root" = "root".
Proof. done. Qed.

Lemma groupsOf_noRoot (cs : list docker.ContainerInfo) :
  Forall (λ c, model.ParseProjectName (docker.Name c) ≠ "root") cs → noRoot (groupsOf cs).
Proof.
  intros Hcs. rewrite Forall_forall in Hcs. apply Forall_forall. intros g Hg.
  destruct (groupsOf_elem cs g Hg) as (_ & _ & Hne & Hall). split.
  - destruct (p_containers g) as [|c l]; [done|].
    apply Forall_cons in Hall as [[Hc Hk] _].
    apply String.eqb_neq. rewrite <- Hk. by apply Hcs.
  - eapply Forall_impl; [exact Hall|]. cbn beta. intros c [Hc _] Hname.
    apply (Hcs c Hc). by rewrite Hname.
Qed.

Lemma sameProjects_Forall (Q : string → list docker.ContainerInfo → Prop) (gs gs' : list project) :
  sameProjects gs gs' →
  Forall (λ g, Q (p_name g) (p_containers g)) gs' →
  Forall (λ g, Q (p_name g) (p_containers g)) gs.
Proof.
  unfold sameProjects. intros Hsame H'.
  apply (Forall_fmap (λ g, (p_name g, p_containers g)) (λ x, Q x.1 x.2)) in H'.
  rewrite <- Hsame in H'.
  by apply (Forall_fmap (λ g, (p_name g, p_containers g)) (λ x, Q x.1 x.2)).
Qed.

Lemma sameProjects_noRoot (gs gs' : list project) :
  sameProjects gs gs' → noRoot gs' → noRoot gs.
Proof.
  apply (sameProjects_Forall
           (λ name cs, String.eqb name "root" = false ∧ Forall (λ c, docker.Name c ≠ "root") cs)).
Qed.

(** ** Counting the entries of the flat view *)

Lemma projectsOf_layout (gs : list project) (h : list model.TreeNode) (t : model.Tree) :
  treeOf gs h t → projectsOf h t = projectAddrs 1 gs.
Proof. intros (-> & Hroot & _). unfold projectsOf. by rewrite Hroot. Qed.

Lemma projectAddrs_elem (base : nat) (gs : list project) (p : nat) :
  p ∈ projectAddrs base gs → ∃ gs1 g gs2, gs = gs1 ++ g :: gs2 ∧ p = base + bodySize gs1.
Proof.
  revert base. induction gs as [|g gs IH]; intros base; cbn [projectAddrs].
  - by intros ?%elem_of_nil.
  - intros [->|Hp]%elem_of_cons.
    + exists [], g, gs. by rewrite bodySize_nil, Nat.add_0_r.
    + destruct (IH _ Hp) as (gs1 & g' & gs2 & -> & ->).
      exists (g :: gs1), g', gs2. rewrite bodySize_cons. split; [done|lia].
Qed.

Lemma expandedContainers_layout (h : list model.TreeNode) (base : nat) (gs : list project) :
  holds h base gs →
  sum_list_with (expandedContainers h) (projectAddrs base gs) = sum_list_with shownContainers gs.
Proof.
  revert base. induction gs as [|g gs IH]; intros base Hh; [done|].
  apply holds_cons in Hh as (Hh & Hp & _). cbn [projectAddrs sum_list_with].
  rewrite (IH _ Hh). f_equal. unfold expandedContainers, shownContainers.
  rewrite Hp. cbn [projectNode model.Expanded model.Children]. by rewrite length_seq.
Qed.

Lemma length_flatOf (base : nat) (gs : list project) :
  noRoot gs → length (flatOf base gs) = length gs + sum_list_with shownContainers gs.
Proof.
  revert base. induction gs as [|g gs IH]; intros base Hno; [done|].
  apply Forall_cons in Hno as [[Hname _] Hno]. cbn [flatOf sum_list_with length].
  rewrite length_app, (IH _ Hno). unfold shownOf, shownContainers. rewrite Hname.
  destruct (p_expanded g); cbn [app length]; rewrite ?length_seq; lia.
Qed.

Lemma flatOf_names (h : list model.TreeNode) (base : nat) (gs : list project)
    (p : nat) (n : model.TreeNode) :
  holds h base gs → noRoot gs → p ∈ flatOf base gs → h !! p = Some n → model.Name n ≠ "root".
Proof.
  revert base. induction gs as [|g gs IH]; intros base Hh Hno; cbn [flatOf].
  - by intros ?%elem_of_nil.
  - apply holds_cons in Hh as (Hh & Hp & Hcs).
    apply Forall_cons in Hno as [[Hname Hcont] Hno].
    rewrite elem_of_app. intros [Hin|Hin]; [|by eapply IH].
    unfold shownOf in Hin. rewrite Hname in Hin. apply elem_of_app in Hin as [Hin|Hin].
    + apply list_elem_of_singleton in Hin as ->. rewrite Hp. intros [= <-].
      by apply String.eqb_neq.
    + destruct (p_expanded g); [|by apply elem_of_nil in Hin].
      apply elem_of_seq in Hin.
      destruct (lookup_lt_is_Some_2 (p_containers g) (p - S base)) as [c Hc]; [lia|].
      specialize (Hcs _ _ Hc). replace (S base + (p - S base)) with p in Hcs by lia.
      rewrite Hcs. intros [= <-]. cbn [containerNode model.Name].
      rewrite Forall_forall in Hcont. apply Hcont. by eapply list_elem_of_lookup_2.
Qed.

Lemma filter_eq_absent (p : nat) (l : list nat) :
  p ∉ l → filter (λ q, q = p) l = [].
Proof.
  induction l as [|x l IH]; [done|]. intros Hp.
  apply not_elem_of_cons in Hp as [Hne Hp].
  rewrite filter_cons_False by done. by apply IH.
Qed.

(** A collapsed project has one entry, and its containers have none. *)
Lemma collapsed_project (gs1 gs2 : list project) (g : project) :
  String.eqb (p_name g) "root" = false →
  p_expanded g = false →
  occurrences (S (bodySize gs1)) (flatOf 1 (gs1 ++ g :: gs2)) = 1 ∧
  ∀ c, c ∈ seq (S (S (bodySize gs1))) (length (p_containers g)) →
       c ∉ flatOf 1 (gs1 ++ g :: gs2).
Proof.
  intros Hname Hexp. rewrite flatOf_project by done. rewrite Hexp. cbn [app]. split.
  - unfold occurrences. rewrite filter_app, filter_cons_True by done.
    rewrite !filter_eq_absent; [done| |].
    + intros Hin%flatOf_ge. unfold projectSize in Hin. lia.
    + intros Hin%flatOf_lt. lia.
  - intros c Hc%elem_of_seq. rewrite elem_of_app, elem_of_cons.
    intros [Hin%flatOf_lt|[->|Hin%flatOf_ge]]; unfold projectSize in *; lia.
Qed.

(** ** The flattened view after a build and after toggles *)

Lemma namesOf_cons (h : list model.TreeNode) (p : nat) (ps : list nat) (n : model.TreeNode) :
  h !! p = Some n → namesOf h (p :: ps) = model.Name n :: namesOf h ps.
Proof. intros Hp. unfold namesOf. cbn [omap list_omap]. by rewrite Hp. Qed.

Lemma length_namesOf (h : list model.TreeNode) (ps : list nat) :
  Forall (λ p, is_Some (h !! p)) ps → length (namesOf h ps) = length ps.
Proof.
  induction 1 as [|p ps [n Hn] _ IH]; [done|].
  rewrite (namesOf_cons _ _ _ _ Hn). cbn [length]. by rewrite IH.
Qed.

(** The flat view of a tree made from [containers] whose project names
    are not ["root"]. *)
Lemma flat_view_of_tree (containers : list docker.ContainerInfo)
    (h : list model.TreeNode) (t : model.Tree) :
  Forall (λ c, model.ParseProjectName (docker.Name c) ≠ "root") containers →
  treeFrom containers h t →
  length (namesOf h (model.Flat t)) = length (model.Flat t) ∧
  ("root" ∉ namesOf h (model.Flat t)) ∧
  length (model.Flat t)
  = length (projectsOf h t) + sum_list_with (expandedContainers h) (projectsOf h t) ∧
  ∀ p n, p ∈ projectsOf h t → h !! p = Some n → model.Expanded n = false →
         occurrences p (model.Flat t) = 1 ∧ ∀ c, c ∈ model.Children n → c ∉ model.Flat t.
Proof.
  intros Hcs (gs & Ht & Hsame & _).
  pose proof (sameProjects_noRoot _ _ Hsame (groupsOf_noRoot _ Hcs)) as Hno.
  rewrite (projectsOf_layout gs h t Ht). destruct Ht as (-> & Hroot & ->). split_and!.
  - apply length_namesOf, Forall_forall. intros p Hp. by apply flat_lookup_is_Some.
  - unfold namesOf. intros (p & Hp & Hname)%list_elem_of_omap.
    apply fmap_Some in Hname as (n & Hn & Hname).
    by apply (flatOf_names _ _ _ _ _ (holds_layout gs) Hno Hp Hn).
  - rewrite (expandedContainers_layout _ _ _ (holds_layout gs)), length_projectAddrs.
    by apply length_flatOf.
  - intros p n (gs1 & g & gs2 & -> & ->)%projectAddrs_elem.
    change (1 + bodySize gs1) with (S (bodySize gs1)).
    rewrite layout_lookup_project. intros [= <-] Hexp.
    apply Forall_app in Hno as [_ [[Hname _] _]%Forall_cons].
    by apply collapsed_project.
Qed.

(** ** The names in a layout *)

Lemma namesOf_projects (h : list model.TreeNode) (base : nat) (gs : list project) :
  holds h base gs → namesOf h (projectAddrs base gs) = p_name <$> gs.
Proof.
  revert base. induction gs as [|g gs IH]; intros base Hh; [done|].
  apply holds_cons in Hh as (Hh & Hp & _). cbn [projectAddrs].
  by rewrite (namesOf_cons _ _ _ _ Hp), (IH _ Hh).
Qed.

Lemma namesOf_containers (h : list model.TreeNode) (parent start : nat)
    (cs : list docker.ContainerInfo) :
  (∀ j c, cs !! j = Some c → h !! (start + j) = Some (containerNode parent c)) →
  namesOf h (seq start (length cs)) = docker.Name <$> cs.
Proof.
  revert start. induction cs as [|c cs IH]; intros start Hcs; [done|].
  cbn [length seq]. rewrite (namesOf_cons _ _ _ (containerNode parent c)).
  - rewrite IH; [done|]. intros j c' Hc'.
    replace (S start + j) with (start + S j) by lia. by apply Hcs.
  - rewrite <- (Nat.add_0_r start). by apply Hcs.
Qed.

Lemma childNames_project (gs1 gs2 : list project) (g : project) :
  childNames (layout (gs1 ++ g :: gs2)) (S (bodySize gs1)) = docker.Name <$> p_containers g.
Proof.
  unfold childNames. rewrite layout_lookup_project. cbn [projectNode model.Children].
  pose proof (holds_layout (gs1 ++ g :: gs2)) as Hh.
  apply holds_app_r in Hh. apply holds_cons in Hh as (_ & _ & Hcs).
  by apply (namesOf_containers _ (S (bodySize gs1))).
Qed.

(** ** Paths and the search of [RestoreSelection] *)

Lemma searchPath_spec (h : list model.TreeNode) (path : string) (nodes : list nat) (i : nat) :
  Forall (λ node, is_Some (model.GetNodePath h (Some node))) nodes →
  (∃ k node,
      model.searchPath h path i nodes = Some (Some (i + k)) ∧
      nodes !! k = Some node ∧
      model.GetNodePath h (Some node) = Some path ∧
      ∀ j node', j < k → nodes !! j = Some node' → model.GetNodePath h (Some node') ≠ Some path)
  ∨ (model.searchPath h path i nodes = Some None ∧
     ∀ node, node ∈ nodes → model.GetNodePath h (Some node) ≠ Some path).
Proof.
  revert i. induction nodes as [|node nodes IH]; intros i Hdef.
  - right. split; [done|]. by intros node ?%elem_of_nil.
  - apply Forall_cons in Hdef as [[p Hp] Hdef]. cbn [model.searchPath]. rewrite Hp.
    destruct (String.eqb_spec p path) as [->|Hne].
    + left. exists 0, node. rewrite Nat.add_0_r. split_and!; try done. lia.
    + destruct (IH (S i) Hdef) as [(k & node' & Hs & Hk & Hpath & Hfirst)|[Hs Hnone]].
      * left. exists (S k), node'. rewrite Nat.add_succ_r. split_and!; try done.
        intros [|j] node'' Hj; cbn [lookup list_lookup].
        -- intros [= <-]. rewrite Hp. congruence.
        -- apply Hfirst. lia.
      * right. split; [done|]. intros node' [->|Hin]%elem_of_cons; [|by apply Hnone].
        rewrite Hp. congruence.
Qed.

(** ** The viewport *)

Lemma wrap_int_spec (z : Z) : ∃ k : Z, wrap_int z = (z - k * 2 ^ 64)%Z ∧ is_int (wrap_int z).
Proof.
  exists ((z + 2 ^ 63) / 2 ^ 64)%Z. split; [|apply wrap_int_is_int].
  unfold wrap_int. rewrite Z.mod_eq by lia. lia.
Qed.

Lemma visibleHeight_range (m : ui.Model) : (1 ≤ ui.visibleHeight m < 2 ^ 63)%Z.
Proof.
  unfold ui.visibleHeight.
  pose proof (wrap_int_is_int (ui.height m - 5)) as Hint. unfold is_int in Hint.
  destruct (_ <? 1)%Z eqn:H1; lia.
Qed.

Lemma adjustViewport_spec (m : ui.Model) (t : model.Tree) :
  ui.tree m = Some t →
  model.Flat t ≠ [] →
  (0 ≤ model.Selected t < 2 ^ 63)%Z →
  is_int (ui.viewportTop m) →
  ui.nodes (ui.adjustViewport m) = ui.nodes m ∧
  ui.tree (ui.adjustViewport m) = Some t ∧
  ui.width (ui.adjustViewport m) = ui.width m ∧
  ui.height (ui.adjustViewport m) = ui.height m ∧
  is_int (ui.viewportTop (ui.adjustViewport m)) ∧
  (ui.viewportTop (ui.adjustViewport m) ≤ model.Selected t
   < ui.viewportTop (ui.adjustViewport m) + ui.visibleHeight (ui.adjustViewport m))%Z ∧
  (0 ≤ ui.viewportTop (ui.adjustViewport m))%Z.
Proof.
  intros Htree Hflat Hsel Htop. unfold ui.adjustViewport. rewrite Htree.
  assert ((model.lenFlat t =? 0)%Z = false) as ->.
  { apply Z.eqb_neq. unfold model.lenFlat. destruct (model.Flat t); [done|]. cbn [length]. lia. }
  pose proof (visibleHeight_range m) as Hvh.
  assert (∀ top m', ui.visibleHeight (ui.set_viewportTop top m') = ui.visibleHeight m') as Hvh' by done.
  destruct (wrap_int_spec (ui.viewportTop m + ui.visibleHeight m)) as (k1 & Hk1 & Hi1).
  rewrite (wrap_int_id (model.Selected t - ui.visibleHeight m)) by (unfold is_int; lia).
  rewrite (wrap_int_id (model.Selected t - ui.visibleHeight m + 1)) by (unfold is_int; lia).
  unfold is_int in *.
  destruct (wrap_int _ <=? model.Selected t)%Z eqn:H1; cbn [ui.set_viewportTop ui.viewportTop];
    destruct (model.Selected t <? _)%Z eqn:H2; cbn [ui.set_viewportTop ui.viewportTop];
    destruct (_ <? 0)%Z eqn:H3;
    cbn [ui.set_viewportTop ui.viewportTop ui.nodes ui.tree ui.width ui.height];
    rewrite ?Hvh'; split_and!; try done; try lia.
Qed.

Lemma set_tree_same (m : ui.Model) (t : model.Tree) : ui.tree m = Some t → ui.set_tree t m = m.
Proof. destruct m. cbn [ui.tree]. by intros ->. Qed.

Lemma empty_flat_moves (t : model.Tree) :
  selectionOk t → model.Flat t = [] → model.MoveUp t = t ∧ model.MoveDown t = t.
Proof.
  intros [Hsel Hlen] Hflat. unfold model.lenFlat in Hlen. rewrite Hflat in Hlen.
  cbn [length] in Hlen. assert (model.Selected t = 0%Z) as Hz by lia.
  unfold model.MoveUp, model.MoveDown, model.lenFlat. rewrite Hz, Hflat. done.
Qed.

Lemma empty_flat_adjustViewport (m : ui.Model) (t : model.Tree) :
  ui.tree m = Some t → model.Flat t = [] → ui.adjustViewport m = m.
Proof.
  intros Htree Hflat. unfold ui.adjustViewport, model.lenFlat. by rewrite Htree, Hflat.
Qed.

(** What a call keeps: the tree's flat view, a selection within it, the
    height, a top that is an [int]. *)
Lemma ui_step_spec (m : ui.Model) (t : model.Tree) (c : ui.call) :
  ui.tree m = Some t → selectionOk t → is_int (ui.viewportTop m) →
  ∃ m' t',
    ui.step m c = Some m' ∧ ui.tree m' = Some t' ∧
    model.Flat t' = model.Flat t ∧ selectionOk t' ∧
    is_int (ui.viewportTop m') ∧ ui.height m' = ui.height m ∧
    (model.Flat t = [] → m' = m).
Proof.
  intros Htree Hsel Htop. destruct c; cbn [ui.step]; rewrite ?Htree.
  - exists (ui.set_tree (model.MoveUp t) m), (model.MoveUp t). split_and!; try done.
    + unfold model.MoveUp. by destruct (0 <? _)%Z.
    + by apply MoveUp_selectionOk.
    + intros Hflat. destruct (empty_flat_moves t Hsel Hflat) as [-> _].
      by apply set_tree_same.
  - exists (ui.set_tree (model.MoveDown t) m), (model.MoveDown t). split_and!; try done.
    + unfold model.MoveDown. by destruct (_ <? _)%Z.
    + by apply MoveDown_selectionOk.
    + intros Hflat. destruct (empty_flat_moves t Hsel Hflat) as [_ ->].
      by apply set_tree_same.
  - exists (ui.adjustViewport m), t.
    destruct (decide (model.Flat t = [])) as [Hflat|Hflat].
    + rewrite (empty_flat_adjustViewport m t Htree Hflat). by split_and!.
    + destruct Hsel as [Hsel Hlen].
      destruct (adjustViewport_spec m t Htree Hflat Hsel Htop) as (_ & ? & _ & ? & ? & _).
      by split_and!.
Qed.

Lemma ui_run_spec (m : ui.Model) (t : model.Tree) (calls : list ui.call) :
  ui.tree m = Some t → selectionOk t → is_int (ui.viewportTop m) →
  ∃ m' t',
    ui.run m calls = Some m' ∧ ui.tree m' = Some t' ∧
    model.Flat t' = model.Flat t ∧ selectionOk t' ∧
    is_int (ui.viewportTop m') ∧ ui.height m' = ui.height m ∧
    (model.Flat t = [] → m' = m).
Proof.
  revert m t. unfold ui.run.
  induction calls as [|c calls IH]; intros m t Htree Hsel Htop; cbn [model.for_each].
  - by exists m, t.
  - destruct (ui_step_spec m t c Htree Hsel Htop)
      as (m1 & t1 & -> & Htree1 & Hflat1 & Hsel1 & Htop1 & Hh1 & He1).
    destruct (IH m1 t1 Htree1 Hsel1 Htop1) as (m2 & t2 & -> & ? & Hflat2 & ? & ? & Hh2 & He2).
    exists m2, t2. split_and!; try done; try congruence.
    intros Hflat. rewrite He2, He1; [done|done|congruence].
Qed.

Lemma ui_run_app (m : ui.Model) (calls1 calls2 : list ui.call) :
  ui.run m (calls1 ++ calls2) = ui.run m calls1 ≫= λ m', ui.run m' calls2.
Proof.
  unfold ui.run. revert m. induction calls1 as [|c calls1 IH]; intros m; [done|].
  cbn [app model.for_each]. destruct (ui.step m c); [apply IH|done].
Qed.

(** ** The fan-in *)

Lemma receive_all_perm {A} (choices : list nat) (pending : list A) :
  receive_all (length pending) choices pending ≡ₚ pending.
Proof.
  remember (length pending) as n eqn:Hn. revert choices pending Hn.
  induction n as [|n IH]; intros choices pending Hn.
  - destruct pending; [done|discriminate].
  - cbn [receive_all]. rewrite <- Hn.
    assert (hd 0 choices `mod` S n < S n) as Hk by (apply Nat.mod_upper_bound; lia).
    destruct (lookup_lt_is_Some_2 pending (hd 0 choices `mod` S n)) as [x Hx]; [lia|].
    rewrite Hx. rewrite (delete_Permutation pending _ x Hx) at 2. constructor.
    apply IH. rewrite length_delete by eauto. lia.
Qed.

(** ** The records of a listing *)

Lemma initialInfos_spec (containers : list docker.Summary) :
  Forall wellFormed containers →
  ∃ infos, docker.initialInfos containers = Ok infos ∧
           Forall2 (λ ctr info, docker.initialInfo ctr = Ok info) containers infos.
Proof.
  induction 1 as [|ctr containers [Hnames Hid] _ (infos & IH & Hall)].
  - by exists [].
  - unfold docker.initialInfos; fold docker.initialInfos. rewrite IH.
    unfold docker.initialInfo at 1.
    destruct (docker.sum_Names ctr) as [|name0 names] eqn:Hn; [done|].
    destruct (_ <? 12) eqn:Hlt; [apply Nat.ltb_lt in Hlt; lia|].
    eexists. split; [done|]. constructor; [|done].
    unfold docker.initialInfo. by rewrite Hn, Hlt.
Qed.

Lemma initialInfo_State (ctr : docker.Summary) (info : docker.ContainerInfo) :
  docker.initialInfo ctr = Ok info → docker.State info = docker.sum_State ctr.
Proof.
  unfold docker.initialInfo. destruct (docker.sum_Names ctr); [done|].
  destruct (_ <? 12); [done|]. by intros [= <-].
Qed.

Lemma initialInfos_State (containers : list docker.Summary) (infos : list docker.ContainerInfo) :
  docker.initialInfos containers = Ok infos →
  docker.State <$> infos = docker.sum_State <$> containers.
Proof.
  revert infos. induction containers as [|ctr containers IH]; intros infos.
  - by intros [= <-].
  - cbn [docker.initialInfos]. destruct (docker.initialInfo ctr) as [info| |] eqn:Hi; try done.
    destruct (docker.initialInfos containers) as [infos'| |]; try done.
    intros [= <-]. cbn [fmap list_fmap]. f_equal.
    + by apply initialInfo_State.
    + by apply IH.
Qed.

Lemma statsSent_elem (c : docker.Client) (base : nat) (containers : list docker.Summary)
    (s : docker.statsResult) :
  s ∈ docker.statsSent c true base containers ↔
  ∃ j ctr, containers !! j = Some ctr ∧ String.eqb (docker.sum_State ctr) "running" = true ∧
           s = docker.sampleTask c (base + j) (docker.sum_ID ctr).
Proof.
  revert base. induction containers as [|ctr containers IH]; intros base; cbn [docker.statsSent].
  - split; [by intros ?%elem_of_nil|]. by intros (j & ctr & ? & _).
  - rewrite elem_of_app, IH. split.
    + intros [Hs|(j & ctr' & Hj & Hrun & ->)].
      * destruct (String.eqb _ _) eqn:Hrun; [|by apply elem_of_nil in Hs].
        apply list_elem_of_singleton in Hs as ->. exists 0, ctr. by rewrite Nat.add_0_r.
      * exists (S j), ctr'. by rewrite Nat.add_succ_r.
    + intros ([|j] & ctr' & Hj & Hrun & ->).
      * injection Hj as <-. left. rewrite Hrun, Nat.add_0_r. by apply list_elem_of_singleton.
      * right. exists j, ctr'. by rewrite Nat.add_succ_r.
Qed.

Lemma statsSent_index_ge (c : docker.Client) (b : bool) (base : nat)
    (containers : list docker.Summary) (i : nat) :
  i ∈ docker.index <$> docker.statsSent c b base containers → base ≤ i.
Proof.
  revert base. induction containers as [|ctr containers IH]; intros base; cbn [docker.statsSent].
  - by intros ?%elem_of_nil.
  - rewrite fmap_app, elem_of_app. intros [Hi|Hi].
    + destruct (_ && _); [|by apply elem_of_nil in Hi].
      apply list_elem_of_singleton in Hi as ->. done.
    + apply IH in Hi. lia.
Qed.

Lemma statsSent_NoDup (c : docker.Client) (b : bool) (base : nat)
    (containers : list docker.Summary) :
  NoDup (docker.index <$> docker.statsSent c b base containers).
Proof.
  revert base. induction containers as [|ctr containers IH]; intros base; cbn [docker.statsSent].
  - apply NoDup_nil_2.
  - rewrite fmap_app. apply NoDup_app. split_and!; [| |apply IH].
    + destruct (_ && _); [apply NoDup_singleton|apply NoDup_nil_2].
    + intros i Hi Hi'%statsSent_index_ge.
      destruct (_ && _); [|by apply elem_of_nil in Hi].
      apply list_elem_of_singleton in Hi as ->. cbn [docker.sampleTask docker.index] in Hi'. lia.
Qed.

Lemma collectStats_spec (received : list docker.statsResult) (result : list docker.ContainerInfo) :
  NoDup (docker.index <$> received) →
  Forall (λ s, docker.index s < length result) received →
  ∃ result',
    docker.collectStats result received = Ok result' ∧
    length result' = length result ∧
    (∀ s, s ∈ received →
          result' !! docker.index s = docker.setStats s <$> result !! docker.index s) ∧
    (∀ i, i ∉ docker.index <$> received → result' !! i = result !! i).
Proof.
  revert result. induction received as [|s received IH]; intros result Hnd Hlt.
  - exists result. split_and!; try done. by intros s ?%elem_of_nil.
  - cbn [fmap list_fmap] in Hnd. apply NoDup_cons in Hnd as [Hs Hnd].
    apply Forall_cons in Hlt as [Hslt Hlt].
    destruct (lookup_lt_is_Some_2 result (docker.index s) Hslt) as [info Hinfo].
    cbn [docker.collectStats]. unfold docker.mergeStats. rewrite Hinfo.
    destruct (IH (<[docker.index s := docker.setStats s info]> result) Hnd)
      as (result' & -> & Hlen & Hin & Hout).
    { eapply Forall_impl; [exact Hlt|]. intros s'. by rewrite length_insert. }
    exists result'. rewrite length_insert in Hlen. split_and!; try done.
    + intros s' [->|Hs']%elem_of_cons.
      * rewrite (Hout _ Hs), list_lookup_insert_eq by done. by rewrite Hinfo.
      * rewrite (Hin _ Hs'), list_lookup_insert_ne; [done|].
        intros Heq. apply Hs. rewrite Heq. by apply list_elem_of_fmap_2.
    + intros i Hi. cbn [fmap list_fmap] in Hi. apply not_elem_of_cons in Hi as [Hne Hi].
      by rewrite (Hout _ Hi), list_lookup_insert_ne.
Qed.

Lemma collectStats_State (received : list docker.statsResult)
    (result result' : list docker.ContainerInfo) :
  docker.collectStats result received = Ok result' →
  docker.State <$> result' = docker.State <$> result.
Proof.
  revert result. induction received as [|s received IH]; intros result.
  - by intros [= <-].
  - cbn [docker.collectStats]. unfold docker.mergeStats.
    destruct (result !! docker.index s) as [info|] eqn:Hinfo; [|done].
    intros Hc. rewrite (IH _ Hc), list_fmap_insert. apply list_insert_id.
    by rewrite list_lookup_fmap, Hinfo.
Qed.

(** The records of a refresh with statistics: the initial record of
    every entry, with what the goroutine of that entry sends merged in
    if the entry is running, whatever the order of arrival. *)
Lemma ListContainersWithStats_records (c : docker.Client) (containers : list docker.Summary)
    (choices : list nat) :
  docker.ContainerList c {| docker.All := false |} = inr containers →
  Forall wellFormed containers →
  ∃ result,
    docker.ListContainersWithStats c choices true = Ok result ∧
    length result = length containers ∧
    ∀ i ctr, containers !! i = Some ctr →
      ∃ info,
        docker.initialInfo ctr = Ok info ∧
        result !! i
        = Some (if String.eqb (docker.sum_State ctr) "running"
                then docker.setStats (docker.sampleTask c i (docker.sum_ID ctr)) info
                else info).
Proof.
  intros Hlist Hwf. unfold docker.ListContainersWithStats. rewrite Hlist.
  destruct (initialInfos_spec containers Hwf) as (infos & -> & Hinfos).
  pose proof (Forall2_length _ _ _ Hinfos) as Hlen.
  set (sent := docker.statsSent c true 0 containers).
  pose proof (receive_all_perm choices sent) as Hperm.
  destruct (collectStats_spec (receive_all (length sent) choices sent) infos)
    as (result & -> & Hlen' & Hin & Hout).
  { rewrite Hperm. apply statsSent_NoDup. }
  { rewrite Hperm. apply Forall_forall. intros s (j & ctr & Hj & _ & ->)%statsSent_elem.
    cbn [docker.sampleTask docker.index]. apply lookup_lt_Some in Hj. lia. }
  exists result. split; [done|]. split; [lia|].
  intros i ctr Hi.
  destruct (Forall2_lookup_l _ _ _ _ _ Hinfos Hi) as (info & Hinfo & Hinit).
  exists info. split; [done|].
  destruct (String.eqb (docker.sum_State ctr) "running") eqn:Hrun.
  - assert (docker.sampleTask c i (docker.sum_ID ctr) ∈ receive_all (length sent) choices sent)
      as Hs.
    { rewrite Hperm. apply statsSent_elem. by exists i, ctr. }
    apply Hin in Hs. cbn [docker.sampleTask docker.index Nat.add] in Hs. by rewrite Hs, Hinfo.
  - rewrite Hout; [done|]. rewrite Hperm.
    intros (s & -> & (j & ctr' & Hj & Hrun' & ->)%statsSent_elem)%list_elem_of_fmap.
    cbn [docker.sampleTask docker.index Nat.add] in Hi. rewrite Hj in Hi. congruence.
Qed.

Lemma initialInfo_describes (ctr : docker.Summary) (info : docker.ContainerInfo) :
  docker.initialInfo ctr = Ok info → describes ctr info ∧ figures info = placeholders.
Proof.
  unfold docker.initialInfo, describes.
  destruct (docker.sum_Names ctr) as [|name names]; [done|].
  destruct (_ <? 12); [done|]. intros [= <-]. split; [|done].
  split_and!; try done. by exists name, names.
Qed.

(** The figures that the goroutine of a container sends are those of
    the runtime's reply. *)
Lemma setStats_figures (c : docker.Client) (i : nat) (containerID : string)
    (info : docker.ContainerInfo) :
  figures (docker.setStats (docker.sampleTask c i containerID) info)
  = sampled (docker.ContainerStats c containerID).
Proof.
  unfold figures, sampled, docker.sampleTask, docker.getContainerStats.
  by destruct (docker.ContainerStats c containerID).
Qed.

Lemma setStats_describes (ctr : docker.Summary) (stats : docker.statsResult)
    (info : docker.ContainerInfo) :
  describes ctr info → describes ctr (docker.setStats stats info).
Proof. done. Qed.

(** The record of an entry after the merge describes the entry and has
    the figures of the runtime's reply for it, if it is running. *)
Lemma merged_record (c : docker.Client) (i : nat) (ctr : docker.Summary)
    (info : docker.ContainerInfo) :
  docker.initialInfo ctr = Ok info →
  describes ctr (if String.eqb (docker.sum_State ctr) "running"
                 then docker.setStats (docker.sampleTask c i (docker.sum_ID ctr)) info
                 else info) ∧
  figures (if String.eqb (docker.sum_State ctr) "running"
           then docker.setStats (docker.sampleTask c i (docker.sum_ID ctr)) info
           else info)
  = if String.eqb (docker.sum_State ctr) "running"
    then sampled (docker.ContainerStats c (docker.sum_ID ctr))
    else placeholders.
Proof.
  intros [Hd Hf]%initialInfo_describes.
  destruct (String.eqb (docker.sum_State ctr) "running"); [|done].
  split; [by apply setStats_describes|apply setStats_figures].
Qed.

(** A record is given by the entry it describes and by its figures. *)
Lemma describes_figures_eq (ctr : docker.Summary) (r1 r2 : docker.ContainerInfo) :
  describes ctr r1 → describes ctr r2 → figures r1 = figures r2 → r1 = r2.
Proof.
  unfold describes, figures.
  intros (? & (n1 & ns1 & Hn1 & ?) & ? & ? & ? & ? & ? & ? & ?)
         (? & (n2 & ns2 & Hn2 & ?) & ? & ? & ? & ? & ? & ? & ?) [= ? ? ? ? ?].
  rewrite Hn1 in Hn2. injection Hn2 as <- <-.
  destruct r1, r2. cbn in *. by subst.
Qed.

Lemma initialInfo_placeholders (ctr : docker.Summary) (info : docker.ContainerInfo) :
  docker.initialInfo ctr = Ok info →
  docker.CPUPerc info = 0%float ∧ docker.MemPerc info = 0%float ∧
  docker.MemUsage info = "N/A" ∧ docker.NetRx info = 0%Z ∧ docker.NetTx info = 0%Z.
Proof.
  unfold docker.initialInfo. destruct (docker.sum_Names ctr); [done|].
  destruct (_ <? 12); [done|]. by intros [= <-].
Qed.

(** ** Listings ask for the running containers *)

Lemma v0_infos_State (containers : list docker.Summary) (infos : list docker.ContainerInfo) :
  docker.v0.infos containers = Ok infos →
  docker.State <$> infos = docker.sum_State <$> containers.
Proof.
  revert infos. induction containers as [|ctr containers IH]; intros infos.
  - by intros [= <-].
  - cbn [docker.v0.infos]. destruct (docker.v0.info ctr) as [info| |] eqn:Hi; try done.
    destruct (docker.v0.infos containers) as [infos'| |]; try done.
    intros [= <-]. cbn [fmap list_fmap]. f_equal; [|by apply IH].
    unfold docker.v0.info in Hi. destruct (docker.sum_Names ctr); [done|].
    destruct (_ <? 12); [done|]. by injection Hi as <-.
Qed.

Lemma statsSent_runningOnly (c : docker.Client) (b : bool) (base : nat)
    (containers : list docker.Summary) :
  docker.statsSent (docker.runningOnly c) b base containers = docker.statsSent c b base containers.
Proof.
  revert base. induction containers as [|ctr containers IH]; intros base; [done|].
  cbn [docker.statsSent]. by rewrite IH.
Qed.

Lemma ListContainersWithStats_State (c : docker.Client) (choices : list nat) (b : bool)
    (infos : list docker.ContainerInfo) :
  docker.ListContainersWithStats c choices b = Ok infos →
  ∃ containers, docker.ContainerList c {| docker.All := false |} = inr containers ∧
                docker.State <$> infos = docker.sum_State <$> containers.
Proof.
  unfold docker.ListContainersWithStats.
  destruct (docker.ContainerList c _) as [err|containers]; [done|].
  destruct (docker.initialInfos containers) as [result| |] eqn:Hinit; try done.
  apply initialInfos_State in Hinit. intros Hres. exists containers. split; [done|].
  destruct b; [|by injection Hres as <-].
  apply collectStats_State in Hres. congruence.
Qed.

Lemma bodyNodes_Container (P : docker.ContainerInfo → Prop) (base : nat) (gs : list project) :
  Forall (λ g, Forall P (p_containers g)) gs →
  Forall (λ n, ∀ info, model.Container n = Some info → P info) (bodyNodes base gs).
Proof.
  revert base. induction gs as [|g gs IH]; intros base Hgs; cbn [bodyNodes]; [constructor|].
  apply Forall_cons in Hgs as [Hg Hgs]. apply Forall_app. split; [|by apply IH].
  unfold projectNodes. constructor; [done|].
  apply Forall_fmap. eapply Forall_impl; [exact Hg|].
  intros c Hc info [= <-]. done.
Qed.

Lemma BuildTree_Container (P : docker.ContainerInfo → Prop) (infos : list docker.ContainerInfo) :
  Forall P infos →
  ∃ h t, model.BuildTree infos = Some (h, t) ∧
         Forall (λ n, ∀ info, model.Container n = Some info → P info) h.
Proof.
  intros HP. eexists _, _. split; [apply BuildTree_layout|].
  unfold layout. constructor; [done|]. apply bodyNodes_Container.
  apply Forall_forall. intros g (_ & _ & _ & Hg)%groupsOf_elem.
  eapply Forall_impl; [exact Hg|]. cbn beta. intros c [Hc _].
  rewrite Forall_forall in HP. by apply HP.
Qed.

(** ** The paths of the nodes of a built tree are defined *)

Lemma body_lookup (base : nat) (gs : list project) (k : nat) (n : model.TreeNode) :
  bodyNodes base gs !! k = Some n →
  ∃ gs1 g gs2, gs = gs1 ++ g :: gs2 ∧
    (n = projectNode (base + bodySize gs1) g ∨
     ∃ c, n = containerNode (base + bodySize gs1) c).
Proof.
  revert base k. induction gs as [|g gs IH]; intros base k; cbn [bodyNodes]; [done|].
  intros [Hk|[_ Hk]]%lookup_app_Some.
  - exists [], g, gs. rewrite bodySize_nil, Nat.add_0_r. split; [done|].
    unfold projectNodes in Hk. destruct k as [|k]; [left; by injection Hk as <-|].
    rewrite lookup_cons in Hk. apply list_lookup_fmap_Some in Hk as (c & -> & _). eauto.
  - destruct (IH _ _ Hk) as (gs1 & g' & gs2 & -> & Hn).
    exists (g :: gs1), g', gs2. rewrite bodySize_cons, Nat.add_assoc. done.
Qed.

Lemma pathLoop_S (fuel : nat) (h : list model.TreeNode) (path : list string) (c : nat) :
  model.pathLoop (S fuel) h path (Some c) =
  match h !! c with
  | None => None
  | Some n =>
      if String.eqb (model.Name n) "root" then Some path
      else model.pathLoop fuel h (model.Name n :: path) (model.Parent n)
  end.
Proof. done. Qed.

Lemma pathLoop_root (fuel : nat) (gs : list project) (path : list string) :
  model.pathLoop (S fuel) (layout gs) path (Some 0) = Some path.
Proof. by rewrite pathLoop_S. Qed.

Lemma pathLoop_project (fuel : nat) (gs1 gs2 : list project) (g : project) (path : list string) :
  is_Some (model.pathLoop (S (S fuel)) (layout (gs1 ++ g :: gs2)) path (Some (S (bodySize gs1)))).
Proof.
  rewrite pathLoop_S, layout_lookup_project. cbn [projectNode model.Name model.Parent].
  destruct (String.eqb _ _); [done|]. by rewrite pathLoop_root.
Qed.

Lemma GetNodePath_layout (gs : list project) (node : nat) :
  node < length (layout gs) → is_Some (model.GetNodePath (layout gs) (Some node)).
Proof.
  intros Hlt. unfold model.GetNodePath.
  cut (is_Some (model.pathLoop (S (length (layout gs))) (layout gs) [] (Some node))).
  { intros [path ->]. done. }
  destruct node as [|k]; [by rewrite pathLoop_root|].
  destruct (lookup_lt_is_Some_2 _ _ Hlt) as [n Hn].
  pose proof Hn as Hn'. unfold layout in Hn'. rewrite lookup_cons in Hn'.
  destruct (body_lookup _ _ _ _ Hn') as (gs1 & g & gs2 & -> & Hcase).
  rewrite length_layout, bodySize_app, bodySize_cons. unfold projectSize.
  replace (S (S (bodySize gs1 + (S (length (p_containers g)) + bodySize gs2))))
    with (S (S (S (bodySize gs1 + length (p_containers g) + bodySize gs2)))) by lia.
  rewrite pathLoop_S, Hn. destruct Hcase as [->|[c ->]].
  - cbn [projectNode model.Name model.Parent].
    destruct (String.eqb _ _); [done|]. by rewrite pathLoop_root.
  - cbn [containerNode model.Name model.Parent].
    destruct (String.eqb _ _); [done|]. apply pathLoop_project.
Qed.

(** Every node in the flat view of a tree that the calls make has a path:
    [RestoreSelection] returns on these trees. *)
Lemma paths_defined (containers : list docker.ContainerInfo) (calls : list treeCall)
    (h : list model.TreeNode) (t : model.Tree) :
  treeAfter containers calls = Some (h, t) →
  Forall (λ node, is_Some (model.GetNodePath h (Some node))) (model.Flat t).
Proof.
  intros Hafter.
  destruct (treeAfter_treeFrom containers calls) as (h' & t' & Hafter' & gs & Ht & _).
  rewrite Hafter in Hafter'. injection Hafter' as <- <-. destruct Ht as (-> & _ & ->).
  apply Forall_forall. intros node Hin%flatOf_lt. apply GetNodePath_layout.
  rewrite length_layout. lia.
Qed.

(** The selection of every such tree is an index of its flat view, or
    [0] when that is empty. *)
Lemma treeAfter_selectionOk (containers : list docker.ContainerInfo) (calls : list treeCall)
    (h : list model.TreeNode) (t : model.Tree) :
  treeAfter containers calls = Some (h, t) → selectionOk t.
Proof.
  intros Hafter.
  destruct (treeAfter_treeFrom containers calls) as (h' & t' & Hafter' & gs & _ & _ & Hsel).
  rewrite Hafter in Hafter'. by injection Hafter' as <- <-.
Qed.

(** ** The containers of a built tree *)

Lemma concat_perm {A} (l1 l2 : list (list A)) : l1 ≡ₚ l2 → concat l1 ≡ₚ concat l2.
Proof.
  induction 1 as [|x l1 l2 _ IH|x y l|l1 l2 l3 _ IH1 _ IH2]; cbn [concat].
  - done.
  - by rewrite IH.
  - rewrite !(assoc_L (++)). f_equiv. apply Permutation_app_comm.
  - by etrans.
Qed.

Lemma concat_fmap_perm {A B} (f g : A → list B) (l : list A) :
  (∀ x, x ∈ l → f x ≡ₚ g x) → concat (f <$> l) ≡ₚ concat (g <$> l).
Proof.
  induction l as [|x l IH]; intros Hfg; [done|]. cbn [fmap list_fmap concat].
  rewrite Hfg by left. f_equiv. apply IH. intros y Hy. apply Hfg. by right.
Qed.

Lemma groupContainer_values (projects : gmap string (list docker.ContainerInfo))
    (c : docker.ContainerInfo) :
  concat (map_to_list (model.groupContainer projects c)).*2
  ≡ₚ concat (map_to_list projects).*2 ++ [c].
Proof.
  unfold model.groupContainer.
  set (k := model.ParseProjectName (docker.Name c)).
  destruct (projects !! k) as [l|] eqn:Hk; cbn [default].
  - rewrite <- insert_delete_eq, map_to_list_insert by apply lookup_delete_eq.
    rewrite <- (map_to_list_delete projects k l Hk).
    cbn [fmap list_fmap snd concat]. rewrite <- !(assoc_L (++)).
    apply Permutation_app_head, Permutation_app_comm.
  - rewrite map_to_list_insert by done. cbn [fmap list_fmap snd concat app].
    apply Permutation_cons_append.
Qed.

Lemma groupContainers_values (projects : gmap string (list docker.ContainerInfo))
    (cs : list docker.ContainerInfo) :
  concat (map_to_list (foldl model.groupContainer projects cs)).*2
  ≡ₚ concat (map_to_list projects).*2 ++ cs.
Proof.
  revert projects. induction cs as [|c cs IH]; intros projects; cbn [foldl].
  - by rewrite (right_id_L [] (++)).
  - rewrite IH, groupContainer_values, <- (assoc_L (++)). done.
Qed.

(** The groups of [BuildTree] hold the containers of the list, each once. *)
Lemma groupsOf_perm (cs : list docker.ContainerInfo) :
  concat (p_containers <$> groupsOf cs) ≡ₚ cs.
Proof.
  unfold groupsOf. set (projects := foldl model.groupContainer ∅ cs).
  rewrite <- list_fmap_compose.
  rewrite (concat_perm _ _ (fmap_Permutation _ _ _ (sort_Strings_perm _))).
  rewrite (concat_fmap_perm _ (λ k, default [] (projects !! k))).
  2:{ intros k _. cbn. apply sort_Slice_perm. }
  transitivity (concat (map_to_list projects).*2).
  - apply reflexive_eq. f_equal. rewrite <- list_fmap_compose.
    apply list_fmap_ext. intros i [k l] Hkl. cbn.
    apply list_elem_of_lookup_2, elem_of_map_to_list in Hkl. by rewrite Hkl.
  - subst projects. rewrite groupContainers_values, map_to_list_empty. done.
Qed.

(** The containers of the container nodes of a layout. *)
Lemma bodyNodes_containers (base : nat) (gs : list project) :
  omap model.Container (bodyNodes base gs) = concat (p_containers <$> gs).
Proof.
  revert base. induction gs as [|g gs IH]; intros base; [done|].
  cbn [bodyNodes fmap list_fmap concat]. rewrite omap_app, IH. f_equal.
  unfold projectNodes. cbn [omap list_omap projectNode model.Container].
  induction (p_containers g) as [|c l IHl]; [done|].
  cbn [fmap list_fmap omap list_omap containerNode model.Container]. by f_equal.
Qed.

Lemma layout_containers (gs : list project) :
  omap model.Container (layout gs) = concat (p_containers <$> gs).
Proof. unfold layout. cbn [omap list_omap rootNode model.Container]. apply bodyNodes_containers. Qed.

(** * The properties of the specification *)

(** ** The flattened view *)

(** C1 (amended).  For every container list in which no container's
    project name is ["root"], the flattened view after a build and after
    any sequence of selection moves and expansion toggles contains no node
    named ["root"] (every entry of the view being a node); its length is the number of project nodes plus the
    number of container nodes whose project is expanded; and a collapsed
    project has exactly one entry (itself) and none for its containers. *)
Theorem flat_view_after_calls (containers : list docker.ContainerInfo) (calls : list treeCall) :
  Forall (λ c, model.ParseProjectName (docker.Name c) ≠ "root") containers →
  ∃ h t,
    treeAfter containers calls = Some (h, t) ∧
    length (namesOf h (model.Flat t)) = length (model.Flat t) ∧
    ("root" ∉ namesOf h (model.Flat t)) ∧
    length (model.Flat t)
    = length (projectsOf h t) + sum_list_with (expandedContainers h) (projectsOf h t) ∧
    ∀ p n, p ∈ projectsOf h t → h !! p = Some n → model.Expanded n = false →
           occurrences p (model.Flat t) = 1 ∧ ∀ c, c ∈ model.Children n → c ∉ model.Flat t.
Proof.
  intros Hcs. destruct (treeAfter_treeFrom containers calls) as (h & t & Hafter & Hfrom).
  exists h, t. split; [done|]. by apply (flat_view_of_tree containers).
Qed.

Lemma flat_view_after_calls_witness :
  ∃ h t,
    treeAfter exampleContainers [CallToggleExpanded] = Some (h, t) ∧
    length (namesOf h (model.Flat t)) = length (model.Flat t) ∧
    ("root" ∉ namesOf h (model.Flat t)) ∧
    length (model.Flat t)
    = length (projectsOf h t) + sum_list_with (expandedContainers h) (projectsOf h t) ∧
    ∀ p n, p ∈ projectsOf h t → h !! p = Some n → model.Expanded n = false →
           occurrences p (model.Flat t) = 1 ∧ ∀ c, c ∈ model.Children n → c ∉ model.Flat t.
Proof.
  apply (flat_view_after_calls exampleContainers [CallToggleExpanded]).
  repeat constructor; vm_compute; discriminate.
Defined.

(** C1, as stated, fails for a container named ["root"]: its project node
    is left out of the flattened view as if it were the root, while the
    container node, named ["root"], is in it; the view has one entry for
    one project and one container of an expanded project. *)
Lemma flat_view_root_counterexample :
  ∃ h t,
    treeAfter [containerNamed "root"] [] = Some (h, t) ∧
    namesOf h (model.Flat t) = ["root"] ∧
    length (model.Flat t) = 1 ∧
    length (projectsOf h t) + sum_list_with (expandedContainers h) (projectsOf h t) = 2.
Proof. eexists _, _. split; [vm_compute; reflexivity|]. by vm_compute. Qed.

(** ** The CPU percentage *)

(** The examples of the specification: counters that advance by 40 of
    100 on two CPUs give 80 percent, and no advance of the system counter
    gives 0. *)
Example cpuPercent_80 : docker.cpuPercent (cpuCounters 240 200 1100 1000 2) = 80%float.
Proof. by vm_compute. Qed.

Example cpuPercent_no_system_delta :
  docker.cpuPercent (cpuCounters 240 200 1000 1000 2) = 0%float.
Proof. by vm_compute. Qed.

(** C2 (the code departs from the claim).  With a total CPU usage of 100
    after a previous one of 200, the system counter advancing by 1000, on
    one CPU, the claim gives 0 percent.  The code subtracts the unsigned
    counters before converting, so the difference wraps around to
    [2^64 - 100] and the percentage is [1844674407370955264], which is
    more than [10^18]. *)
Theorem cpuPercent_counter_reset :
  docker.cpuPerc (docker.getContainerStats counterResetClient "aaaaaaaaaaaaaaaa")
  = docker.cpuPercent counterReset ∧
  docker.cpuPercent counterReset = float64_of_Z 1844674407370955264 ∧
  (float64_of_Z (10 ^ 18) <? docker.cpuPercent counterReset)%float = true ∧
  docker.cpuPercent counterReset ≠ 0%float.
Proof. split_and!; [by vm_compute..|]. vm_compute. discriminate. Qed.

(** ** The viewport invariant *)

(** C3.  Take a model whose selection is an index of its flat view (or
    [0] if that is empty) and whose viewport top is an [int].  After any
    sequence of [MoveUp], [MoveDown] and [adjustViewport] calls that ends
    with [adjustViewport], if the flat view is not empty then
    [top <= selected < top + visibleHeight] and [0 <= top]; if it is empty
    the calls leave the model, and so the viewport, as it was.  [MoveUp]
    takes the selection to [max 0 (selected - 1)], and on a non-empty view
    of [int] length [MoveDown] takes it to
    [min (len(Flat) - 1) (selected + 1)]; on an empty view neither does
    anything. *)
Theorem viewport_invariant (m : ui.Model) (t : model.Tree) (calls : list ui.call) :
  ui.tree m = Some t →
  selectionOk t →
  is_int (ui.viewportTop m) →
  (∃ m' t',
     ui.run m (calls ++ [ui.AdjustViewport]) = Some m' ∧
     ui.tree m' = Some t' ∧
     model.Flat t' = model.Flat t ∧
     (model.Flat t ≠ [] →
        (ui.viewportTop m' ≤ model.Selected t' < ui.viewportTop m' + ui.visibleHeight m')%Z ∧
        (0 ≤ ui.viewportTop m')%Z) ∧
     (model.Flat t = [] → m' = m)) ∧
  model.Selected (model.MoveUp t) = Z.max 0 (model.Selected t - 1) ∧
  (model.Flat t ≠ [] → is_int (model.lenFlat t) →
     model.Selected (model.MoveDown t)
     = Z.min (model.lenFlat t - 1) (model.Selected t + 1)) ∧
  (model.Flat t = [] →
     model.MoveUp t = t ∧ model.MoveDown t = t ∧ ui.adjustViewport m = m).
Proof.
  intros Htree Hsel Htop. split_and!.
  - destruct (ui_run_spec m t calls Htree Hsel Htop)
      as (m1 & t1 & Hrun & Htree1 & Hflat1 & Hsel1 & Htop1 & Hh1 & He1).
    rewrite ui_run_app, Hrun. cbn [mbind option_bind]. unfold ui.run. cbn [model.for_each ui.step].
    exists (ui.adjustViewport m1), t1.
    destruct (decide (model.Flat t = [])) as [Hflat|Hflat].
    + rewrite (empty_flat_adjustViewport m1 t1 Htree1) by congruence.
      split_and!; try done; intros _; by apply He1.
    + destruct Hsel1 as [Hsel1 _].
      destruct (adjustViewport_spec m1 t1 Htree1) as (_ & ? & _ & _ & _ & ? & ?);
        [congruence|done|done|]. by split_and!.
  - apply MoveUp_Selected. by destruct Hsel.
  - intros Hflat Hlen. apply MoveDown_Selected; [|done].
    destruct Hsel as [Hsel [Hlt| ->]]; [lia|].
    unfold model.lenFlat. destruct (model.Flat t); [done|]. cbn [length]. lia.
  - intros Hflat. destruct (empty_flat_moves t Hsel Hflat) as [-> ->].
    by rewrite (empty_flat_adjustViewport m t Htree Hflat).
Qed.

Lemma viewport_invariant_witness :
  (∃ m' t',
     ui.run exampleModel
       ([ui.MoveDown; ui.MoveDown; ui.MoveDown; ui.AdjustViewport; ui.MoveUp]
        ++ [ui.AdjustViewport]) = Some m' ∧
     ui.tree m' = Some t' ∧
     model.Flat t' = model.Flat exampleTree ∧
     (model.Flat exampleTree ≠ [] →
        (ui.viewportTop m' ≤ model.Selected t' < ui.viewportTop m' + ui.visibleHeight m')%Z ∧
        (0 ≤ ui.viewportTop m')%Z) ∧
     (model.Flat exampleTree = [] → m' = exampleModel)) ∧
  model.Selected (model.MoveUp exampleTree) = Z.max 0 (model.Selected exampleTree - 1) ∧
  (model.Flat exampleTree ≠ [] → is_int (model.lenFlat exampleTree) →
     model.Selected (model.MoveDown exampleTree)
     = Z.min (model.lenFlat exampleTree - 1) (model.Selected exampleTree + 1)) ∧
  (model.Flat exampleTree = [] →
     model.MoveUp exampleTree = exampleTree ∧ model.MoveDown exampleTree = exampleTree ∧
     ui.adjustViewport exampleModel = exampleModel).
Proof.
  apply (viewport_invariant exampleModel exampleTree
           [ui.MoveDown; ui.MoveDown; ui.MoveDown; ui.AdjustViewport; ui.MoveUp]).
  - reflexivity.
  - unfold selectionOk, model.lenFlat. simpl. lia.
  - unfold is_int. simpl. lia.
Defined.

(** The viewport of the example after these calls: the selection is at
    index 2 and the two visible lines start there. *)
Example viewport_example :
  ui.run exampleModel
    [ui.MoveDown; ui.MoveDown; ui.MoveDown; ui.AdjustViewport; ui.MoveUp; ui.AdjustViewport]
  = Some {| ui.nodes := exampleStore;
            ui.tree := Some (model.set_Selected 2 exampleTree);
            ui.width := 80; ui.height := 7; ui.viewportTop := 2 |}.
Proof. by vm_compute. Qed.

(** ** The order of the tree *)

(** C4.  In the tree built from any container list the project children
    of the root are in ascending byte-wise order of their names (strictly,
    the names being distinct), and the container children of every project
    are in ascending byte-wise order of their names.  For the containers
    ["shopapp_web_1"], ["shopapp_db_1"], ["standalone"] the projects are
    ["shopapp"], ["standalone"] and the children of ["shopapp"] are
    ["shopapp_db_1"], ["shopapp_web_1"]. *)
Theorem BuildTree_sorted (containers : list docker.ContainerInfo) :
  (∃ h t,
     model.BuildTree containers = Some (h, t) ∧
     length (namesOf h (projectsOf h t)) = length (projectsOf h t) ∧
     StronglySorted string_lt (namesOf h (projectsOf h t)) ∧
     Forall (λ p, ∃ n, h !! p = Some n ∧
                       length (childNames h p) = length (model.Children n) ∧
                       StronglySorted string_le (childNames h p))
            (projectsOf h t)) ∧
  (∃ h t shopapp standalone,
     model.BuildTree exampleContainers = Some (h, t) ∧
     projectsOf h t = [shopapp; standalone] ∧
     namesOf h [shopapp; standalone] = ["shopapp"; "standalone"] ∧
     childNames h shopapp = ["shopapp_db_1"; "shopapp_web_1"]).
Proof.
  split; [|eexists _, _, _, _; split; [vm_compute; reflexivity|]; by vm_compute].
  eexists _, _. split; [apply BuildTree_layout|].
  rewrite (projectsOf_layout (groupsOf containers)) by done.
  rewrite (namesOf_projects _ _ _ (holds_layout _)). split_and!.
  - by rewrite length_fmap, length_projectAddrs.
  - apply groupsOf_names.
  - apply Forall_forall. intros p (gs1 & g & gs2 & Hgs & ->)%projectAddrs_elem.
    rewrite Hgs. change (1 + bodySize gs1) with (S (bodySize gs1)).
    rewrite childNames_project, layout_lookup_project. eexists. split; [done|].
    cbn [projectNode model.Children]. rewrite length_fmap, length_seq. split; [done|].
    apply (groupsOf_elem containers g). rewrite Hgs. set_solver.
Qed.

(** ** Project names *)

(** C5.  [ParseProjectName] returns the part of the name before the first
    underscore if there is an underscore; otherwise the part before the
    first dash if there is a dash; otherwise the name itself, unchanged.
    In particular ["shopapp_web_1"] and ["shopapp-db-1"] give ["shopapp"],
    ["standalone"] gives ["standalone"] and ["a_b-c"] gives ["a"]. *)
Theorem ParseProjectName_spec (name : string) :
  (∀ pre post, name = pre +:+ String "_" post → has_byte "_" pre = false →
     model.ParseProjectName name = pre) ∧
  (has_byte "_" name = false →
     ∀ pre post, name = pre +:+ String "-" post → has_byte "-" pre = false →
       model.ParseProjectName name = pre) ∧
  (has_byte "_" name = false → has_byte "-" name = false →
     model.ParseProjectName name = name) ∧
  model.ParseProjectName "shopapp_web_1" = "shopapp" ∧
  model.ParseProjectName "shopapp-db-1" = "shopapp" ∧
  model.ParseProjectName "standalone" = "standalone" ∧
  model.ParseProjectName "a_b-c" = "a".
Proof.
  unfold model.ParseProjectName, strings.slice_to. split_and!; try done.
  - intros pre post -> Hpre. rewrite (Index_byte_first "_" pre post Hpre).
    apply substring_0_app.
  - intros Hname pre post -> Hpre. rewrite (Index_byte_absent "_" _ Hname).
    rewrite (Index_byte_first "-" pre post Hpre). apply substring_0_app.
  - intros Hu Hd. by rewrite (Index_byte_absent "_" _ Hu), (Index_byte_absent "-" _ Hd).
Qed.

Lemma ParseProjectName_spec_witness :
  model.ParseProjectName "web-1_a" = "web-1" ∧
  model.ParseProjectName "web-1" = "web" ∧
  model.ParseProjectName "web" = "web".
Proof.
  split_and!.
  - apply (proj1 (ParseProjectName_spec "web-1_a") "web-1" "a"); reflexivity.
  - apply (proj1 (proj2 (ParseProjectName_spec "web-1")) eq_refl "web" "1"); reflexivity.
  - apply (proj1 (proj2 (proj2 (ParseProjectName_spec "web")))); reflexivity.
Defined.

(** ** The merge of the statistics *)

(** C6.  In a refresh with statistics, whatever the order in which the
    samples arrive, the listing has one record for every container the
    runtime lists, in the runtime's order; the record at index [i]
    describes container [i] and has, if that container is running, the
    figures of the runtime's reply to the request for that container's
    statistics: the placeholders (0 CPU percent, 0 memory percent,
    ["N/A"] usage, 0 network counters) if the request fails or the body
    does not decode, zeros with the usage ["0 B / 0 B"] if the body is
    empty, and else the figures of the response; a container that is not
    running has the placeholders.  So the record of a container is the
    same with every runtime that lists the same containers and replies
    the same for this one, whatever it replies for the others and
    whatever the order of arrival. *)
Theorem stats_fan_in (c : docker.Client) (containers : list docker.Summary) (choices : list nat) :
  docker.ContainerList c {| docker.All := false |} = inr containers →
  Forall wellFormed containers →
  ∃ result,
    docker.ListContainersWithStats c choices true = Ok result ∧
    length result = length containers ∧
    (∀ i ctr, containers !! i = Some ctr →
       ∃ record,
         result !! i = Some record ∧
         describes ctr record ∧
         figures record
         = if String.eqb (docker.sum_State ctr) "running"
           then sampled (docker.ContainerStats c (docker.sum_ID ctr))
           else placeholders) ∧
    (∀ c' choices',
       docker.ContainerList c' {| docker.All := false |} = inr containers →
       ∃ result',
         docker.ListContainersWithStats c' choices' true = Ok result' ∧
         ∀ i ctr, containers !! i = Some ctr →
           docker.ContainerStats c' (docker.sum_ID ctr)
           = docker.ContainerStats c (docker.sum_ID ctr) →
           result' !! i = result !! i).
Proof.
  intros Hlist Hwf.
  destruct (ListContainersWithStats_records c containers choices Hlist Hwf)
    as (result & Hres & Hlen & Hall).
  exists result. split; [done|]. split; [done|]. split.
  { intros i ctr Hi. destruct (Hall i ctr Hi) as (info & Hinfo & ->).
    eexists. split; [done|]. by apply merged_record. }
  intros c' choices' Hlist'.
  destruct (ListContainersWithStats_records c' containers choices' Hlist' Hwf)
    as (result' & Hres' & Hlen' & Hall').
  exists result'. split; [done|]. intros i ctr Hi Hsame.
  destruct (Hall i ctr Hi) as (info & Hinfo & ->).
  destruct (Hall' i ctr Hi) as (info' & Hinfo' & ->).
  destruct (merged_record c i ctr info Hinfo) as [Hd Hf].
  destruct (merged_record c' i ctr info' Hinfo') as [Hd' Hf'].
  f_equal. apply (describes_figures_eq ctr); [done|done|]. by rewrite Hf, Hf', Hsame.
Qed.

Lemma stats_fan_in_witness :
  ∃ result,
    docker.ListContainersWithStats exampleClient [2; 0] true = Ok result ∧
    length result = length exampleSummaries ∧
    (∀ i ctr, exampleSummaries !! i = Some ctr →
       ∃ record,
         result !! i = Some record ∧
         describes ctr record ∧
         figures record
         = if String.eqb (docker.sum_State ctr) "running"
           then sampled (docker.ContainerStats exampleClient (docker.sum_ID ctr))
           else placeholders) ∧
    (∀ c' choices',
       docker.ContainerList c' {| docker.All := false |} = inr exampleSummaries →
       ∃ result',
         docker.ListContainersWithStats c' choices' true = Ok result' ∧
         ∀ i ctr, exampleSummaries !! i = Some ctr →
           docker.ContainerStats c' (docker.sum_ID ctr)
           = docker.ContainerStats exampleClient (docker.sum_ID ctr) →
           result' !! i = result !! i).
Proof.
  apply (stats_fan_in exampleClient exampleSummaries [2; 0]).
  - reflexivity.
  - repeat constructor; try discriminate; simpl; lia.
Defined.

(** C6, as stated, fails for a response with an empty body: it is a
    malformed response, yet the record of the container does not get the
    placeholders; its usage is ["0 B / 0 B"], not ["N/A"]. *)
Lemma stats_empty_body_counterexample :
  ∃ ctr record,
    docker.ContainerList emptyBodyClient {| docker.All := false |} = inr [ctr] ∧
    docker.sum_State ctr = "running" ∧
    samplingFails emptyBodyClient (docker.sum_ID ctr) ∧
    docker.ListContainersWithStats emptyBodyClient [] true = Ok [record] ∧
    docker.MemUsage record = "0 B / 0 B" ∧
    docker.MemUsage record ≠ "N/A".
Proof.
  eexists _, _. split; [reflexivity|]. split; [reflexivity|]. split; [exact I|].
  split; [vm_compute; reflexivity|]. split; [reflexivity|discriminate].
Qed.

(** An empty body is no failure for [getContainerStats] ([io.EOF] is let
    through): the figures are those of the zero response. *)
Example getContainerStats_empty_body :
  docker.getContainerStats emptyBodyClient "aaaaaaaaaaaaaaaa"
  = {| docker.cpuPerc := 0; docker.memPerc := 0; docker.memUsage := "0 B / 0 B";
       docker.netRx := 0; docker.netTx := 0 |}.
Proof. by vm_compute. Qed.

(** The example of the specification: of three running containers the
    second cannot be sampled; it keeps the placeholders, the others get
    their figures, and all three are listed, in any order of arrival. *)
Example stats_fan_in_example :
  (λ info, (docker.Name info, docker.CPUPerc info, docker.MemPerc info, docker.MemUsage info,
            docker.NetRx info, docker.NetTx info))
  <$> (match docker.ListContainersWithStats exampleClient [1; 1] true with
       | Ok result => result
       | _ => []
       end)
  = [ ("shopapp_web_1", 80%float, 25%float, "512.0 MiB / 2.0 GiB", 1000%Z, 2000%Z);
      ("shopapp_db_1", 0%float, 0%float, "N/A", 0%Z, 0%Z);
      ("standalone", 80%float, 25%float, "512.0 MiB / 2.0 GiB", 1000%Z, 2000%Z) ].
Proof. by vm_compute. Qed.

(** ** Restoring the selection *)

(** C7 (amended).  For every tree and every non-empty path string,
    [RestoreSelection] searches the flattened view for a node whose path
    is the argument and sets the selection to the index of the first such
    node; if there is none it leaves the selection as it is, unless that
    is at or past the length of the flattened view, in which case it sets
    it to [0].  For the empty path string it leaves the tree as it is.
    (The paths of the nodes of the view are taken to be defined, as they
    are in every tree whose parent links end at a root.) *)
Theorem RestoreSelection_spec (h : list model.TreeNode) (t : model.Tree) (path : string) :
  Forall (λ node, is_Some (model.GetNodePath h (Some node))) (model.Flat t) →
  ∃ t',
    model.RestoreSelection h t path = Some t' ∧
    model.Root t' = model.Root t ∧
    model.Flat t' = model.Flat t ∧
    (path = "" → t' = t) ∧
    (path ≠ "" →
       (∃ k node,
          model.Flat t !! k = Some node ∧
          model.GetNodePath h (Some node) = Some path ∧
          (∀ j node', j < k → model.Flat t !! j = Some node' →
                      model.GetNodePath h (Some node') ≠ Some path) ∧
          model.Selected t' = Z.of_nat k)
       ∨ ((∀ node, node ∈ model.Flat t → model.GetNodePath h (Some node) ≠ Some path) ∧
          model.Selected t'
          = if (model.lenFlat t <=? model.Selected t)%Z then 0%Z else model.Selected t)).
Proof.
  intros Hdef. unfold model.RestoreSelection.
  destruct (String.eqb_spec path "") as [->|Hpath]; [by exists t|].
  destruct (searchPath_spec h path (model.Flat t) 0 Hdef)
    as [(k & node & -> & Hk & Hp & Hfirst)|[-> Hnone]].
  - eexists. split; [done|]. split_and!; try done. intros _. left. by exists k, node.
  - destruct (_ <=? _)%Z; eexists; (split; [done|]); split_and!; try done; intros _; by right.
Qed.

Lemma RestoreSelection_spec_witness :
  ∃ t',
    model.RestoreSelection exampleStore exampleTree "standalone/standalone" = Some t' ∧
    model.Selected t' = 4%Z.
Proof.
  destruct (RestoreSelection_spec exampleStore exampleTree "standalone/standalone")
    as (t' & Hrestore & _).
  - repeat constructor; vm_compute; eauto.
  - exists t'. split; [done|].
    assert (Some t' = Some (model.set_Selected 4 exampleTree)) as [= ->]; [|done].
    rewrite <- Hrestore. by vm_compute.
Defined.

(** C7, as stated, fails for the empty path: [RestoreSelection] returns at
    once and an out-of-bounds selection is not reset, although no node has
    that path. *)
Lemma RestoreSelection_empty_path_counterexample :
  (∀ node, node ∈ model.Flat exampleTree →
           model.GetNodePath exampleStore (Some node) ≠ Some "") ∧
  (model.lenFlat (model.set_Selected 7 exampleTree)
   ≤ model.Selected (model.set_Selected 7 exampleTree))%Z ∧
  model.RestoreSelection exampleStore (model.set_Selected 7 exampleTree) ""
  = Some (model.set_Selected 7 exampleTree) ∧
  model.Selected (model.set_Selected 7 exampleTree) ≠ 0%Z.
Proof.
  split_and!; try done.
  intros node Hin. cbn [exampleTree model.Flat] in Hin.
  repeat (apply elem_of_cons in Hin as [->|Hin]; [by vm_compute|]).
  by apply elem_of_nil in Hin.
Qed.

(** ** Collapsing and expanding *)

(** C8.  When the selected node of a tree is a project, [ToggleExpanded]
    on a collapsed project puts the entries of its children right after
    its own entry, and on an expanded project takes exactly these entries
    away; all other entries stay, in their order.  A second
    [ToggleExpanded] gives back the store and the tree, and so the
    flattened view, as they were. *)
Theorem toggle_collapse_expand (containers : list docker.ContainerInfo) (calls : list treeCall)
    (h : list model.TreeNode) (t : model.Tree) (node : nat) (n : model.TreeNode) :
  treeAfter containers calls = Some (h, t) →
  model.GetSelected t = Some node →
  h !! node = Some n →
  model.Type_ n = model.NodeTypeProject →
  ∃ h1 t1 pre post,
    model.ToggleExpanded h t = Some (h1, t1) ∧
    model.ToggleExpanded h1 t1 = Some (h, t) ∧
    model.Flat (if model.Expanded n then t else t1) = pre ++ node :: model.Children n ++ post ∧
    model.Flat (if model.Expanded n then t1 else t) = pre ++ node :: post.
Proof.
  intros Hafter Hsel Hn Hty.
  destruct (treeAfter_treeFrom containers calls) as (h' & t' & Hafter' & gs & Ht & _).
  rewrite Hafter in Hafter'. injection Hafter' as <- <-.
  destruct (selected_project gs h t node n Ht Hsel Hn Hty)
    as (gs1 & g & gs2 & -> & -> & -> & Hname).
  destruct Ht as (-> & Hroot & Hflat).
  pose proof (selected_project_index gs1 gs2 g t Hflat Hname Hsel) as Hidx.
  eexists _, _, (flatOf 1 gs1), (flatOf (S (bodySize gs1) + projectSize g) gs2).
  split; [by apply ToggleExpanded_project|]. split.
  - rewrite ToggleExpanded_project.
    + f_equal. f_equal.
      * cbn [withExpanded p_expanded]. rewrite negb_involutive. by destruct g.
      * cbn [withExpanded p_expanded]. rewrite negb_involutive.
        replace (withExpanded (p_expanded g) (withExpanded (negb (p_expanded g)) g)) with g
          by (by destruct g).
        rewrite <- Hflat. by destruct t.
    + done.
    + eapply GetSelected_at; [|exact Hidx]. cbn [model.set_Flat model.Flat].
      by rewrite (flatOf_project gs1 gs2 (withExpanded _ g)).
  - cbn [projectNode model.Expanded model.Children].
    destruct (p_expanded g) eqn:Hexp; cbn [model.set_Flat model.Flat]; rewrite Hflat;
      rewrite (flatOf_project gs1 gs2 g), ?(flatOf_project gs1 gs2 (withExpanded _ g)) by done;
      cbn [withExpanded p_expanded p_containers negb]; by rewrite Hexp.
Qed.

Lemma toggle_collapse_expand_witness :
  ∃ h1 t1 pre post,
    model.ToggleExpanded exampleStore exampleTree = Some (h1, t1) ∧
    model.ToggleExpanded h1 t1 = Some (exampleStore, exampleTree) ∧
    model.Flat exampleTree = pre ++ 1 :: [2; 3] ++ post ∧
    model.Flat t1 = pre ++ 1 :: post.
Proof.
  exact (toggle_collapse_expand exampleContainers [] exampleStore exampleTree 1
           {| model.Type_ := model.NodeTypeProject; model.Name := "shopapp";
              model.Container := None; model.Children := [2; 3];
              model.Expanded := true; model.Parent := Some 0 |}
           eq_refl eq_refl eq_refl eq_refl).
Defined.

(** ** The command line *)

(** C9.  With the version flag the program prints the version string and
    exits with status 0, without creating a client.  Otherwise, if the
    client cannot be created the program exits with status 1.
    Otherwise, in list mode (either list flag), if the listing succeeds
    the program prints the snapshot of the tree built from it, once, and
    exits with status 0; if the listing fails, as it does when the
    runtime cannot be reached, it prints no snapshot and exits with
    status 1.  Otherwise the interactive program runs, whatever the
    runtime answers, and the status is 0 unless the interactive program
    returns an error, and 1 then. *)
Theorem main_exit_status (w : main.World) :
  (main.flag_version (main.flags w) = true →
     main.main w
     = ([main.Println "dtop v0.1.0";
         main.Println "Docker container monitor - https://github.com/ekinertac/dtop"], 0%Z)) ∧
  (main.flag_version (main.flags w) = false →
     ∀ err, main.NewClient w = inl err →
       (main.main w).2 = 1%Z ∧ filter isSnapshot (main.main w).1 = []) ∧
  (main.flag_version (main.flags w) = false →
     main.flag_list (main.flags w) || main.flag_l (main.flags w) = true →
     ∀ dockerClient, main.NewClient w = inr dockerClient →
       (∀ containers,
          docker.ListContainers dockerClient (main.choices w) = Ok containers →
          ∃ h tree, model.BuildTree containers = Some (h, tree) ∧
                    main.main w = ([main.PrintSnapshot h tree], 0%Z)) ∧
       (∀ err,
          docker.ListContainers dockerClient (main.choices w) = Err err →
          (main.main w).2 = 1%Z ∧ filter isSnapshot (main.main w).1 = []) ∧
       (unreachable dockerClient →
          (main.main w).2 = 1%Z ∧ filter isSnapshot (main.main w).1 = [])) ∧
  (main.flag_version (main.flags w) = false →
     main.flag_list (main.flags w) || main.flag_l (main.flags w) = false →
     ∀ dockerClient, main.NewClient w = inr dockerClient →
       main.main w
       = match main.Run w with
         | None => ([main.RunProgram], 0%Z)
         | Some err =>
             ([main.RunProgram;
               main.Printf ("Error running program: " +:+ err +:+ String "010" "")], 1%Z)
         end).
Proof.
  unfold main.main. split_and!.
  - by intros ->.
  - by intros -> err ->.
  - intros -> -> dockerClient ->. split_and!.
    + intros containers ->. rewrite BuildTree_layout. by eexists _, _.
    + by intros err ->.
    + intros [Hlist _]. destruct (Hlist {| docker.All := false |}) as [err Herr].
      unfold docker.ListContainers, docker.ListContainersWithStats. by rewrite Herr.
  - intros -> -> dockerClient ->. by destruct (main.Run w).
Qed.

Lemma main_exit_status_witness :
  (∃ h tree, main.main (listWorld exampleClient) = ([main.PrintSnapshot h tree], 0%Z)) ∧
  (main.main (listWorld unlistableClient)).2 = 1%Z.
Proof.
  split.
  - destruct (proj1 (proj1 (proj2 (proj2 (main_exit_status (listWorld exampleClient))))
                       eq_refl eq_refl exampleClient eq_refl)
                    (match docker.ListContainers exampleClient [] with Ok r => r | _ => [] end))
      as (h & tree & _ & Hmain); [by vm_compute|].
    by exists h, tree.
  - exact (proj1 (proj1 (proj2 (proj1 (proj2 (proj2 (main_exit_status (listWorld unlistableClient))))
                                   eq_refl eq_refl unlistableClient eq_refl))
                   "cannot list" eq_refl)).
Defined.

(** C9, as stated, fails for the interactive mode: creating the client
    does not contact the runtime, so with a runtime that cannot be
    reached the program starts the interactive program all the same and
    exits with status 0 when that returns.  There the first listing comes
    back as an error message, which [Update] keeps for the view; it
    returns no command to quit. *)
Lemma main_unreachable_counterexample :
  unreachable unlistableClient ∧
  main.main (interactiveWorld unlistableClient) = ([main.RunProgram], 0%Z) ∧
  ui.refreshMsg unlistableClient [] false = Ok (ui.errMsg "cannot list") ∧
  ui.Update ui.NewModel (ui.errMsg "cannot list")
  = Some (ui.set_err (Some "cannot list") ui.NewModel, None).
Proof.
  split_and!; try reflexivity.
  split; [intros options|intros containerID]; by eexists.
Qed.

(** ** Running containers only *)

(** C10.  [ListContainersWithStats] and both versions of [ListContainers]
    ask the runtime for the list with [All: false] and in no other way:
    they return what they return with a runtime that answers every list
    request as it answers that one.  They select nothing themselves: the
    records returned are the entries of the runtime's answer to that
    request, one for one and in order, each in the state of its entry,
    and the containers of the tree built from the records are these
    records.  So the records all have the state ["running"] exactly if
    the entries of the runtime's answer all have. *)
Theorem listing_running_only (c : docker.Client) (choices : list nat) (includeStats : bool)
    (infos : list docker.ContainerInfo) :
  docker.ListContainersWithStats c choices includeStats = Ok infos ∨
  docker.ListContainers c choices = Ok infos ∨
  docker.v0.ListContainers c = Ok infos →
  (∃ containers,
     docker.ContainerList c {| docker.All := false |} = inr containers ∧
     docker.State <$> infos = docker.sum_State <$> containers ∧
     (Forall (λ info, docker.State info = "running") infos ↔
      Forall (λ ctr, docker.sum_State ctr = "running") containers)) ∧
  (∃ h t, model.BuildTree infos = Some (h, t) ∧ omap model.Container h ≡ₚ infos) ∧
  docker.ListContainersWithStats (docker.runningOnly c) choices includeStats
  = docker.ListContainersWithStats c choices includeStats ∧
  docker.ListContainers (docker.runningOnly c) choices = docker.ListContainers c choices ∧
  docker.v0.ListContainers (docker.runningOnly c) = docker.v0.ListContainers c.
Proof.
  intros Hlisted.
  assert (∃ containers, docker.ContainerList c {| docker.All := false |} = inr containers ∧
            docker.State <$> infos = docker.sum_State <$> containers)
    as (containers & Hlist & Hstate).
  { destruct Hlisted as [H|[H|H]].
    - by eapply ListContainersWithStats_State.
    - by eapply ListContainersWithStats_State.
    - unfold docker.v0.ListContainers in H.
      destruct (docker.ContainerList c _) as [err|containers]; [done|].
      exists containers. split; [done|]. by apply v0_infos_State. }
  split.
  { exists containers. split; [done|]. split; [done|].
    rewrite <- (Forall_fmap docker.State (λ s, s = "running")), Hstate.
    by rewrite (Forall_fmap docker.sum_State (λ s, s = "running")). }
  split.
  { eexists _, _. split; [apply BuildTree_layout|].
    rewrite layout_containers. apply groupsOf_perm. }
  assert (∀ b, docker.ListContainersWithStats (docker.runningOnly c) choices b
               = docker.ListContainersWithStats c choices b) as Hsame.
  { intros b. unfold docker.ListContainersWithStats. cbn [docker.runningOnly docker.ContainerList].
    destruct (docker.ContainerList c _) as [err|cs]; [done|].
    by rewrite statsSent_runningOnly. }
  split_and!; [apply Hsame|apply Hsame|done].
Qed.

Lemma listing_running_only_witness :
  ∃ infos,
    docker.ListContainers exampleClient [1] = Ok infos ∧
    (∃ containers,
       docker.ContainerList exampleClient {| docker.All := false |} = inr containers ∧
       docker.State <$> infos = docker.sum_State <$> containers ∧
       (Forall (λ info, docker.State info = "running") infos ↔
        Forall (λ ctr, docker.sum_State ctr = "running") containers)) ∧
    ∃ h t, model.BuildTree infos = Some (h, t) ∧ omap model.Container h ≡ₚ infos.
Proof.
  eexists. split; [vm_compute; reflexivity|].
  eapply (λ H, proj1 (and_assoc _ _ _) (listing_running_only exampleClient [1] true _ H)).
  right. left. vm_compute. reflexivity.
Defined.

(** C10, as stated, fails for a container that the runtime lists among
    the running ones in another state: a paused container is in the
    answer to the request with [All: false]; its record, in the state
    ["paused"], is in the list returned and in the tree. *)
Lemma listing_paused_counterexample :
  ∃ infos h t info n,
    docker.ListContainers pausedClient [] = Ok infos ∧
    model.BuildTree infos = Some (h, t) ∧
    infos !! 3 = Some info ∧
    h !! 2 = Some n ∧ 2 ∈ model.Flat t ∧ model.Container n = Some info ∧
    docker.Name info = "shopapp_cache_1" ∧ docker.State info = "paused".
Proof.
  eexists _, _, _, _, _. split; [vm_compute; reflexivity|].
  split; [vm_compute; reflexivity|]. split; [reflexivity|]. split; [reflexivity|].
  split; [|done]. apply (bool_decide_unpack _). by vm_compute.
Qed.

(** * Further properties of the code *)

(** ** Depth and path of the nodes of a built tree *)

(** The node at an address of a layout other than the root's. *)
Lemma body_lookup_node (base : nat) (gs : list project) (k : nat) (n : model.TreeNode) :
  bodyNodes base gs !! k = Some n →
  ∃ gs1 g gs2, gs = gs1 ++ g :: gs2 ∧
    (k = bodySize gs1 ∧ n = projectNode (base + bodySize gs1) g ∨
     ∃ j c, k = S (bodySize gs1 + j) ∧ p_containers g !! j = Some c ∧
            n = containerNode (base + bodySize gs1) c).
Proof.
  revert base k. induction gs as [|g gs IH]; intros base k; cbn [bodyNodes]; [done|].
  intros [Hk|[Hge Hk]]%lookup_app_Some.
  - exists [], g, gs. rewrite bodySize_nil, Nat.add_0_r. split; [done|].
    unfold projectNodes in Hk. destruct k as [|k]; [left; by injection Hk as <-|].
    rewrite lookup_cons in Hk. apply list_lookup_fmap_Some in Hk as (c & -> & Hc).
    right. by exists k, c.
  - rewrite length_projectNodes in Hk, Hge.
    destruct (IH _ _ Hk) as (gs1 & g' & gs2 & -> & Hn).
    exists (g :: gs1), g', gs2. rewrite bodySize_cons, Nat.add_assoc. split; [done|].
    destruct Hn as [[Hk' ->]|(j & c & Hk' & Hc & ->)].
    + left. split; [lia|done].
    + right. exists j, c. split; [lia|done].
Qed.

Lemma layout_lookup_node (gs : list project) (node : nat) (n : model.TreeNode) :
  layout gs !! S node = Some n →
  ∃ gs1 g gs2, gs = gs1 ++ g :: gs2 ∧
    (node = bodySize gs1 ∧ n = projectNode (S (bodySize gs1)) g ∨
     ∃ j c, node = S (bodySize gs1 + j) ∧ p_containers g !! j = Some c ∧
            n = containerNode (S (bodySize gs1)) c).
Proof. unfold layout. rewrite lookup_cons. apply body_lookup_node. Qed.

Lemma depthLoop_S (fuel : nat) (h : list model.TreeNode) (depth : Z) (c : nat) :
  model.depthLoop (S fuel) h depth (Some c) =
  match h !! c with
  | None => None
  | Some n =>
      if String.eqb (model.Name n) "root" then Some depth
      else model.depthLoop fuel h (wrap_int (depth + 1)) (model.Parent n)
  end.
Proof. done. Qed.

Lemma length_layout_ge (gs1 gs2 : list project) (g : project) :
  ∃ fuel, length (layout (gs1 ++ g :: gs2)) = S (S fuel).
Proof.
  exists (bodySize gs1 + length (p_containers g) + bodySize gs2).
  rewrite length_layout, bodySize_app, bodySize_cons. unfold projectSize. lia.
Qed.

Lemma GetDepth_project (gs1 gs2 : list project) (g : project) :
  model.GetDepth (layout (gs1 ++ g :: gs2)) (S (bodySize gs1)) = Some 0%Z.
Proof.
  unfold model.GetDepth. rewrite layout_lookup_project. cbn [projectNode model.Parent].
  by rewrite depthLoop_S.
Qed.

Lemma GetDepth_container (gs1 gs2 : list project) (g : project) (j : nat)
    (c : docker.ContainerInfo) :
  p_containers g !! j = Some c →
  model.GetDepth (layout (gs1 ++ g :: gs2)) (S (S (bodySize gs1 + j)))
  = Some (if String.eqb (p_name g) "root" then 0 else 1)%Z.
Proof.
  intros Hc. unfold model.GetDepth.
  destruct (holds_cons _ _ _ _ (holds_app_r _ _ _ _ (holds_layout (gs1 ++ g :: gs2))))
    as (_ & _ & Hcs).
  cbn [Nat.add] in Hcs. rewrite (Hcs _ _ Hc). cbn [containerNode model.Parent].
  destruct (length_layout_ge gs1 gs2 g) as [fuel ->].
  rewrite depthLoop_S, layout_lookup_project. cbn [projectNode model.Name model.Parent].
  destruct (String.eqb (p_name g) "root"); [done|]. by rewrite depthLoop_S.
Qed.

Lemma groupsOf_grouped (cs : list docker.ContainerInfo) : grouped (groupsOf cs).
Proof.
  apply Forall_forall. intros g Hg. destruct (groupsOf_elem cs g Hg) as (_ & _ & _ & Hcs).
  eapply Forall_impl; [exact Hcs|]. by intros c [_ ?].
Qed.

Lemma sameProjects_grouped (gs gs' : list project) :
  sameProjects gs gs' → grouped gs' → grouped gs.
Proof.
  intros Hsame Hgs.
  apply (sameProjects_Forall
           (λ name cs, Forall (λ c, model.ParseProjectName (docker.Name c) = name) cs) gs gs');
    done.
Qed.

Lemma GetNodePath_project (gs1 gs2 : list project) (g : project) :
  model.GetNodePath (layout (gs1 ++ g :: gs2)) (Some (S (bodySize gs1)))
  = Some (if String.eqb (p_name g) "root" then "" else p_name g).
Proof.
  unfold model.GetNodePath. rewrite pathLoop_S, layout_lookup_project.
  cbn [projectNode model.Name model.Parent].
  destruct (String.eqb (p_name g) "root"); [done|].
  destruct (length_layout_ge gs1 gs2 g) as [fuel ->]. by rewrite pathLoop_root.
Qed.

Lemma GetNodePath_container (gs1 gs2 : list project) (g : project) (j : nat)
    (c : docker.ContainerInfo) :
  p_containers g !! j = Some c →
  model.GetNodePath (layout (gs1 ++ g :: gs2)) (Some (S (S (bodySize gs1 + j))))
  = Some (if String.eqb (docker.Name c) "root" then ""
          else if String.eqb (p_name g) "root" then docker.Name c
               else p_name g +:+ "/" +:+ docker.Name c).
Proof.
  intros Hc. unfold model.GetNodePath.
  destruct (holds_cons _ _ _ _ (holds_app_r _ _ _ _ (holds_layout (gs1 ++ g :: gs2))))
    as (_ & _ & Hcs).
  cbn [Nat.add] in Hcs. rewrite pathLoop_S, (Hcs _ _ Hc).
  cbn [containerNode model.Name model.Parent].
  destruct (String.eqb (docker.Name c) "root"); [done|].
  destruct (length_layout_ge gs1 gs2 g) as [fuel ->].
  rewrite pathLoop_S, layout_lookup_project. cbn [projectNode model.Name model.Parent].
  destruct (String.eqb (p_name g) "root"); [done|]. by rewrite pathLoop_root.
Qed.

(** The depth and the path of every node of a layout. *)
Lemma layout_depth_path (gs : list project) (node : nat) (n : model.TreeNode) :
  grouped gs →
  layout gs !! node = Some n →
  model.GetDepth (layout gs) node = Some (depthOf n) ∧
  model.GetNodePath (layout gs) (Some node) = Some (pathOf n).
Proof.
  intros Hgs Hn. destruct node as [|node].
  { injection Hn as <-. done. }
  destruct (layout_lookup_node gs node n Hn)
    as (gs1 & g & gs2 & -> & [[-> ->]|(j & c & -> & Hc & ->)]).
  - rewrite GetDepth_project, GetNodePath_project. unfold depthOf, pathOf.
    cbn [projectNode model.Type_ model.Name]. done.
  - rewrite (GetDepth_container _ _ _ _ _ Hc), (GetNodePath_container _ _ _ _ _ Hc).
    unfold depthOf, pathOf. cbn [containerNode model.Type_ model.Name].
    apply Forall_app in Hgs as [_ [Hg _]%Forall_cons].
    rewrite Forall_forall in Hg. rewrite (Hg c) by (by eapply list_elem_of_lookup_2). done.
Qed.

(** X3.  In the tree built from any container list, and after any
    selection moves and expansion toggles, [GetDepth] returns for every
    node of the store: 0 for a project node (the root included), and for
    a container node 1, or 0 if its project is named ["root"] (the walk
    up the parent links stops at any node of that name). *)
Theorem GetDepth_built (containers : list docker.ContainerInfo) (calls : list treeCall) :
  ∃ h t, treeAfter containers calls = Some (h, t) ∧
    ∀ node n, h !! node = Some n →
      model.GetDepth h node
      = Some (match model.Type_ n with
              | model.NodeTypeProject => 0
              | model.NodeTypeContainer =>
                  if String.eqb (model.ParseProjectName (model.Name n)) "root" then 0 else 1
              end)%Z.
Proof.
  destruct (treeAfter_treeFrom containers calls) as (h & t & Hafter & gs & Ht & Hsame & _).
  exists h, t. split; [done|]. destruct Ht as (-> & _ & _). intros node n Hn.
  apply (layout_depth_path gs node n); [|done].
  eapply sameProjects_grouped; [done|apply groupsOf_grouped].
Qed.

(** X4.  In such a tree [GetNodePath] returns for every node of the
    store: the empty string for a node named ["root"]; otherwise the
    name of a project node; and for a container node its project name,
    ["/"] and its own name, or its own name alone if its project is
    named ["root"]. *)
Theorem GetNodePath_built (containers : list docker.ContainerInfo) (calls : list treeCall) :
  ∃ h t, treeAfter containers calls = Some (h, t) ∧
    ∀ node n, h !! node = Some n →
      model.GetNodePath h (Some node)
      = Some (if String.eqb (model.Name n) "root" then ""
              else match model.Type_ n with
                   | model.NodeTypeProject => model.Name n
                   | model.NodeTypeContainer =>
                       if String.eqb (model.ParseProjectName (model.Name n)) "root"
                       then model.Name n
                       else model.ParseProjectName (model.Name n) +:+ "/" +:+ model.Name n
                   end).
Proof.
  destruct (treeAfter_treeFrom containers calls) as (h & t & Hafter & gs & Ht & Hsame & _).
  exists h, t. split; [done|]. destruct Ht as (-> & _ & _). intros node n Hn.
  apply (layout_depth_path gs node n); [|done].
  eapply sameProjects_grouped; [done|apply groupsOf_grouped].
Qed.

Lemma projectAddrs_split (gs1 gs2 : list project) (g : project) :
  S (bodySize gs1) ∈ projectAddrs 1 (gs1 ++ g :: gs2).
Proof.
  rewrite projectAddrs_app. cbn [projectAddrs Nat.add]. apply elem_of_app. right. left.
Qed.

(** X1.  [BuildTree] puts every container of the list into the tree
    exactly once: the containers of the nodes of the store are a
    rearrangement of the list.  A node with a container is a container
    node named as its container, and a child of the project node whose
    name is the container's project name.  Every project node has at
    least one child, has no container and is expanded. *)
Theorem BuildTree_groups (containers : list docker.ContainerInfo) :
  ∃ h t,
    model.BuildTree containers = Some (h, t) ∧
    omap model.Container h ≡ₚ containers ∧
    (∀ node n c, h !! node = Some n → model.Container n = Some c →
       model.Type_ n = model.NodeTypeContainer ∧ model.Name n = docker.Name c ∧
       ∃ p pn, model.Parent n = Some p ∧ p ∈ projectsOf h t ∧ h !! p = Some pn ∧
               model.Name pn = model.ParseProjectName (docker.Name c) ∧
               node ∈ model.Children pn) ∧
    (∀ p, p ∈ projectsOf h t →
       ∃ pn, h !! p = Some pn ∧ model.Type_ pn = model.NodeTypeProject ∧
             model.Container pn = None ∧ model.Children pn ≠ [] ∧
             model.Expanded pn = true).
Proof.
  eexists _, _. split; [apply BuildTree_layout|].
  set (gs := groupsOf containers).
  assert (treeOf gs (layout gs)
            {| model.Root := Some 0; model.Flat := flatOf 1 gs; model.Selected := 0 |})
    as Ht by done.
  rewrite (projectsOf_layout _ _ _ Ht). split; [|split].
  - rewrite layout_containers. apply groupsOf_perm.
  - intros [|node] n c Hn Hc; [injection Hn as <-; done|].
    destruct (layout_lookup_node gs node n Hn)
      as (gs1 & g & gs2 & Hgs & [[-> ->]|(j & c' & -> & Hc' & ->)]); [done|].
    injection Hc as ->. split; [done|]. split; [done|].
    exists (S (bodySize gs1)), (projectNode (S (bodySize gs1)) g). rewrite Hgs.
    split; [done|]. split; [apply projectAddrs_split|].
    split; [apply layout_lookup_project|].
    pose proof (groupsOf_grouped containers) as Hgrouped. fold gs in Hgrouped.
    rewrite Hgs in Hgrouped. apply Forall_app in Hgrouped as [_ [Hg _]%Forall_cons].
    rewrite Forall_forall in Hg. split.
    + symmetry. apply Hg. by eapply list_elem_of_lookup_2.
    + cbn [projectNode model.Children]. apply elem_of_seq.
      apply lookup_lt_Some in Hc'. lia.
  - intros p (gs1 & g & gs2 & Hgs & ->)%projectAddrs_elem. cbn [Nat.add].
    exists (projectNode (S (bodySize gs1)) g). rewrite Hgs.
    split; [apply layout_lookup_project|]. split; [done|]. split; [done|].
    assert (g ∈ groupsOf containers) as Hg.
    { fold gs. rewrite Hgs. apply elem_of_app. right. left. }
    destruct (groupsOf_elem containers g Hg) as (Hexp & _ & Hne & _).
    split; [|done]. cbn [projectNode model.Children].
    destruct (p_containers g); [done|]. done.
Qed.

(** ** Projects named ["root"] stay expanded *)

Lemma sameProjects_nonEmpty (gs gs' : list project) :
  sameProjects gs gs' → nonEmpty gs' → nonEmpty gs.
Proof. intros Hsame. by apply (sameProjects_Forall (λ _ cs, cs ≠ [])). Qed.

Lemma groupsOf_nonEmpty (cs : list docker.ContainerInfo) : nonEmpty (groupsOf cs).
Proof.
  apply Forall_forall. intros g Hg. by destruct (groupsOf_elem cs g Hg) as (_ & _ & ? & _).
Qed.

Lemma groupsOf_rootsExpanded (cs : list docker.ContainerInfo) : rootsExpanded (groupsOf cs).
Proof.
  apply Forall_forall. intros g Hg _. by destruct (groupsOf_elem cs g Hg) as (? & _).
Qed.

Lemma flatOf_nonempty (base : nat) (gs : list project) :
  gs ≠ [] → nonEmpty gs → rootsExpanded gs → flatOf base gs ≠ [].
Proof.
  destruct gs as [|g gs]; [done|]. intros _ [Hne _]%Forall_cons [Hroot _]%Forall_cons.
  cbn [flatOf]. unfold shownOf. destruct (String.eqb (p_name g) "root"); [|done].
  rewrite Hroot by done. destruct (p_containers g); done.
Qed.

(** One call on a tree of a layout. *)
Lemma treeStep_layout (gs : list project) (h : list model.TreeNode) (t : model.Tree)
    (c : treeCall) :
  treeOf gs h t → selectionOk t →
  ∃ gs' h' t',
    treeStep (h, t) c = Some (h', t') ∧ treeOf gs' h' t' ∧ selectionOk t' ∧
    sameProjects gs' gs ∧ (rootsExpanded gs → rootsExpanded gs').
Proof.
  intros Ht Hsel. destruct c; cbn [treeStep fst snd].
  - exists gs. eexists _, _. split; [done|]. split_and!; try done.
    + destruct Ht as (? & ? & ?). unfold model.MoveUp. by destruct (0 <? _)%Z.
    + by apply MoveUp_selectionOk.
  - exists gs. eexists _, _. split; [done|]. split_and!; try done.
    + destruct Ht as (? & ? & ?). unfold model.MoveDown. by destruct (_ <? _)%Z.
    + by apply MoveDown_selectionOk.
  - destruct (ToggleExpanded_layout gs h t Ht)
      as [(gs1 & g & gs2 & -> & Hget & Hname & ->)|[_ ->]].
    + exists (gs1 ++ withExpanded (negb (p_expanded g)) g :: gs2). eexists _, _.
      split; [done|]. split_and!.
      * split_and!; try done. by destruct Ht as (? & ? & ?).
      * destruct Ht as (_ & _ & Hflat).
        pose proof (selected_project_index gs1 gs2 g t Hflat Hname Hget) as Hidx.
        destruct Hsel as [Hsel _]. split; [done|]. left.
        unfold model.lenFlat. cbn [model.set_Flat model.Flat model.Selected].
        rewrite (flatOf_project gs1 gs2 (withExpanded _ g)) by done.
        rewrite Hidx, length_app. cbn [length]. lia.
      * apply sameProjects_toggle.
      * intros [H1 [_ H2]%Forall_cons]%Forall_app. apply Forall_app. split; [done|].
        constructor; [|done]. cbn [withExpanded p_name]. by rewrite Hname.
    + exists gs. eexists _, _. split; [done|]. done.
Qed.

Lemma calls_layout (gs0 : list project) (calls : list treeCall) (gs : list project)
    (h : list model.TreeNode) (t : model.Tree) :
  sameProjects gs gs0 → rootsExpanded gs → treeOf gs h t → selectionOk t →
  ∃ gs' h' t',
    model.for_each treeStep (h, t) calls = Some (h', t') ∧ treeOf gs' h' t' ∧
    selectionOk t' ∧ sameProjects gs' gs0 ∧ rootsExpanded gs'.
Proof.
  revert gs h t. induction calls as [|c calls IH]; intros gs h t Hsame Hroots Ht Hsel;
    cbn [model.for_each].
  - by exists gs, h, t.
  - destruct (treeStep_layout gs h t c Ht Hsel)
      as (gs' & h' & t' & -> & Ht' & Hsel' & Hsame' & Hr).
    apply (IH gs'); try done; [|by apply Hr].
    unfold sameProjects in *. by rewrite Hsame'.
Qed.

Lemma treeAfter_layout (containers : list docker.ContainerInfo) (calls : list treeCall) :
  ∃ gs h t,
    treeAfter containers calls = Some (h, t) ∧ treeOf gs h t ∧ selectionOk t ∧
    sameProjects gs (groupsOf containers) ∧ rootsExpanded gs.
Proof.
  unfold treeAfter. rewrite BuildTree_layout.
  apply (calls_layout (groupsOf containers) calls (groupsOf containers)); try done.
  - apply groupsOf_rootsExpanded.
  - unfold selectionOk. cbn [model.Selected]. lia.
Qed.

Lemma sameProjects_length (gs gs' : list project) : sameProjects gs gs' → length gs = length gs'.
Proof. intros H. apply (f_equal length) in H. by rewrite !length_fmap in H. Qed.

(** X2.  After a build and any selection moves and expansion toggles,
    [GetSelected] returns [nil] exactly when the container list is empty
    (the flat view is empty then); for a non-empty list it returns a node
    of the flat view, which is in the store. *)
Theorem selection_defined (containers : list docker.ContainerInfo) (calls : list treeCall) :
  ∃ h t,
    treeAfter containers calls = Some (h, t) ∧
    (containers = [] → model.Flat t = [] ∧ model.GetSelected t = None) ∧
    (containers ≠ [] →
     ∃ node n, model.GetSelected t = Some node ∧ node ∈ model.Flat t ∧ h !! node = Some n).
Proof.
  destruct (treeAfter_layout containers calls)
    as (gs & h & t & Hafter & (-> & Hroot & Hflat) & Hsel & Hsame & Hroots).
  exists (layout gs), t. split; [done|]. split.
  - intros ->. apply sameProjects_length in Hsame. destruct gs; [|done].
    cbn [flatOf] in Hflat. split; [done|]. unfold model.GetSelected, model.lenFlat.
    rewrite Hflat. cbn [length]. destruct Hsel as [? _].
    destruct (model.Selected t <? 0)%Z eqn:H1; [done|].
    destruct (Z.of_nat 0 <=? model.Selected t)%Z eqn:H2; [done|].
    apply Z.leb_gt in H2. lia.
  - intros Hne.
    assert (gs ≠ []) as Hgs.
    { intros ->. apply sameProjects_length in Hsame. symmetry in Hsame.
      apply length_zero_iff_nil in Hsame. pose proof (groupsOf_perm containers) as Hperm.
      rewrite Hsame in Hperm. by apply Permutation_nil_l in Hperm. }
    pose proof (flatOf_nonempty 1 gs Hgs
                  (sameProjects_nonEmpty _ _ Hsame (groupsOf_nonEmpty containers)) Hroots) as Hflat'.
    rewrite <- Hflat in Hflat'.
    assert (0 ≤ model.Selected t < model.lenFlat t)%Z as Hrange.
    { destruct Hsel as [? [?|?]]; [lia|]. unfold model.lenFlat.
      destruct (model.Flat t); [done|]. cbn [length]. lia. }
    destruct (lookup_lt_is_Some_2 (model.Flat t) (Z.to_nat (model.Selected t))) as [node Hnode].
    { unfold model.lenFlat in Hrange. lia. }
    assert (node ∈ model.Flat t) as Hin by (by eapply list_elem_of_lookup_2).
    destruct (flat_lookup_is_Some gs node) as [n Hn]; [by rewrite <- Hflat|].
    exists node, n. split; [|done]. unfold model.GetSelected.
    destruct (model.Selected t <? 0)%Z eqn:H1; [apply Z.ltb_lt in H1; lia|].
    destruct (model.lenFlat t <=? model.Selected t)%Z eqn:H2; [apply Z.leb_le in H2; lia|]. done.
Qed.

(** ** Paths identify the nodes of the flat view *)

Lemma pathHead_plain (s : string) : has_byte "/" s = false → pathHead s = s.
Proof. intros Hs. unfold pathHead. by rewrite (Index_byte_absent "/" s Hs). Qed.

Lemma pathHead_app (pre post : string) :
  has_byte "/" pre = false → pathHead (pre +:+ "/" +:+ post) = pre.
Proof.
  intros Hpre. unfold pathHead.
  change (pre +:+ "/" +:+ post) with (pre +:+ String "/" post).
  rewrite (Index_byte_first "/" pre post Hpre). apply substring_0_app.
Qed.

Lemma has_byte_substring (c : ascii) (s : string) (n : nat) :
  has_byte c s = false → has_byte c (String.substring 0 n s) = false.
Proof.
  revert n. induction s as [|a s IH]; intros [|n]; cbn [has_byte String.substring]; try done.
  destruct (Ascii.eqb c a); [done|]. apply IH.
Qed.

Lemma has_byte_ParseProjectName (c : ascii) (s : string) :
  has_byte c s = false → has_byte c (model.ParseProjectName s) = false.
Proof.
  intros Hs. unfold model.ParseProjectName, strings.slice_to.
  destruct (strings.Index s "_"); [by apply has_byte_substring|].
  destruct (strings.Index s "-"); [by apply has_byte_substring|done].
Qed.

Lemma fmap_seq_lookup {A B} (f : nat → B) (g : A → B) (start : nat) (l : list A) :
  (∀ j x, l !! j = Some x → f (start + j) = g x) →
  f <$> seq start (length l) = g <$> l.
Proof.
  revert start. induction l as [|x l IH]; intros start Hfg; [done|].
  cbn [length seq fmap list_fmap]. f_equal.
  - rewrite <- (Hfg 0 x eq_refl). f_equal. lia.
  - apply IH. intros j y Hy. rewrite <- (Hfg (S j) y Hy). f_equal. lia.
Qed.

Lemma flat_paths_from (gs1 gs2 : list project) :
  noRoot gs2 →
  (λ node, model.GetNodePath (layout (gs1 ++ gs2)) (Some node)) <$> flatOf (S (bodySize gs1)) gs2
  = Some <$> shownPaths gs2.
Proof.
  revert gs1. induction gs2 as [|g gs2 IH]; intros gs1 Hno; [done|].
  apply Forall_cons in Hno as [[Hname Hcs] Hno].
  unfold shownPaths. cbn [flatOf fmap list_fmap concat]. rewrite !fmap_app. f_equal.
  - unfold shownOf, projectPaths. rewrite Hname. cbn [app fmap list_fmap]. f_equal.
    + by rewrite GetNodePath_project, Hname.
    + destruct (p_expanded g); [|done]. rewrite <- list_fmap_compose.
      apply fmap_seq_lookup. intros j c Hc. cbn [Nat.add].
      rewrite (GetNodePath_container _ _ _ _ _ Hc), Hname. cbn.
      rewrite Forall_forall in Hcs.
      destruct (String.eqb_spec (docker.Name c) "root") as [Heq|_]; [|done].
      exfalso. eapply Hcs; [|done]. by eapply list_elem_of_lookup_2.
  - specialize (IH (gs1 ++ [g]) Hno).
    rewrite <- (assoc_L (++)) in IH. cbn [app] in IH.
    rewrite bodySize_app, bodySize_cons, bodySize_nil in IH.
    replace (S (bodySize gs1 + (projectSize g + 0))) with (S (bodySize gs1) + projectSize g)
      in IH by lia.
    exact IH.
Qed.

Lemma flat_paths (gs : list project) :
  noRoot gs →
  (λ node, model.GetNodePath (layout gs) (Some node)) <$> flatOf 1 gs = Some <$> shownPaths gs.
Proof. apply (flat_paths_from [] gs). Qed.

Lemma projectPaths_head (g : project) (p : string) :
  has_byte "/" (p_name g) = false → p ∈ projectPaths g → pathHead p = p_name g.
Proof.
  intros Hg. unfold projectPaths. rewrite elem_of_cons. intros [->|Hp]; [by apply pathHead_plain|].
  destruct (p_expanded g); [|by apply elem_of_nil in Hp].
  apply list_elem_of_fmap in Hp as (c & -> & _). by apply pathHead_app.
Qed.

Lemma projectPaths_NoDup (g : project) :
  has_byte "/" (p_name g) = false → NoDup (docker.Name <$> p_containers g) →
  NoDup (projectPaths g).
Proof.
  intros Hg Hcs. unfold projectPaths. apply NoDup_cons. split.
  - destruct (p_expanded g); [|apply not_elem_of_nil].
    intros (c & Heq & _)%list_elem_of_fmap.
    apply (f_equal (has_byte "/")) in Heq. rewrite Hg, has_byte_app in Heq.
    by destruct (has_byte "/" (p_name g)).
  - destruct (p_expanded g); [|apply NoDup_nil_2].
    rewrite (list_fmap_compose docker.Name (λ s, p_name g +:+ "/" +:+ s)).
    apply NoDup_fmap_2; [|done]. intros s1 s2 Heq.
    by apply (inj (String.append (p_name g))), (inj (String.append "/")) in Heq.
Qed.

Lemma shownPaths_head (gs : list project) (p : string) :
  Forall (λ g, has_byte "/" (p_name g) = false) gs →
  p ∈ shownPaths gs → pathHead p ∈ p_name <$> gs.
Proof.
  unfold shownPaths. induction gs as [|g gs IH]; cbn [fmap list_fmap concat].
  - by intros _ ?%elem_of_nil.
  - intros [Hg Hgs]%Forall_cons [Hp|Hp]%elem_of_app.
    + rewrite (projectPaths_head g p Hg Hp). left.
    + right. by apply IH.
Qed.

Lemma shownPaths_NoDup (gs : list project) : distinctNames gs → NoDup (shownPaths gs).
Proof.
  unfold shownPaths. induction gs as [|g gs IH]; intros [Hnames Hgs];
    cbn [fmap list_fmap concat]; [apply NoDup_nil_2|].
  cbn [fmap list_fmap] in Hnames. apply NoDup_cons in Hnames as [Hg Hnames].
  apply Forall_cons in Hgs as [(Hslash & _ & Hcs) Hgs].
  apply NoDup_app. split; [by apply projectPaths_NoDup|]. split; [|by apply IH].
  intros p Hp Hp'. apply Hg. rewrite <- (projectPaths_head g p Hslash Hp).
  apply shownPaths_head; [|done]. eapply Forall_impl; [exact Hgs|]. by intros ? (? & _).
Qed.

Lemma shownPaths_nonempty (gs : list project) (p : string) :
  Forall (λ g, p_name g ≠ "") gs → p ∈ shownPaths gs → p ≠ "".
Proof.
  unfold shownPaths. induction gs as [|g gs IH]; cbn [fmap list_fmap concat].
  - by intros _ ?%elem_of_nil.
  - intros [Hg Hgs]%Forall_cons [Hp|Hp]%elem_of_app; [|by apply IH].
    unfold projectPaths in Hp. apply elem_of_cons in Hp as [->|Hp]; [done|].
    destruct (p_expanded g); [|by apply elem_of_nil in Hp].
    apply list_elem_of_fmap in Hp as (c & -> & _). by destruct (p_name g).
Qed.

Lemma sorted_lt_NoDup (l : list string) : StronglySorted string_lt l → NoDup l.
Proof.
  induction 1 as [|x l _ IH Hx]; [apply NoDup_nil_2|]. apply NoDup_cons. split; [|done].
  intros Hin. rewrite Forall_forall in Hx. by apply (string_lt_irrefl x), Hx.
Qed.

Lemma NoDup_concat_elem {A B} (f : A → B) (ls : list (list A)) (l : list A) :
  NoDup (f <$> concat ls) → l ∈ ls → NoDup (f <$> l).
Proof.
  induction ls as [|l' ls IH]; cbn [concat]; [by intros _ ?%elem_of_nil|].
  rewrite fmap_app. intros (Hl' & _ & Hls)%NoDup_app [->|Hin]%elem_of_cons; [done|by apply IH].
Qed.

Lemma plainNames_groupsOf (cs : list docker.ContainerInfo) :
  plainNames cs →
  Forall (λ g, has_byte "/" (p_name g) = false ∧ p_name g ≠ "" ∧
               NoDup (docker.Name <$> p_containers g)) (groupsOf cs).
Proof.
  intros [Hnodup Hcs]. apply Forall_forall. intros g Hg.
  destruct (groupsOf_elem cs g Hg) as (_ & _ & Hne & Hin).
  assert (NoDup (docker.Name <$> p_containers g)) as Hnames.
  { apply (NoDup_concat_elem docker.Name (p_containers <$> groupsOf cs)).
    - by rewrite (groupsOf_perm cs).
    - by apply list_elem_of_fmap_2. }
  destruct (p_containers g) as [|c l]; [done|].
  apply Forall_cons in Hin as [[Hc <-] _].
  rewrite Forall_forall in Hcs. destruct (Hcs c Hc) as (Hslash & _ & Hempty).
  split; [by apply has_byte_ParseProjectName|]. done.
Qed.

Lemma sameProjects_names (gs gs' : list project) :
  sameProjects gs gs' → p_name <$> gs = p_name <$> gs'.
Proof.
  intros H. apply (f_equal (fmap fst)) in H. by rewrite <- !list_fmap_compose in H.
Qed.

Lemma plainNames_groups (cs : list docker.ContainerInfo) (gs : list project) :
  plainNames cs → sameProjects gs (groupsOf cs) → noRoot gs ∧ distinctNames gs.
Proof.
  intros Hplain Hsame. split; [|split].
  - eapply sameProjects_noRoot; [done|]. apply groupsOf_noRoot.
    destruct Hplain as [_ Hcs]. eapply Forall_impl; [exact Hcs|]. by intros c (_ & ? & _).
  - rewrite (sameProjects_names _ _ Hsame). apply sorted_lt_NoDup, groupsOf_names.
  - apply (sameProjects_Forall
             (λ name l, has_byte "/" name = false ∧ name ≠ "" ∧ NoDup (docker.Name <$> l))
             gs (groupsOf cs) Hsame).
    by apply plainNames_groupsOf.
Qed.

(** The paths of the nodes of the flat view are pairwise distinct. *)
Lemma flat_paths_distinct (gs : list project) (i j : nat) (node node' : nat) (path : string) :
  noRoot gs → distinctNames gs →
  flatOf 1 gs !! i = Some node → flatOf 1 gs !! j = Some node' →
  model.GetNodePath (layout gs) (Some node) = Some path →
  model.GetNodePath (layout gs) (Some node') = Some path →
  i = j ∧ path ≠ "".
Proof.
  intros Hno Hdist Hi Hj Hp Hp'. pose proof (flat_paths gs Hno) as Hpaths.
  assert (shownPaths gs !! i = Some path) as Hi'.
  { apply (f_equal (λ l, l !! i)) in Hpaths. rewrite !list_lookup_fmap, Hi in Hpaths.
    cbn [fmap option_fmap option_map] in Hpaths. rewrite Hp in Hpaths.
    destruct (shownPaths gs !! i); by simplify_eq/=. }
  assert (shownPaths gs !! j = Some path) as Hj'.
  { apply (f_equal (λ l, l !! j)) in Hpaths. rewrite !list_lookup_fmap, Hj in Hpaths.
    cbn [fmap option_fmap option_map] in Hpaths. rewrite Hp' in Hpaths.
    destruct (shownPaths gs !! j); by simplify_eq/=. }
  split.
  - eapply NoDup_lookup; [by apply shownPaths_NoDup|done..].
  - apply (shownPaths_nonempty gs).
    + destruct Hdist as [_ Hgs]. eapply Forall_impl; [exact Hgs|]. by intros ? (_ & ? & _).
    + by eapply list_elem_of_lookup_2.
Qed.

(** X5.  Paths identify the nodes of the flat view.  If the container
    names are pairwise distinct, hold no ["/"], and have project names
    other than the empty string and ["root"], then in the tree after a
    build and any moves and toggles, restoring the selection from the
    path of the node at an index of the flat view selects that index,
    whatever was selected before. *)
Theorem RestoreSelection_roundtrip (containers : list docker.ContainerInfo)
    (calls : list treeCall) :
  plainNames containers →
  ∃ h t,
    treeAfter containers calls = Some (h, t) ∧
    ∀ i node, model.Flat t !! i = Some node →
      ∃ path, model.GetNodePath h (Some node) = Some path ∧
        ∀ selected,
          model.RestoreSelection h (model.set_Selected selected t) path
          = Some (model.set_Selected (Z.of_nat i) t).
Proof.
  intros Hplain.
  destruct (treeAfter_treeFrom containers calls) as (h & t & Hafter & gs & Ht & Hsame & _).
  exists h, t. split; [done|]. intros i node Hi.
  pose proof (paths_defined _ _ _ _ Hafter) as Hdef.
  destruct (plainNames_groups _ _ Hplain Hsame) as [Hno Hdist].
  destruct Ht as (-> & _ & Hflat).
  rewrite Forall_forall in Hdef.
  destruct (Hdef node) as [path Hpath]; [by eapply list_elem_of_lookup_2|].
  exists path. split; [done|]. intros selected.
  rewrite Hflat in Hi.
  destruct (flat_paths_distinct gs i i node node path Hno Hdist Hi Hi Hpath Hpath) as [_ Hne].
  unfold model.RestoreSelection. destruct (String.eqb_spec path "") as [|_]; [done|].
  cbn [model.set_Selected model.Flat].
  destruct (searchPath_spec (layout gs) path (model.Flat t) 0) as
    [(k & node' & -> & Hk & Hpath' & _)|[_ Hnone]].
  { by apply Forall_forall. }
  - rewrite Hflat in Hk.
    destruct (flat_paths_distinct gs k i node' node path Hno Hdist Hk Hi Hpath' Hpath) as [-> _].
    done.
  - exfalso. apply (Hnone node); [|done]. rewrite Hflat. by eapply list_elem_of_lookup_2.
Qed.

Lemma RestoreSelection_roundtrip_witness :
  ∃ h t,
    treeAfter exampleContainers [CallMoveDown; CallToggleExpanded] = Some (h, t) ∧
    ∀ i node, model.Flat t !! i = Some node →
      ∃ path, model.GetNodePath h (Some node) = Some path ∧
        ∀ selected,
          model.RestoreSelection h (model.set_Selected selected t) path
          = Some (model.set_Selected (Z.of_nat i) t).
Proof.
  apply (RestoreSelection_roundtrip exampleContainers [CallMoveDown; CallToggleExpanded]).
  split.
  - apply (bool_decide_unpack _). by vm_compute.
  - repeat constructor; vm_compute; discriminate.
Defined.

(** ** What [ToggleExpanded] leaves alone *)

(** X6.  [ToggleExpanded] changes neither the selection index nor the
    root, nor the number of nodes; it changes no node but the selected
    one, and of that one the [Expanded] flag at most.  If the selected
    node is a container (or nothing is selected), it changes nothing. *)
Theorem ToggleExpanded_frame (h h' : list model.TreeNode) (t t' : model.Tree) :
  model.ToggleExpanded h t = Some (h', t') →
  model.Selected t' = model.Selected t ∧ model.Root t' = model.Root t ∧
  length h' = length h ∧
  (∀ i, model.set_Expanded true <$> h' !! i = model.set_Expanded true <$> h !! i) ∧
  (∀ i, model.GetSelected t ≠ Some i → h' !! i = h !! i) ∧
  ((∀ node n, model.GetSelected t = Some node → h !! node = Some n →
              model.Type_ n = model.NodeTypeContainer) →
   h' = h ∧ t' = t).
Proof.
  unfold model.ToggleExpanded.
  destruct (model.GetSelected t) as [node|] eqn:Hsel; [|by intros [= <- <-]].
  destruct (h !! node) as [n|] eqn:Hn; [|done].
  destruct (bool_decide (model.Type_ n = model.NodeTypeProject)) eqn:Htype.
  - apply bool_decide_eq_true in Htype.
    unfold model.UpdateFlatView. destruct (model.Root t) as [root|] eqn:Hroot; [|done].
    destruct (model.flattenNode _ _ _ _ _) as [flat|]; [|done].
    intros [= <- <-]. cbn [model.set_Flat model.Selected model.Root].
    split; [done|]. split; [done|]. split; [by rewrite length_insert|]. split; [|split].
    + intros i. destruct (decide (i = node)) as [->|Hne].
      * rewrite list_lookup_insert_eq by (by eapply lookup_lt_Some). by rewrite Hn.
      * by rewrite list_lookup_insert_ne.
    + intros i Hi. rewrite list_lookup_insert_ne; [done|]. by intros ->.
    + intros Hc. specialize (Hc node n eq_refl Hn). by rewrite Hc in Htype.
  - by intros [= <- <-].
Qed.

Lemma ToggleExpanded_frame_witness :
  ∃ h' t',
    model.ToggleExpanded exampleStore exampleTree = Some (h', t') ∧
    model.Selected t' = model.Selected exampleTree ∧
    model.Root t' = model.Root exampleTree ∧
    length h' = length exampleStore ∧
    (∀ i, model.set_Expanded true <$> h' !! i = model.set_Expanded true <$> exampleStore !! i) ∧
    (∀ i, model.GetSelected exampleTree ≠ Some i → h' !! i = exampleStore !! i) ∧
    ((∀ node n, model.GetSelected exampleTree = Some node → exampleStore !! node = Some n →
                model.Type_ n = model.NodeTypeContainer) →
     h' = exampleStore ∧ t' = exampleTree).
Proof.
  eexists _, _. split; [vm_compute; reflexivity|].
  apply (ToggleExpanded_frame exampleStore _ exampleTree _). vm_compute. reflexivity.
Defined.

(** ** The formatting of durations *)

(** X7.  For a value from 0 to 99, [formatInt] is the decimal numeral of
    the value, padded with a zero to two digits. *)
Theorem formatInt_two_digits (value : Z) :
  (0 ≤ value < 100)%Z →
  model.formatInt value = (if (value <? 10)%Z then "0" else "") +:+ fmt.decimal value.
Proof.
  intros Hv.
  assert (Forall (λ v, model.formatInt v = (if (v <? 10)%Z then "0" else "") +:+ fmt.decimal v)
            (seqZ 0 100)) as Hall.
  { apply (bool_decide_unpack _). by vm_compute. }
  rewrite Forall_forall in Hall. apply Hall, elem_of_seqZ. lia.
Qed.

Lemma formatInt_two_digits_witness :
  model.formatInt 7 = (if (7 <? 10)%Z then "0" else "") +:+ fmt.decimal 7.
Proof. apply (formatInt_two_digits 7). lia. Defined.

(** X8.  For a value from 100 to 999, [formatInt] is no numeral: its
    first byte is not a decimal digit (100 gives [":0"]). *)
Theorem formatInt_three_digits (value : Z) :
  (100 ≤ value < 1000)%Z →
  ∃ a rest, model.formatInt value = String a rest ∧ is_digit a = false.
Proof.
  intros Hv.
  assert (Forall (λ v, match model.formatInt v with
                       | String a _ => is_digit a
                       | EmptyString => true
                       end = false) (seqZ 100 900)) as Hall.
  { apply (bool_decide_unpack _). by vm_compute. }
  rewrite Forall_forall in Hall. specialize (Hall value).
  destruct (model.formatInt value) as [|a rest].
  { exfalso. assert (true = false) as [=]. apply Hall, elem_of_seqZ. lia. }
  exists a, rest. split; [done|]. apply Hall, elem_of_seqZ. lia.
Qed.

Lemma formatInt_three_digits_witness :
  ∃ a rest, model.formatInt 100 = String a rest ∧ is_digit a = false.
Proof. apply (formatInt_three_digits 100). lia. Defined.

Lemma append_nonempty_r (s1 s2 : string) : s2 ≠ "" → s1 +:+ s2 ≠ "".
Proof. by destruct s1. Qed.

Lemma append_nonempty_l (s1 s2 : string) : s1 ≠ "" → s1 +:+ s2 ≠ "".
Proof. by destruct s1. Qed.

Lemma append_nil_l (s : string) : "" +:+ s = s.
Proof. done. Qed.

Lemma append_assoc (s1 s2 s3 : string) : (s1 +:+ s2) +:+ s3 = s1 +:+ s2 +:+ s3.
Proof. induction s1 as [|a s1 IH]; [done|]. cbv [String.append]. fold String.append. by f_equal. Qed.

Lemma formatUnit_nonempty (value : Z) (unit_ : string) :
  unit_ ≠ "" → model.formatUnit value unit_ ≠ "".
Proof.
  intros Hu. unfold model.formatUnit. destruct (String.eqb_spec unit_ "") as [|_]; [done|].
  by apply append_nonempty_r.
Qed.

(** X9.  [formatDuration] joins with single spaces the parts that are
    there: a part is left out if its value is not positive (the third
    also if its unit is empty), provided the units of the first two
    parts are not empty where their values are positive. *)
Theorem formatDuration_parts (a b c : Z) (aUnit bUnit cUnit : string) :
  ((0 < a)%Z → aUnit ≠ "") → ((0 < b)%Z → bUnit ≠ "") →
  model.formatDuration a b c aUnit bUnit cUnit
  = strings.Join
      (filter (λ part, part ≠ "")
         [ if (0 <? a)%Z then model.formatUnit a aUnit else "";
           if (0 <? b)%Z then model.formatUnit b bUnit else "";
           if (0 <? c)%Z && negb (String.eqb cUnit "") then model.formatUnit c cUnit else "" ])
      " ".
Proof.
  intros Ha Hb. unfold model.formatDuration, strings.Join.
  assert (∀ s : string, s ≠ "" → (if negb (String.eqb s "") then s +:+ " " else s) = s +:+ " ")
    as Hsp.
  { intros s Hs. by destruct (String.eqb_spec s ""). }
  destruct (0 <? a)%Z eqn:Ea; destruct (0 <? b)%Z eqn:Eb;
    destruct ((0 <? c)%Z && negb (String.eqb cUnit "")) eqn:Ec;
    try (apply Z.ltb_lt in Ea; specialize (Ha Ea); pose proof (formatUnit_nonempty a _ Ha));
    try (apply Z.ltb_lt in Eb; specialize (Hb Eb); pose proof (formatUnit_nonempty b _ Hb));
    try (apply andb_true_iff in Ec as [_ Ec%negb_true_iff];
         apply String.eqb_neq in Ec; pose proof (formatUnit_nonempty c _ Ec));
    rewrite ?append_nil_l; cbn [negb String.eqb];
    repeat match goal with
           | |- context [if negb (String.eqb ?s "") then _ else _] =>
               rewrite (Hsp s) by (repeat apply append_nonempty_l; done)
           end;
    repeat first [rewrite filter_cons_True by done | rewrite filter_cons_False by (by intros ?)];
    rewrite ?filter_nil; cbn [String.concat]; rewrite ?append_assoc; try done.
Qed.

Lemma formatDuration_parts_witness :
  model.formatDuration 3 0 5 "d" "h" "m"
  = strings.Join
      (filter (λ part, part ≠ "")
         [ if (0 <? 3)%Z then model.formatUnit 3 "d" else "";
           if (0 <? 0)%Z then model.formatUnit 0 "h" else "";
           if (0 <? 5)%Z && negb (String.eqb "m" "") then model.formatUnit 5 "m" else "" ])
      " ".
Proof. apply (formatDuration_parts 3 0 5 "d" "h" "m"); discriminate. Defined.

(** ** Package docker *)

Lemma wrap_uint64_mul (a b : Z) : wrap_uint64 (wrap_uint64 a * b) = wrap_uint64 (a * b).
Proof. unfold wrap_uint64. by rewrite Zmult_mod_idemp_l. Qed.

Lemma formatBytes_loop_spec (fuel : nat) (n div exp : Z) :
  (0 ≤ n < 1024 ^ Z.of_nat fuel)%Z →
  ∃ k : nat,
    (n < 1024 ^ (Z.of_nat k + 1))%Z ∧ (k = 0 ∨ (1024 ^ Z.of_nat k ≤ n)%Z) ∧
    docker.formatBytes_loop fuel n div exp
    = (if decide (k = 0) then div else wrap_uint64 (div * 1024 ^ Z.of_nat k), (exp + Z.of_nat k)%Z).
Proof.
  revert n div exp. induction fuel as [|fuel IH]; intros n div exp Hn.
  - exists 0. change (1024 ^ Z.of_nat 0)%Z with 1%Z in Hn. cbn [docker.formatBytes_loop].
    split; [lia|]. split; [by left|]. by rewrite Z.add_0_r.
  - cbn [docker.formatBytes_loop]. destruct (1024 <=? n)%Z eqn:Hge.
    + apply Z.leb_le in Hge.
      destruct (IH (n / 1024)%Z (wrap_uint64 (div * 1024)) (exp + 1)%Z) as (k & Hlt & Hk & ->).
      { split; [apply Z.div_pos; lia|]. apply Z.div_lt_upper_bound; [lia|].
        rewrite Nat2Z.inj_succ, Z.pow_succ_r in Hn by lia. lia. }
      exists (S k). rewrite Nat2Z.inj_succ. split; [|split].
      * replace (Z.succ (Z.of_nat k) + 1)%Z with (Z.succ (Z.of_nat k + 1)) by lia.
        rewrite Z.pow_succ_r by lia.
        pose proof (Z.mul_succ_div_gt n 1024 ltac:(lia)). lia.
      * right. rewrite Z.pow_succ_r by lia.
        pose proof (Z.mul_div_le n 1024 ltac:(lia)).
        destruct Hk as [->|Hk]; [change (1024 ^ Z.of_nat 0)%Z with 1%Z; lia|]. lia.
      * f_equal; [|lia]. rewrite (decide_False (P := S k = 0)) by done. destruct (decide (k = 0)) as [->|_].
        -- reflexivity.
        -- rewrite wrap_uint64_mul. f_equal. rewrite Z.pow_succ_r by lia. lia.
    + apply Z.leb_gt in Hge. exists 0. change (1024 ^ (Z.of_nat 0 + 1))%Z with 1024%Z.
      split; [lia|]. split; [by left|]. by rewrite Z.add_0_r.
Qed.

(** X10.  For every [uint64] of 1024 or more, [formatBytes] scales by the
    largest power of 1024 that is at most the value: the index of the
    unit in ["KMGTPE"] is in range, the divisor does not overflow, and
    the text is the scaled value with one decimal, a space, the unit
    and ["iB"]. *)
Theorem formatBytes_unit (bytes : Z) :
  (1024 ≤ bytes < 2 ^ 64)%Z →
  ∃ e : nat,
    e ≤ 5 ∧ (1024 ^ (Z.of_nat e + 1) ≤ bytes < 1024 ^ (Z.of_nat e + 2))%Z ∧
    String.length (String.substring e 1 "KMGTPE") = 1 ∧
    docker.formatBytes bytes
    = fmt.f1 (float64_of_Z bytes / float64_of_Z (1024 ^ (Z.of_nat e + 1)))%float
      +:+ " " +:+ String.substring e 1 "KMGTPE" +:+ "iB".
Proof.
  intros [Hlo Hhi]. unfold docker.formatBytes.
  destruct (bytes <? 1024)%Z eqn:Hlt; [apply Z.ltb_lt in Hlt; lia|clear Hlt].
  destruct (formatBytes_loop_spec 7 (bytes / 1024) 1024 0) as (k & Hlt & Hk & ->).
  { split; [apply Z.div_pos; lia|]. apply Z.div_lt_upper_bound; [lia|].
    change (1024 * 1024 ^ Z.of_nat 7)%Z with (2 ^ 80)%Z. lia. }
  assert (1024 ^ (Z.of_nat k + 1) ≤ bytes)%Z as Hle.
  { rewrite Z.pow_add_r by lia. pose proof (Z.mul_div_le bytes 1024 ltac:(lia)).
    destruct Hk as [->|Hk]; [change (1024 ^ Z.of_nat 0)%Z with 1%Z; lia|].
    change (1024 ^ 1)%Z with 1024%Z. lia. }
  assert (bytes < 1024 ^ (Z.of_nat k + 2))%Z as Hlt'.
  { replace (Z.of_nat k + 2)%Z with (Z.succ (Z.of_nat k + 1)) by lia.
    rewrite Z.pow_succ_r by lia.
    pose proof (Z.mul_succ_div_gt bytes 1024 ltac:(lia)). lia. }
  assert (k ≤ 5) as Hk5.
  { destruct (decide (k ≤ 5)) as [|Hgt]; [done|exfalso].
    assert (1024 ^ 7 ≤ 1024 ^ (Z.of_nat k + 1))%Z by (apply Z.pow_le_mono_r; lia).
    change (1024 ^ 7)%Z with (2 ^ 70)%Z in *. lia. }
  exists k. split; [done|]. split; [done|].
  assert (k ∈ seq 0 6) as Hin by (apply elem_of_seq; lia).
  cbn [seq] in Hin. set_unfold in Hin.
  destruct Hin as [->|[->|[->|[->|[->|[->|[]]]]]]]; (split; [done|]); reflexivity.
Qed.

Lemma formatBytes_unit_witness :
  ∃ e : nat,
    e ≤ 5 ∧ (1024 ^ (Z.of_nat e + 1) ≤ 1536 < 1024 ^ (Z.of_nat e + 2))%Z ∧
    String.length (String.substring e 1 "KMGTPE") = 1 ∧
    docker.formatBytes 1536
    = fmt.f1 (float64_of_Z 1536 / float64_of_Z (1024 ^ (Z.of_nat e + 1)))%float
      +:+ " " +:+ String.substring e 1 "KMGTPE" +:+ "iB".
Proof. apply (formatBytes_unit 1536). lia. Defined.

Lemma wrap_uint64_add (a b : Z) : wrap_uint64 (wrap_uint64 a + b) = wrap_uint64 (a + b).
Proof. unfold wrap_uint64. by rewrite Zplus_mod_idemp_l. Qed.

Lemma fold_total (get : docker.networkStats → Z) (l : list (string * docker.networkStats)) :
  foldr (uncurry (λ (_ : string) net acc, wrap_uint64 (acc + get net))) 0%Z l
  = wrap_uint64 (foldr Z.add 0%Z (get <$> l.*2)).
Proof.
  induction l as [|[k net] l IH]; [done|].
  cbn [foldr fmap list_fmap uncurry snd]. cbn [foldr fmap list_fmap uncurry snd] in IH.
  rewrite IH, wrap_uint64_add. f_equal. lia.
Qed.

(** X11.  The network totals of a sample are the sums of the received
    and of the transmitted bytes of all interfaces, modulo [2^64]. *)
Theorem network_totals (v : docker.statsResponse) :
  docker.netRx (docker.statsOf v)
  = wrap_uint64 (foldr Z.add 0%Z (docker.RxBytes <$> interfaces v)) ∧
  docker.netTx (docker.statsOf v)
  = wrap_uint64 (foldr Z.add 0%Z (docker.TxBytes <$> interfaces v)).
Proof.
  unfold docker.statsOf, interfaces. cbn [docker.netRx docker.netTx].
  rewrite !map_fold_foldr. split; apply fold_total.
Qed.

Lemma initialInfo_outcome (ctr : docker.Summary) :
  (wellFormed ctr ∧ ∃ info, docker.initialInfo ctr = Ok info) ∨
  (¬ wellFormed ctr ∧ docker.initialInfo ctr = Panic).
Proof.
  unfold wellFormed, docker.initialInfo. destruct (docker.sum_Names ctr) as [|name0 names].
  - right. split; [|done]. by intros [? _].
  - destruct (String.length (docker.sum_ID ctr) <? 12) eqn:Hlen.
    + apply Nat.ltb_lt in Hlen. right. split; [|done]. intros [_ ?]. lia.
    + apply Nat.ltb_ge in Hlen. left. split; [done|eauto].
Qed.

Lemma initialInfos_outcome (containers : list docker.Summary) :
  (Forall wellFormed containers ∧ ∃ infos, docker.initialInfos containers = Ok infos ∧
                                           length infos = length containers) ∨
  (¬ Forall wellFormed containers ∧ docker.initialInfos containers = Panic).
Proof.
  induction containers as [|ctr rest IH]; [left; eauto|].
  cbn [docker.initialInfos].
  destruct (initialInfo_outcome ctr) as [[Hwf [info ->]]|[Hwf ->]].
  - destruct IH as [[Hrest (infos & -> & Hlen)]|[Hrest ->]].
    + left. split; [by constructor|]. exists (info :: infos). cbn [length]. by rewrite Hlen.
    + right. split; [|done]. by intros [_ ?]%Forall_cons.
  - right. split; [|done]. by intros [? _]%Forall_cons.
Qed.

(** X12.  The outcome of a listing, with or without statistics and for
    every order of arrival of the samples: the error of the runtime's
    list request if that fails; otherwise one record for each entry if
    every entry has a name and an identifier of twelve bytes or more;
    otherwise a run-time panic. *)
Theorem listing_outcome (c : docker.Client) (choices : list nat) (includeStats : bool) :
  match docker.ContainerList c {| docker.All := false |} with
  | inl err => docker.ListContainersWithStats c choices includeStats = Err err
  | inr containers =>
      (Forall wellFormed containers →
       ∃ result, docker.ListContainersWithStats c choices includeStats = Ok result ∧
                 length result = length containers) ∧
      (¬ Forall wellFormed containers →
       docker.ListContainersWithStats c choices includeStats = Panic)
  end.
Proof.
  unfold docker.ListContainersWithStats.
  destruct (docker.ContainerList c _) as [err|containers]; [done|].
  destruct (initialInfos_outcome containers) as [[Hwf (infos & -> & Hlen)]|[Hwf ->]].
  - split; [intros _|done]. destruct includeStats; [|eauto].
    set (sent := docker.statsSent c true 0 containers).
    pose proof (receive_all_perm choices sent) as Hperm.
    destruct (collectStats_spec (receive_all (length sent) choices sent) infos)
      as (result & -> & Hlen' & _).
    { rewrite Hperm. apply statsSent_NoDup. }
    { rewrite Hperm. apply Forall_forall. intros s (j & ctr & Hj & _ & ->)%statsSent_elem.
      cbn [docker.sampleTask docker.index]. apply lookup_lt_Some in Hj. lia. }
    exists result. split; [done|lia].
  - split; [done|]. by destruct includeStats.
Qed.

Lemma v0_info_initialInfo (ctr : docker.Summary) : docker.v0.info ctr = docker.initialInfo ctr.
Proof. reflexivity. Qed.

Lemma v0_infos_initialInfos (containers : list docker.Summary) :
  docker.v0.infos containers = docker.initialInfos containers.
Proof.
  induction containers as [|ctr rest IH]; [done|].
  cbn [docker.v0.infos docker.initialInfos]. by rewrite v0_info_initialInfo, IH.
Qed.

(** X13.  A listing without statistics (the first load) is the listing
    of the earlier [ListContainers]: it does not depend on what sampling
    would give nor on the scheduler, and every record has the
    placeholders 0, 0, ["N/A"], 0, 0. *)
Theorem first_load_without_samples (c : docker.Client) (choices : list nat) :
  docker.ListContainersWithStats c choices false = docker.v0.ListContainers c ∧
  (∀ sampler choices',
     docker.ListContainersWithStats
       {| docker.ContainerList := docker.ContainerList c; docker.ContainerStats := sampler |}
       choices' false
     = docker.ListContainersWithStats c choices false) ∧
  ∀ result, docker.ListContainersWithStats c choices false = Ok result →
    Forall (λ info, docker.CPUPerc info = 0%float ∧ docker.MemPerc info = 0%float ∧
                    docker.MemUsage info = "N/A" ∧ docker.NetRx info = 0%Z ∧
                    docker.NetTx info = 0%Z) result.
Proof.
  unfold docker.ListContainersWithStats, docker.v0.ListContainers.
  cbn [docker.ContainerList]. split; [|split].
  - destruct (docker.ContainerList c _) as [err|containers]; [done|].
    transitivity (docker.initialInfos containers);
      [by destruct (docker.initialInfos containers)|symmetry; apply v0_infos_initialInfos].
  - done.
  - intros result. destruct (docker.ContainerList c _) as [err|containers]; [done|].
    destruct (docker.initialInfos containers) as [infos| |] eqn:Hinfos; [|done..].
    intros [= ->]. revert result Hinfos.
    induction containers as [|ctr rest IH]; intros result; cbn [docker.initialInfos].
    + by intros [= <-].
    + destruct (docker.initialInfo ctr) as [info| |] eqn:Hinfo; [|done..].
      destruct (docker.initialInfos rest) as [infos| |]; [|done..].
      intros [= <-]. constructor; [by eapply initialInfo_placeholders|by apply IH].
Qed.

Local Ltac expLt :=
  repeat match goal with
         | |- context [(?a <? 4)%Z] =>
             let b := eval vm_compute in (a <? 4)%Z in change (a <? 4)%Z with b
         end;
  cbn [andb].

Local Ltac netUnit :=
  cbn zeta;
  repeat match goal with
         | |- context [float64_of_Z (wrap_uint64 ?a)] =>
             let z := eval vm_compute in (wrap_uint64 a) in change (wrap_uint64 a) with z
         | |- context [float64_of_Z (1024 ^ ?b)%Z] =>
             let z := eval vm_compute in (1024 ^ b)%Z in change (1024 ^ b)%Z with z
         end;
  match goal with
  | |- context [PrimFloat.leb 100 ?v] => destruct (PrimFloat.leb 100 v); [reflexivity|]
  end;
  match goal with
  | |- context [PrimFloat.leb 10 ?v] => destruct (PrimFloat.leb 10 v); reflexivity
  end.

(** ** The snapshot printer *)

(** X14.  For every [uint64] of 1024 or more, [formatNetBytesPlain]
    returns (the index of the unit is in range): the value divided by
    [1024^(e+1)], the largest such power that is at most the value, with
    [e] at most 4; without decimals from 100 on and with one otherwise;
    followed by the unit at index [e] of B, K, M, G, T.  So a value
    from 1024 to [1024^2 - 1] has the unit ["B"]. *)
Theorem formatNetBytesPlain_unit (bytes : Z) :
  (1024 ≤ bytes < 2 ^ 64)%Z →
  ∃ (e : nat) (unit_ : string),
    ["B"; "K"; "M"; "G"; "T"] !! e = Some unit_ ∧
    (1024 ^ (Z.of_nat e + 1) ≤ bytes)%Z ∧
    (e < 4 → (bytes < 1024 ^ (Z.of_nat e + 2))%Z) ∧
    let value := (float64_of_Z bytes / float64_of_Z (1024 ^ (Z.of_nat e + 1)))%float in
    ui.formatNetBytesPlain bytes
    = Some ((if (100 <=? value)%float then fmt.f0 value else fmt.f1 value) +:+ unit_).
Proof.
  intros [Hlo Hhi]. unfold ui.formatNetBytesPlain.
  destruct (bytes <? 1024)%Z eqn:Hlt; [apply Z.ltb_lt in Hlt; lia|clear Hlt].
  cbn [ui.formatNetBytesPlain_loop].
  destruct (1024 <=? bytes / 1024)%Z eqn:H1; expLt;
    [apply Z.leb_le in H1|apply Z.leb_gt in H1].
  2:{ exists 0, "B". split; [done|]. split; [cbn; lia|]. split.
      - intros _. change (1024 ^ (Z.of_nat 0 + 2))%Z with (1024 * 1024)%Z.
        Z.div_mod_to_equations. lia.
      - netUnit. }
  destruct (1024 <=? bytes / 1024 / 1024)%Z eqn:H2; expLt;
    [apply Z.leb_le in H2|apply Z.leb_gt in H2].
  2:{ exists 1, "K". split; [done|]. split; [|split].
      - change (1024 ^ (Z.of_nat 1 + 1))%Z with (1024 * 1024)%Z. Z.div_mod_to_equations. lia.
      - intros _. change (1024 ^ (Z.of_nat 1 + 2))%Z with (1024 * 1024 * 1024)%Z.
        Z.div_mod_to_equations. lia.
      - netUnit. }
  destruct (1024 <=? bytes / 1024 / 1024 / 1024)%Z eqn:H3;
    expLt;
    [apply Z.leb_le in H3|apply Z.leb_gt in H3].
  2:{ exists 2, "M". split; [done|]. split; [|split].
      - change (1024 ^ (Z.of_nat 2 + 1))%Z with (1024 * 1024 * 1024)%Z.
        Z.div_mod_to_equations. lia.
      - intros _. change (1024 ^ (Z.of_nat 2 + 2))%Z with (1024 * 1024 * 1024 * 1024)%Z.
        Z.div_mod_to_equations. lia.
      - netUnit. }
  destruct (1024 <=? bytes / 1024 / 1024 / 1024 / 1024)%Z eqn:H4;
    expLt;
    [apply Z.leb_le in H4|apply Z.leb_gt in H4].
  2:{ exists 3, "G". split; [done|]. split; [|split].
      - change (1024 ^ (Z.of_nat 3 + 1))%Z with (1024 * 1024 * 1024 * 1024)%Z.
        Z.div_mod_to_equations. lia.
      - intros _. change (1024 ^ (Z.of_nat 3 + 2))%Z with (1024 * 1024 * 1024 * 1024 * 1024)%Z.
        Z.div_mod_to_equations. lia.
      - netUnit. }
  exists 4, "T". split; [done|]. split; [|split].
  - change (1024 ^ (Z.of_nat 4 + 1))%Z with (1024 * 1024 * 1024 * 1024 * 1024)%Z.
    Z.div_mod_to_equations. lia.
  - lia.
  - netUnit.
Qed.

Lemma formatNetBytesPlain_unit_witness :
  ∃ (e : nat) (unit_ : string),
    ["B"; "K"; "M"; "G"; "T"] !! e = Some unit_ ∧
    (1024 ^ (Z.of_nat e + 1) ≤ 2048)%Z ∧
    (e < 4 → (2048 < 1024 ^ (Z.of_nat e + 2))%Z) ∧
    let value := (float64_of_Z 2048 / float64_of_Z (1024 ^ (Z.of_nat e + 1)))%float in
    ui.formatNetBytesPlain 2048
    = Some ((if (100 <=? value)%float then fmt.f0 value else fmt.f1 value) +:+ unit_).
Proof. apply (formatNetBytesPlain_unit 2048). lia. Defined.

(** The text for 2048 bytes: two units of 1024 bytes, marked ["B"]. *)
Example formatNetBytesPlain_2048 : ui.formatNetBytesPlain 2048 = Some "2.0B".
Proof. by vm_compute. Qed.

(** ** The interactive program *)

Lemma length_flatOf_le (base : nat) (gs : list project) :
  length (flatOf base gs) ≤ bodySize gs.
Proof.
  revert base. induction gs as [|g gs IH]; intros base; [done|].
  cbn [flatOf]. rewrite length_app, bodySize_cons. specialize (IH (base + projectSize g)).
  unfold shownOf, projectSize in *. rewrite length_app.
  destruct (String.eqb _ _), (p_expanded g); cbn [length]; rewrite ?length_seq; lia.
Qed.

Lemma treeState_lenFlat (h : list model.TreeNode) (t : model.Tree) :
  treeState h t → (model.lenFlat t ≤ Z.of_nat (length h))%Z.
Proof.
  unfold model.lenFlat. intros [(-> & _ & ->)|(gs & (-> & _ & ->) & _)]; [done|].
  pose proof (length_flatOf_le 1 gs). rewrite length_layout. lia.
Qed.

Lemma treeState_same (h : list model.TreeNode) (t t' : model.Tree) :
  model.Root t' = model.Root t → model.Flat t' = model.Flat t →
  treeState h t → treeState h t'.
Proof.
  intros HR HF [(-> & ? & ?)|(gs & (-> & ? & ?) & ?)]; [left|right].
  - split; [done|]. by rewrite HR, HF.
  - exists gs. split; [|done]. split; [done|]. by rewrite HR, HF.
Qed.

Lemma adjustViewport_viewOk (m : ui.Model) (t : model.Tree) :
  ui.tree m = Some t → treeState (ui.nodes m) t → selectionOk t →
  (Z.of_nat (length (ui.nodes m)) < 2 ^ 63)%Z → is_int (ui.viewportTop m) →
  viewOk (ui.adjustViewport m) ∧
  ui.nodes (ui.adjustViewport m) = ui.nodes m ∧
  ui.tree (ui.adjustViewport m) = Some t ∧
  ui.height (ui.adjustViewport m) = ui.height m.
Proof.
  intros Ht Hstate Hsel Hlen Htop.
  destruct (decide (model.Flat t = [])) as [Hempty|Hne].
  - rewrite (empty_flat_adjustViewport m t Ht Hempty). split; [|done].
    exists t. split_and!; try done.
  - destruct (adjustViewport_spec m t Ht Hne (proj1 Hsel) Htop)
      as (Hn & Ht' & _ & Hh & Htop' & Hin & Hge).
    split; [|done]. exists t. rewrite Hn. split_and!; try done.
Qed.

Lemma MoveUp_same (t : model.Tree) :
  model.Root (model.MoveUp t) = model.Root t ∧ model.Flat (model.MoveUp t) = model.Flat t.
Proof. unfold model.MoveUp. by destruct (0 <? _)%Z. Qed.

Lemma MoveDown_same (t : model.Tree) :
  model.Root (model.MoveDown t) = model.Root t ∧ model.Flat (model.MoveDown t) = model.Flat t.
Proof. unfold model.MoveDown. by destruct (_ <? _)%Z. Qed.

Lemma pgupLoop_same (fuel : nat) (i vh : Z) (t : model.Tree) :
  selectionOk t →
  model.Root (ui.pgupLoop fuel i vh t) = model.Root t ∧
  model.Flat (ui.pgupLoop fuel i vh t) = model.Flat t ∧
  selectionOk (ui.pgupLoop fuel i vh t).
Proof.
  revert i t. induction fuel as [|fuel IH]; intros i t Hsel; cbn [ui.pgupLoop]; [done|].
  destruct (_ && _); [|done].
  destruct (IH (wrap_int (i + 1)) (model.MoveUp t) (MoveUp_selectionOk t Hsel)) as (HR & HF & ?).
  destruct (MoveUp_same t) as [HR' HF']. rewrite HR, HF. done.
Qed.

Lemma pgdownLoop_same (fuel : nat) (i vh : Z) (t : model.Tree) :
  selectionOk t →
  model.Root (ui.pgdownLoop fuel i vh t) = model.Root t ∧
  model.Flat (ui.pgdownLoop fuel i vh t) = model.Flat t ∧
  selectionOk (ui.pgdownLoop fuel i vh t).
Proof.
  revert i t. induction fuel as [|fuel IH]; intros i t Hsel; cbn [ui.pgdownLoop]; [done|].
  destruct (_ && _); [|done].
  destruct (IH (wrap_int (i + 1)) (model.MoveDown t) (MoveDown_selectionOk t Hsel)) as (HR & HF & ?).
  destruct (MoveDown_same t) as [HR' HF']. rewrite HR, HF. done.
Qed.

Lemma sameProjects_containers (gs gs' : list project) :
  sameProjects gs gs' → p_containers <$> gs = p_containers <$> gs'.
Proof.
  intros H. apply (f_equal (fmap snd)) in H. by rewrite <- !list_fmap_compose in H.
Qed.

Lemma bodySize_sum (gs : list project) :
  bodySize gs = length gs + length (concat (p_containers <$> gs)).
Proof.
  induction gs as [|g gs IH]; [done|].
  rewrite bodySize_cons, IH. cbn [fmap list_fmap concat length]. rewrite length_app.
  unfold projectSize. lia.
Qed.

Lemma nonEmpty_length (gs : list project) :
  nonEmpty gs → length gs ≤ length (concat (p_containers <$> gs)).
Proof.
  induction 1 as [|g gs Hg _ IH]; [done|].
  cbn [fmap list_fmap concat length]. rewrite length_app.
  destruct (p_containers g); [done|]. cbn [length]. lia.
Qed.

Lemma sameProjects_bodySize (gs gs' : list project) :
  sameProjects gs gs' → bodySize gs = bodySize gs'.
Proof.
  intros H. rewrite !bodySize_sum, (sameProjects_length _ _ H), (sameProjects_containers _ _ H).
  done.
Qed.

Lemma sameProjects_sym (gs gs' : list project) : sameProjects gs gs' → sameProjects gs' gs.
Proof. done. Qed.

(** [ToggleExpanded] on the tree of a model. *)
Lemma ToggleExpanded_state (h : list model.TreeNode) (t : model.Tree) :
  treeState h t → selectionOk t →
  ∃ h' t', model.ToggleExpanded h t = Some (h', t') ∧ treeState h' t' ∧ selectionOk t' ∧
           length h' = length h.
Proof.
  intros [(-> & HR & HF)|(gs & Ht & Hne & Hroots & Hnames)] Hsel.
  - exists [], t. unfold model.ToggleExpanded, model.GetSelected, model.lenFlat.
    rewrite HF. cbn [length]. pose proof Hsel as [[? _] _].
    destruct (model.Selected t <? 0)%Z eqn:E1; [apply Z.ltb_lt in E1; lia|].
    destruct (Z.of_nat 0 <=? model.Selected t)%Z eqn:E2; [|apply Z.leb_gt in E2; lia].
    cbn [orb]. split; [done|]. split; [by left|]. done.
  - destruct (treeStep_layout gs h t CallToggleExpanded Ht Hsel)
      as (gs' & h' & t' & Hstep & Ht' & Hsel' & Hsame & Hr).
    exists h', t'. split; [done|]. split; [|split; [done|]].
    + right. exists gs'. split; [done|]. split; [by eapply sameProjects_nonEmpty|].
      split; [by apply Hr|]. by rewrite (sameProjects_names _ _ Hsame).
    + destruct Ht as (-> & _), Ht' as (-> & _).
      by rewrite !length_layout, (sameProjects_bodySize _ _ Hsame).
Qed.

Lemma GetSelected_state (h : list model.TreeNode) (t : model.Tree) (node : nat) :
  treeState h t → model.GetSelected t = Some node → is_Some (h !! node).
Proof.
  intros [(-> & _ & HF)|(gs & (-> & _ & HF) & _)] Hget.
  - apply GetSelected_elem in Hget as [Hget _]. by rewrite HF in Hget.
  - apply GetSelected_elem in Hget as [Hget _]. apply flat_lookup_is_Some.
    rewrite <- HF. by eapply list_elem_of_lookup_2.
Qed.

(** The keys "left" and "right" are [ToggleExpanded] where they act. *)
Lemma setExpanded_toggle (m : ui.Model) (t : model.Tree) (node : nat) (n : model.TreeNode)
    (expanded : bool) :
  model.GetSelected t = Some node → ui.nodes m !! node = Some n →
  model.Type_ n = model.NodeTypeProject → model.Expanded n = negb expanded →
  ui.setExpanded m t node n expanded
  = match model.ToggleExpanded (ui.nodes m) t with
    | Some (h', t') => Some (ui.adjustViewport (ui.set_tree t' (ui.set_nodes h' m)))
    | None => None
    end.
Proof.
  intros Hget Hn Htype Hexp. unfold ui.setExpanded, model.ToggleExpanded.
  rewrite Hget, Hn, (bool_decide_eq_true_2 _ Htype), Hexp, negb_involutive.
  by destruct (model.UpdateFlatView _ _).
Qed.

Lemma retarget_viewOk (m : ui.Model) (t t' : model.Tree) :
  viewOk m → ui.tree m = Some t →
  model.Root t' = model.Root t → model.Flat t' = model.Flat t → selectionOk t' →
  viewOk (ui.adjustViewport (ui.set_tree t' m)) ∧
  ui.height (ui.adjustViewport (ui.set_tree t' m)) = ui.height m.
Proof.
  intros (t0 & Ht0 & Hstate & _ & Hlen & Htop & _) Ht HR HF Hsel.
  rewrite Ht in Ht0. injection Ht0 as <-.
  destruct (adjustViewport_viewOk (ui.set_tree t' m) t') as (Hok & _ & _ & Hh); try done.
  by apply (treeState_same _ t).
Qed.

Lemma toggled_viewOk (m : ui.Model) (t : model.Tree) :
  viewOk m → ui.tree m = Some t →
  ∃ h' t', model.ToggleExpanded (ui.nodes m) t = Some (h', t') ∧
    viewOk (ui.adjustViewport (ui.set_tree t' (ui.set_nodes h' m))) ∧
    ui.height (ui.adjustViewport (ui.set_tree t' (ui.set_nodes h' m))) = ui.height m.
Proof.
  intros (t0 & Ht0 & Hstate & Hsel & Hlen & Htop & _) Ht.
  rewrite Ht in Ht0. injection Ht0 as <-.
  destruct (ToggleExpanded_state _ _ Hstate Hsel) as (h' & t' & Htog & Hstate' & Hsel' & Hlen').
  exists h', t'. split; [done|].
  destruct (adjustViewport_viewOk (ui.set_tree t' (ui.set_nodes h' m)) t')
    as (Hok & _ & _ & Hh); try done.
  cbn [ui.set_tree ui.set_nodes ui.nodes]. lia.
Qed.

Lemma treeKey_viewOk (m : ui.Model) (key : string) :
  viewOk m →
  ∃ m', ui.treeKey m key = Some m' ∧ viewOk m' ∧ ui.height m' = ui.height m.
Proof.
  intros Hok. pose proof Hok as (t & Ht & Hstate & Hsel & Hlen & Htop & Hview).
  unfold ui.treeKey. rewrite Ht. cbn [mbind option_bind].
  destruct (ui.keyIs key ["up"; "k"]).
  { eexists. split; [done|]. destruct (MoveUp_same t).
    apply (retarget_viewOk m t); try done. by apply MoveUp_selectionOk. }
  destruct (ui.keyIs key ["down"; "j"]).
  { eexists. split; [done|]. destruct (MoveDown_same t).
    apply (retarget_viewOk m t); try done. by apply MoveDown_selectionOk. }
  destruct (ui.keyIs key ["pgup"]).
  { eexists. split; [done|].
    destruct (pgupLoop_same (Z.to_nat (ui.visibleHeight m)) 0 (ui.visibleHeight m) t Hsel)
      as (? & ? & ?).
    by apply (retarget_viewOk m t). }
  destruct (ui.keyIs key ["pgdown"]).
  { eexists. split; [done|].
    destruct (pgdownLoop_same (Z.to_nat (ui.visibleHeight m)) 0 (ui.visibleHeight m) t Hsel)
      as (? & ? & ?).
    by apply (retarget_viewOk m t). }
  destruct (ui.keyIs key ["home"]).
  { eexists. split; [done|]. apply (retarget_viewOk m t); try done.
    unfold selectionOk. cbn [model.set_Selected model.Selected]. lia. }
  destruct (ui.keyIs key ["end"]).
  { eexists. split; [done|]. pose proof (treeState_lenFlat _ _ Hstate) as Hle.
    destruct (0 <? model.lenFlat t)%Z eqn:E; [apply Z.ltb_lt in E|].
    - apply (retarget_viewOk m t); try done.
      unfold selectionOk, model.lenFlat in *.
      cbn [model.set_Selected model.Selected model.Flat].
      rewrite wrap_int_id by (unfold is_int; lia). lia.
    - by apply (retarget_viewOk m t). }
  destruct (ui.keyIs key ["left"; "h"]).
  { destruct (model.GetSelected t) as [node|] eqn:Hget; [|by exists m].
    destruct (GetSelected_state _ _ _ Hstate Hget) as [n Hn]. rewrite Hn. cbn [mbind option_bind].
    destruct (bool_decide (model.Type_ n = model.NodeTypeProject)) eqn:Htype; [|by exists m].
    apply bool_decide_eq_true in Htype.
    destruct (model.Expanded n) eqn:Hexp; cbn [andb]; [|by exists m].
    rewrite (setExpanded_toggle m t node n false) by done.
    destruct (toggled_viewOk m t Hok Ht) as (h' & t' & -> & ? & ?). eauto. }
  destruct (ui.keyIs key ["right"; "l"]).
  { destruct (model.GetSelected t) as [node|] eqn:Hget; [|by exists m].
    destruct (GetSelected_state _ _ _ Hstate Hget) as [n Hn]. rewrite Hn. cbn [mbind option_bind].
    destruct (bool_decide (model.Type_ n = model.NodeTypeProject)) eqn:Htype; [|by exists m].
    apply bool_decide_eq_true in Htype.
    destruct (model.Expanded n) eqn:Hexp; cbn [andb negb]; [by exists m|].
    rewrite (setExpanded_toggle m t node n true) by done.
    destruct (toggled_viewOk m t Hok Ht) as (h' & t' & -> & ? & ?). eauto. }
  by exists m.
Qed.

Lemma for_each_app {A S} (body : S → A → option S) (s : S) (xs ys : list A) :
  model.for_each body s (xs ++ ys) = model.for_each body s xs ≫= λ s', model.for_each body s' ys.
Proof.
  revert s. induction xs as [|x xs IH]; intros s; cbn [app model.for_each]; [done|].
  destruct (body s x); [apply IH|done].
Qed.

Lemma saveExpanded_containers (h : list model.TreeNode) (parent start : nat)
    (cs : list docker.ContainerInfo) (ep : gmap string bool) :
  (∀ j c, cs !! j = Some c → h !! (start + j) = Some (containerNode parent c)) →
  model.for_each (ui.saveExpanded h) ep (seq start (length cs)) = Some ep.
Proof.
  revert start. induction cs as [|c cs IH]; intros start Hcs; [done|].
  cbn [length seq model.for_each]. unfold ui.saveExpanded at 1.
  pose proof (Hcs 0 c eq_refl) as H0. rewrite Nat.add_0_r in H0. rewrite H0.
  cbn [containerNode model.Type_]. rewrite bool_decide_eq_false_2 by done.
  apply IH. intros j c' Hc'. rewrite <- (Hcs (S j) c' Hc'). f_equal. lia.
Qed.

Lemma saveExpanded_from (gs1 gs2 : list project) (ep : gmap string bool) :
  model.for_each (ui.saveExpanded (layout (gs1 ++ gs2))) ep (flatOf (S (bodySize gs1)) gs2)
  = Some (foldl saveFlag ep gs2).
Proof.
  revert gs1 ep. induction gs2 as [|g gs2 IH]; intros gs1 ep; [done|].
  cbn [flatOf foldl]. rewrite for_each_app.
  assert (model.for_each (ui.saveExpanded (layout (gs1 ++ g :: gs2))) ep
            (shownOf (S (bodySize gs1)) g) = Some (saveFlag ep g)) as ->.
  { unfold shownOf, saveFlag.
    destruct (holds_cons _ _ _ _ (holds_app_r _ _ _ _ (holds_layout (gs1 ++ g :: gs2))))
      as (_ & _ & Hcs). cbn [Nat.add] in Hcs.
    assert (∀ ep', model.for_each (ui.saveExpanded (layout (gs1 ++ g :: gs2))) ep'
              (if p_expanded g then seq (S (S (bodySize gs1))) (length (p_containers g)) else [])
            = Some ep') as Hrest.
    { intros ep'. destruct (p_expanded g); [|done].
      apply (saveExpanded_containers _ (S (bodySize gs1))). intros j c Hc.
      rewrite <- (Hcs j c Hc). f_equal. }
    destruct (String.eqb (p_name g) "root"); [apply Hrest|].
    cbn [app model.for_each]. unfold ui.saveExpanded at 1.
    rewrite layout_lookup_project. cbn [projectNode model.Type_ model.Name model.Expanded].
    rewrite bool_decide_eq_true_2 by done. apply Hrest. }
  cbn [mbind option_bind]. specialize (IH (gs1 ++ [g]) (saveFlag ep g)).
  rewrite <- (assoc_L (++)) in IH. cbn [app] in IH.
  rewrite bodySize_app, bodySize_cons, bodySize_nil in IH.
  replace (S (bodySize gs1 + (projectSize g + 0))) with (S (bodySize gs1) + projectSize g)
    in IH by lia.
  exact IH.
Qed.

Lemma saveExpanded_layout (gs : list project) :
  model.for_each (ui.saveExpanded (layout gs)) ∅ (flatOf 1 gs) = Some (savedFlags gs).
Proof. apply (saveExpanded_from [] gs). Qed.

Lemma restoreFlag_same (ep : gmap string bool) (g : project) :
  p_name (restoreFlag ep g) = p_name g ∧ p_containers (restoreFlag ep g) = p_containers g.
Proof. unfold restoreFlag. by destruct (ep !! p_name g). Qed.

Lemma restoreFlags_sameProjects (ep : gmap string bool) (gs : list project) :
  sameProjects (restoreFlag ep <$> gs) gs.
Proof.
  unfold sameProjects. rewrite <- list_fmap_compose. apply list_fmap_ext.
  intros i g _. cbn. by destruct (restoreFlag_same ep g) as [-> ->].
Qed.

Lemma restoreExpanded_from (ep : gmap string bool) (gs1 gs2 : list project) :
  model.for_each (ui.restoreExpanded ep) (layout (gs1 ++ gs2))
    (projectAddrs (S (bodySize gs1)) gs2)
  = Some (layout (gs1 ++ (restoreFlag ep <$> gs2))).
Proof.
  revert gs1. induction gs2 as [|g gs2 IH]; intros gs1; [done|].
  cbn [projectAddrs model.for_each fmap list_fmap]. unfold ui.restoreExpanded at 1.
  rewrite layout_lookup_project.
  change (model.Type_ (projectNode (S (bodySize gs1)) g)) with model.NodeTypeProject.
  change (model.Name (projectNode (S (bodySize gs1)) g)) with (p_name g).
  rewrite bool_decide_eq_true_2 by done.
  specialize (IH (gs1 ++ [restoreFlag ep g])).
  rewrite <- !(assoc_L (++)) in IH. cbn [app] in IH.
  rewrite bodySize_app, bodySize_cons, bodySize_nil in IH.
  replace (S (bodySize gs1 + (projectSize (restoreFlag ep g) + 0)))
    with (S (bodySize gs1) + projectSize g) in IH.
  2:{ unfold projectSize. destruct (restoreFlag_same ep g) as [_ ->]. lia. }
  unfold restoreFlag at 1 2 in IH. unfold restoreFlag at 1.
  destruct (ep !! p_name g) as [expanded|]; [|exact IH].
  rewrite layout_set_expanded. exact IH.
Qed.

Lemma restoreExpanded_layout (ep : gmap string bool) (gs : list project) :
  model.for_each (ui.restoreExpanded ep) (layout gs) (projectAddrs 1 gs)
  = Some (layout (restoreFlag ep <$> gs)).
Proof. apply (restoreExpanded_from ep [] gs). Qed.

Lemma saveFlag_root (gs : list project) (ep : gmap string bool) :
  ep !! "root" = None → foldl saveFlag ep gs !! "root" = None.
Proof.
  revert ep. induction gs as [|g gs IH]; intros ep Hep; [done|]. cbn [foldl]. apply IH.
  unfold saveFlag. destruct (String.eqb_spec (p_name g) "root") as [|Hne]; [done|].
  by rewrite lookup_insert_ne.
Qed.

Lemma restoreFlags_rootsExpanded (gs0 gs : list project) :
  rootsExpanded gs → rootsExpanded (restoreFlag (savedFlags gs0) <$> gs).
Proof.
  intros Hgs. apply Forall_fmap. eapply Forall_impl; [exact Hgs|]. intros g Hg. cbn.
  unfold restoreFlag. destruct (String.eqb_spec (p_name g) "root") as [Heq|Hne].
  - rewrite Heq. unfold savedFlags. rewrite saveFlag_root by done. intros _.
    apply Hg. by rewrite Heq.
  - destruct (_ !! _); cbn [withExpanded p_name]; intros Heq%String.eqb_eq; done.
Qed.

Lemma RestoreSelection_state (h : list model.TreeNode) (t : model.Tree) (path : string) :
  Forall (λ node, is_Some (model.GetNodePath h (Some node))) (model.Flat t) →
  selectionOk t → (model.lenFlat t < 2 ^ 63)%Z →
  ∃ t', model.RestoreSelection h t path = Some t' ∧
        model.Root t' = model.Root t ∧ model.Flat t' = model.Flat t ∧ selectionOk t'.
Proof.
  intros Hdef Hsel Hlen. unfold model.RestoreSelection.
  destruct (String.eqb path ""); [by exists t|].
  destruct (searchPath_spec h path (model.Flat t) 0 Hdef)
    as [(k & node & -> & Hk & _)|[-> _]].
  - eexists. split; [done|]. split; [done|]. split; [done|].
    apply lookup_lt_Some in Hk. unfold selectionOk, model.lenFlat in *.
    cbn [model.set_Selected model.Selected model.Flat Nat.add]. lia.
  - destruct (model.lenFlat t <=? model.Selected t)%Z; [|by exists t].
    eexists. split; [done|]. split; [done|]. split; [done|].
    unfold selectionOk. cbn [model.set_Selected model.Selected]. lia.
Qed.

Lemma layout_paths_defined (gs : list project) :
  Forall (λ node, is_Some (model.GetNodePath (layout gs) (Some node))) (flatOf 1 gs).
Proof.
  apply Forall_forall. intros node Hin%flatOf_lt. apply GetNodePath_layout.
  rewrite length_layout. lia.
Qed.

(** What a refresh saves of the tree of a model. *)
Lemma GetSelected_empty (t : model.Tree) : model.Flat t = [] → model.GetSelected t = None.
Proof.
  intros HF. unfold model.GetSelected, model.lenFlat. rewrite HF.
  destruct (_ || _); [done|]. by rewrite lookup_nil.
Qed.

Lemma savedState_empty (m : ui.Model) (t : model.Tree) :
  ui.tree m = Some t → model.Flat t = [] → ui.savedState m = Some ("", ∅).
Proof.
  intros Ht HF. unfold ui.savedState. rewrite Ht, (GetSelected_empty t HF), HF. done.
Qed.

Lemma savedState_layout (m : ui.Model) (t : model.Tree) (gs : list project) :
  ui.tree m = Some t → treeOf gs (ui.nodes m) t →
  ∃ selectedPath,
    ui.savedState m = Some (selectedPath, savedFlags gs) ∧
    match model.GetSelected t with
    | Some node => model.GetNodePath (ui.nodes m) (Some node) = Some selectedPath
    | None => selectedPath = ""
    end.
Proof.
  intros Ht (Hh & HR & HF). unfold ui.savedState. rewrite Ht, Hh, HF, saveExpanded_layout.
  destruct (model.GetSelected t) as [node|] eqn:Hget; [|by exists ""].
  apply GetSelected_elem in Hget as [Hget _]. rewrite HF in Hget.
  pose proof (layout_paths_defined gs) as Hdef. rewrite Forall_forall in Hdef.
  destruct (Hdef node) as [path Hpath]; [by eapply list_elem_of_lookup_2|].
  exists path. by rewrite Hpath.
Qed.

(** The refresh of a model with the containers [msg], given what was
    saved of the old tree. *)
Lemma refresh_layout (m : ui.Model) (msg : list docker.ContainerInfo)
    (selectedPath : string) (gs0 : list project) :
  ui.savedState m = Some (selectedPath, savedFlags gs0) →
  (Z.of_nat (length msg) < 2 ^ 62)%Z →
  let gs := restoreFlag (savedFlags gs0) <$> groupsOf msg in
  let t0 := {| model.Root := Some 0; model.Flat := flatOf 1 gs; model.Selected := 0 |} in
  ∃ t, (if negb (String.eqb selectedPath "")
        then model.RestoreSelection (layout gs) t0 selectedPath else Some t0) = Some t ∧
       model.Root t = Some 0 ∧ model.Flat t = flatOf 1 gs ∧ selectionOk t ∧
       (Z.of_nat (length (layout gs)) < 2 ^ 63)%Z ∧
       ui.updateContainers m msg
       = Some (ui.adjustViewport (ui.set_tree t (ui.set_nodes (layout gs) m))).
Proof.
  intros Hsaved Hlen gs t0.
  assert (Z.of_nat (length (layout gs)) < 2 ^ 63)%Z as Hsize.
  { rewrite length_layout, (sameProjects_bodySize gs (groupsOf msg))
      by apply restoreFlags_sameProjects.
    rewrite bodySize_sum. pose proof (nonEmpty_length _ (groupsOf_nonEmpty msg)).
    rewrite (Permutation_length (groupsOf_perm msg)) in *. lia. }
  assert (selectionOk t0) as Hsel0 by (unfold selectionOk, t0; cbn [model.Selected]; lia).
  assert (model.lenFlat t0 < 2 ^ 63)%Z as Hlen0.
  { unfold model.lenFlat, t0. cbn [model.Flat]. pose proof (length_flatOf_le 1 gs).
    rewrite length_layout in Hsize. lia. }
  assert (∃ t, (if negb (String.eqb selectedPath "")
                then model.RestoreSelection (layout gs) t0 selectedPath else Some t0) = Some t ∧
               model.Root t = Some 0 ∧ model.Flat t = flatOf 1 gs ∧ selectionOk t)
    as (t & Hrestore & HR & HF & Hsel).
  { destruct (negb _); [|by exists t0].
    destruct (RestoreSelection_state (layout gs) t0 selectedPath) as (t & -> & ? & ? & ?);
      [apply layout_paths_defined|done..|]. by exists t. }
  exists t. split; [done|]. split; [done|]. split; [done|]. split; [done|]. split; [done|].
  unfold ui.updateContainers. rewrite Hsaved. cbn [mbind option_bind].
  rewrite BuildTree_layout. cbn [mbind option_bind model.Root].
  change (layout (groupsOf msg) !! 0) with (Some (rootNode (projectAddrs 1 (groupsOf msg)))).
  cbn [mbind option_bind rootNode model.Children].
  rewrite restoreExpanded_layout. cbn [mbind option_bind]. fold gs.
  rewrite UpdateFlatView_layout by done. cbn [mbind option_bind model.set_Flat model.Root model.Selected].
  change (model.set_Flat (flatOf 1 gs) _) with t0. by rewrite Hrestore.
Qed.

Lemma savedState_viewOk (m : ui.Model) :
  viewOk m → ∃ selectedPath gs0, ui.savedState m = Some (selectedPath, savedFlags gs0).
Proof.
  intros (t & Ht & [(_ & _ & HF)|(gs & Hgs & _)] & _).
  - exists "", []. by apply (savedState_empty m t).
  - destruct (savedState_layout m t gs Ht Hgs) as (path & ? & _). by exists path, gs.
Qed.

Lemma refreshed_state (gs0 : list project) (msg : list docker.ContainerInfo) (t : model.Tree) :
  let gs := restoreFlag (savedFlags gs0) <$> groupsOf msg in
  model.Root t = Some 0 → model.Flat t = flatOf 1 gs → treeState (layout gs) t.
Proof.
  intros gs HR HF. right. exists gs. split; [done|].
  pose proof (restoreFlags_sameProjects (savedFlags gs0) (groupsOf msg)) as Hsame.
  split; [|split].
  - eapply sameProjects_nonEmpty; [exact Hsame|apply groupsOf_nonEmpty].
  - apply restoreFlags_rootsExpanded, groupsOf_rootsExpanded.
  - unfold gs. rewrite (sameProjects_names _ _ Hsame). apply sorted_lt_NoDup, groupsOf_names.
Qed.

Lemma updateContainers_viewOk (m : ui.Model) (msg : list docker.ContainerInfo) :
  viewOk m → (Z.of_nat (length msg) < 2 ^ 62)%Z →
  ∃ m', ui.updateContainers m msg = Some m' ∧ viewOk m' ∧ ui.height m' = ui.height m.
Proof.
  intros Hok Hlen. destruct (savedState_viewOk m Hok) as (path & gs0 & Hsaved).
  destruct (refresh_layout m msg path gs0 Hsaved Hlen) as (t & _ & HR & HF & Hsel & Hsize & ->).
  eexists. split; [done|]. destruct Hok as (_ & _ & _ & _ & _ & Htop & _).
  destruct (adjustViewport_viewOk
              (ui.set_tree t (ui.set_nodes (layout (restoreFlag (savedFlags gs0) <$> groupsOf msg)) m)) t)
    as (Hok' & _ & _ & Hh); try done.
  by apply refreshed_state.
Qed.

Lemma children_lookup (gs : list project) (node : nat) (n : model.TreeNode) :
  layout gs !! node = Some n →
  is_Some (mapM (λ child, layout gs !! child) (model.Children n)).
Proof.
  intros Hn. apply mapM_is_Some, Forall_forall. intros child Hchild.
  apply lookup_lt_is_Some. destruct node as [|node].
  - injection Hn as <-. cbn [rootNode model.Children] in Hchild.
    apply projectAddrs_elem in Hchild as (gs1 & g & gs2 & -> & ->).
    rewrite length_layout, bodySize_app, bodySize_cons. unfold projectSize. lia.
  - destruct (layout_lookup_node gs node n Hn)
      as (gs1 & g & gs2 & -> & [[-> ->]|(j & c & -> & Hc & ->)]).
    + cbn [projectNode model.Children] in Hchild. apply elem_of_seq in Hchild.
      rewrite length_layout, bodySize_app, bodySize_cons. unfold projectSize. lia.
    + by apply elem_of_nil in Hchild.
Qed.

Lemma openMenu_modelOk (m : ui.FullModel) :
  modelOk m → ∃ m', ui.openMenu m = Some m' ∧ modelOk m' ∧ ui.treeView m' = ui.treeView m.
Proof.
  intros [Hview Hmenu]. pose proof Hview as (t & Ht & Hstate & _).
  unfold ui.openMenu. rewrite Ht. cbn [mbind option_bind].
  destruct (model.GetSelected t) as [node|] eqn:Hget; [|by exists m].
  destruct (GetSelected_state _ _ _ Hstate Hget) as [n Hn]. rewrite Hn. cbn [mbind option_bind].
  destruct (model.Type_ n).
  - cbn [ui.set_viewMode ui.set_menuSelected ui.treeView].
    destruct Hstate as [(Hh & _)|(gs & (Hh & _) & _)]; [by rewrite Hh in Hn|].
    rewrite Hh in Hn |- *. destruct (children_lookup gs node n Hn) as [children Hc].
    unfold ui.getProjectMenuItems. rewrite Hc. cbn [mbind option_bind].
    eexists. split; [done|]. split; [|done]. split; [done|]. cbn. lia.
  - eexists. split; [done|]. split; [|done]. split; [done|]. cbn. lia.
Qed.

Lemma menuKey_modelOk (m : ui.FullModel) (key : string) :
  modelOk m → ∃ m' cmd, ui.menuKey m key = Some (m', cmd) ∧ modelOk m' ∧
                        ui.treeView m' = ui.treeView m.
Proof.
  intros [Hview Hmenu]. unfold ui.menuKey.
  destruct (ui.keyIs key ["up"; "k"]).
  { eexists _, _. split; [done|]. destruct (0 <? ui.menuSelected m)%Z eqn:E; [|done].
    apply Z.ltb_lt in E. split; [|done]. split; [done|]. cbn [ui.set_menuSelected ui.menuSelected].
    rewrite wrap_int_id by (unfold is_int; lia). lia. }
  destruct (ui.keyIs key ["down"; "j"]).
  { eexists _, _. split; [done|].
    destruct (ui.menuSelected m <? _)%Z eqn:E; [|done].
    apply Z.ltb_lt in E. split; [|done]. split; [done|]. cbn [ui.set_menuSelected ui.menuSelected].
    pose proof (wrap_int_is_int (Z.of_nat (length (ui.menuItems m)) - 1)) as Hint.
    unfold is_int in Hint. rewrite wrap_int_id by (unfold is_int; lia). lia. }
  destruct (ui.keyIs key ["enter"]).
  { destruct (ui.menuSelected m <? Z.of_nat (length (ui.menuItems m)))%Z eqn:E;
      [|by eexists _, _].
    apply Z.ltb_lt in E.
    destruct (ui.menuSelected m <? 0)%Z eqn:E0; [apply Z.ltb_lt in E0; lia|].
    destruct (lookup_lt_is_Some_2 (ui.menuItems m) (Z.to_nat (ui.menuSelected m))) as [item ->];
      [lia|].
    by eexists _, _. }
  destruct (ui.keyIs key ["esc"]); by eexists _, _.
Qed.

Lemma logsKey_modelOk (m : ui.FullModel) (key : string) :
  modelOk m → modelOk (ui.logsKey m key) ∧ ui.treeView (ui.logsKey m key) = ui.treeView m.
Proof.
  intros Hok. unfold ui.logsKey.
  repeat match goal with
         | |- context [if ?b then _ else _] => destruct b
         end; done.
Qed.

Lemma handleKeyPress_modelOk (m : ui.FullModel) (key : string) :
  modelOk m → ∃ m' cmd, ui.handleKeyPress m key = Some (m', cmd) ∧ modelOk m'.
Proof.
  intros Hok. unfold ui.handleKeyPress.
  destruct (bool_decide (ui.viewMode m = ui.ViewModeLogs)).
  { eexists _, _. split; [done|]. by apply logsKey_modelOk. }
  destruct (bool_decide (ui.viewMode m = ui.ViewModeMenu)).
  { destruct (menuKey_modelOk m key Hok) as (m' & cmd & -> & ? & _). by exists m', cmd. }
  destruct (ui.keyIs key ["q"; "ctrl+c"]); [by eexists _, _|].
  destruct (ui.keyIs key ["enter"]).
  { destruct (openMenu_modelOk m Hok) as (m' & -> & ? & _). by eexists _, _. }
  destruct Hok as [Hview Hmenu].
  destruct (treeKey_viewOk (ui.treeView m) key Hview) as (v & -> & Hv & _).
  by eexists _, _.
Qed.

Lemma Update_modelOk (m : ui.FullModel) (msg : ui.Msg) :
  modelOk m → validMsg msg → ∃ m' cmd, ui.Update m msg = Some (m', cmd) ∧ modelOk m'.
Proof.
  intros Hok Hmsg. destruct msg as [w h|containers| | | |key|]; cbn [ui.Update];
    try (by eexists _, _).
  - eexists _, _. split; [done|]. destruct Hok as [(t & Ht & Hstate & Hsel & Hlen & Htop & _) ?].
    split; [|done]. cbn [ui.set_treeView ui.treeView].
    by apply (adjustViewport_viewOk (ui.set_size w h (ui.treeView m)) t).
  - destruct Hok as [Hview Hmenu].
    destruct (updateContainers_viewOk _ containers Hview Hmsg) as (v & -> & Hv & _).
    by eexists _, _.
  - by apply handleKeyPress_modelOk.
Qed.

Lemma updates_modelOk (msgs : list ui.Msg) (m : ui.FullModel) :
  modelOk m → Forall validMsg msgs → ∃ m', ui.updates m msgs = Some m' ∧ modelOk m'.
Proof.
  unfold ui.updates. revert m. induction msgs as [|msg msgs IH]; intros m Hok Hmsgs.
  - by exists m.
  - apply Forall_cons in Hmsgs as [Hmsg Hmsgs]. cbn [model.for_each].
    destruct (Update_modelOk m msg Hok Hmsg) as (m' & cmd & -> & Hok').
    cbn [fmap option_fmap option_map fst]. by apply IH.
Qed.

Lemma NewModel_modelOk : modelOk ui.NewModel.
Proof.
  split; [|cbn; lia]. eexists. split; [done|]. split; [by left|].
  split; [unfold selectionOk; cbn; lia|]. split; [cbn; lia|]. split; [unfold is_int; cbn; lia|].
  done.
Qed.

(** X15.  The interactive program keeps its selection visible and does
    not panic: from [NewModel], after any sequence of messages (key
    presses, window sizes, refreshes with container lists of fewer than
    [2^62] entries, ticks, logs, errors) [Update] has returned every
    time, the selection is an index of the flat view (0 if that is
    empty), and if the flat view is not empty the selection is inside
    the viewport, whose top is not negative. *)
Theorem Update_safe (msgs : list ui.Msg) :
  Forall validMsg msgs →
  ∃ m t,
    ui.updates ui.NewModel msgs = Some m ∧
    ui.tree (ui.treeView m) = Some t ∧
    selectionOk t ∧
    (model.Flat t ≠ [] →
     (0 ≤ ui.viewportTop (ui.treeView m))%Z ∧
     (ui.viewportTop (ui.treeView m) ≤ model.Selected t
      < ui.viewportTop (ui.treeView m) + ui.visibleHeight (ui.treeView m))%Z).
Proof.
  intros Hmsgs.
  destruct (updates_modelOk msgs ui.NewModel NewModel_modelOk Hmsgs)
    as (m & Hm & (t & Ht & _ & Hsel & _ & _ & Hview) & _).
  by exists m, t.
Qed.

Lemma Update_safe_witness :
  ∃ m t,
    ui.updates ui.NewModel
      [ ui.KeyMsg "end"; ui.containersMsg exampleContainers; ui.WindowSizeMsg 80 7;
        ui.KeyMsg "pgdown"; ui.KeyMsg "left"; ui.tickMsg; ui.KeyMsg "enter";
        ui.KeyMsg "down"; ui.containersMsg []; ui.KeyMsg "enter" ] = Some m ∧
    ui.tree (ui.treeView m) = Some t ∧
    selectionOk t ∧
    (model.Flat t ≠ [] →
     (0 ≤ ui.viewportTop (ui.treeView m))%Z ∧
     (ui.viewportTop (ui.treeView m) ≤ model.Selected t
      < ui.viewportTop (ui.treeView m) + ui.visibleHeight (ui.treeView m))%Z).
Proof.
  apply (Update_safe
           [ ui.KeyMsg "end"; ui.containersMsg exampleContainers; ui.WindowSizeMsg 80 7;
             ui.KeyMsg "pgdown"; ui.KeyMsg "left"; ui.tickMsg; ui.KeyMsg "enter";
             ui.KeyMsg "down"; ui.containersMsg []; ui.KeyMsg "enter" ]).
  repeat constructor; cbn; lia.
Defined.

Lemma tree_eq (t t' : model.Tree) :
  model.Root t' = model.Root t → model.Flat t' = model.Flat t →
  t' = model.set_Selected (model.Selected t') t.
Proof. destruct t, t'. cbn. by intros -> ->. Qed.

Lemma pgupLoop_Selected (fuel : nat) (i vh : Z) (t : model.Tree) :
  (0 ≤ i ≤ vh)%Z → (vh < 2 ^ 63)%Z → (vh - i ≤ Z.of_nat fuel)%Z →
  (0 ≤ model.Selected t < 2 ^ 63)%Z →
  model.Selected (ui.pgupLoop fuel i vh t) = Z.max 0 (model.Selected t - (vh - i)).
Proof.
  revert i t. induction fuel as [|fuel IH]; intros i t Hi Hvh Hfuel Hsel; cbn [ui.pgupLoop].
  - lia.
  - destruct (i <? vh)%Z eqn:E1; [apply Z.ltb_lt in E1|apply Z.ltb_ge in E1; cbn [andb]; lia].
    destruct (0 <? model.Selected t)%Z eqn:E2;
      [apply Z.ltb_lt in E2|apply Z.ltb_ge in E2; cbn [andb]; lia].
    cbn [andb]. rewrite (wrap_int_id (i + 1)) by (unfold is_int; lia).
    rewrite IH; rewrite ?MoveUp_Selected; lia.
Qed.

Lemma pgdownLoop_Selected (fuel : nat) (i vh : Z) (t : model.Tree) :
  (0 ≤ i ≤ vh)%Z → (vh < 2 ^ 63)%Z → (vh - i ≤ Z.of_nat fuel)%Z →
  (0 ≤ model.Selected t < model.lenFlat t)%Z → (model.lenFlat t < 2 ^ 63)%Z →
  model.Selected (ui.pgdownLoop fuel i vh t)
  = Z.min (model.lenFlat t - 1) (model.Selected t + (vh - i)).
Proof.
  revert i t. induction fuel as [|fuel IH]; intros i t Hi Hvh Hfuel Hsel Hlen;
    cbn [ui.pgdownLoop].
  - lia.
  - rewrite (wrap_int_id (model.lenFlat t - 1)) by (unfold is_int; lia).
    destruct (i <? vh)%Z eqn:E1; [apply Z.ltb_lt in E1|apply Z.ltb_ge in E1; cbn [andb]; lia].
    destruct (model.Selected t <? model.lenFlat t - 1)%Z eqn:E2;
      [apply Z.ltb_lt in E2|apply Z.ltb_ge in E2; cbn [andb]; lia].
    cbn [andb]. rewrite (wrap_int_id (i + 1)) by (unfold is_int; lia).
    assert (model.lenFlat (model.MoveDown t) = model.lenFlat t) as Hlen'.
    { unfold model.lenFlat. by destruct (MoveDown_same t) as [_ ->]. }
    assert (model.Selected (model.MoveDown t) = model.Selected t + 1)%Z as Hsel'.
    { rewrite MoveDown_Selected by (unfold is_int; lia). lia. }
    rewrite IH; rewrite ?Hlen', ?Hsel'; lia.
Qed.

(** The cases of a key in [treeKey], evaluated. *)
Local Ltac keys :=
  repeat match goal with
         | |- context [ui.keyIs ?k ?l] =>
             let b := eval vm_compute in (ui.keyIs k l) in change (ui.keyIs k l) with b
         end;
  cbv iota.

Lemma selected_viewport (m : ui.Model) (t t' : model.Tree) (target : Z) :
  ui.tree m = Some t → model.Flat t ≠ [] → is_int (ui.viewportTop m) →
  model.Root t' = model.Root t → model.Flat t' = model.Flat t →
  model.Selected t' = target → (0 ≤ target < 2 ^ 63)%Z →
  let m' := ui.adjustViewport (ui.set_tree t' m) in
  ui.nodes m' = ui.nodes m ∧
  ui.tree m' = Some (model.set_Selected target t) ∧
  (0 ≤ ui.viewportTop m')%Z ∧
  (ui.viewportTop m' ≤ target < ui.viewportTop m' + ui.visibleHeight m')%Z.
Proof.
  intros Ht Hne Htop HR HF Hsel Htarget m'.
  destruct (adjustViewport_spec (ui.set_tree t' m) t') as (Hn & Ht' & _ & _ & _ & Hin & Hge);
    try done; [by rewrite HF|by rewrite Hsel|].
  subst m'. rewrite Hn, Ht', <- Hsel. split; [done|]. split; [|done].
  f_equal. by apply tree_eq.
Qed.

(** X16.  The keys that jump.  With a valid selection, in the tree view:
    "pgup" moves the selection up by the visible height, to 0 at most;
    "pgdown" moves it down by the visible height, to the last index at
    most; "home" selects index 0 and "end" the last index.  The store
    and the flat view are unchanged, and afterwards the selection is
    inside the viewport. *)
Theorem page_keys (m : ui.Model) (t : model.Tree) (key : string) (target : Z) :
  ui.tree m = Some t →
  (0 ≤ model.Selected t < model.lenFlat t)%Z → (model.lenFlat t < 2 ^ 63)%Z →
  is_int (ui.viewportTop m) →
  (key = "pgup" ∧ target = Z.max 0 (model.Selected t - ui.visibleHeight m) ∨
   key = "pgdown" ∧
     target = Z.min (model.lenFlat t - 1) (model.Selected t + ui.visibleHeight m) ∨
   key = "home" ∧ target = 0 ∨
   key = "end" ∧ target = model.lenFlat t - 1)%Z →
  ∃ m', ui.treeKey m key = Some m' ∧
        ui.nodes m' = ui.nodes m ∧
        ui.tree m' = Some (model.set_Selected target t) ∧
        (0 ≤ ui.viewportTop m')%Z ∧
        (ui.viewportTop m' ≤ target < ui.viewportTop m' + ui.visibleHeight m')%Z.
Proof.
  intros Ht Hsel Hlen Htop Hkey.
  assert (model.Flat t ≠ []) as Hne.
  { intros HF. unfold model.lenFlat in Hsel. rewrite HF in Hsel. cbn [length] in Hsel. lia. }
  assert (selectionOk t) as Hok by (unfold selectionOk; lia).
  pose proof (visibleHeight_range m) as Hvh.
  unfold ui.treeKey. rewrite Ht. cbn [mbind option_bind].
  destruct Hkey as [[-> ->]|[[-> ->]|[[-> ->]|[-> ->]]]]; keys; eexists; (split; [done|]).
  - destruct (pgupLoop_same (Z.to_nat (ui.visibleHeight m)) 0 (ui.visibleHeight m) t Hok)
      as (HR & HF & _).
    apply selected_viewport; try done; [|lia].
    rewrite pgupLoop_Selected by lia. f_equal. lia.
  - destruct (pgdownLoop_same (Z.to_nat (ui.visibleHeight m)) 0 (ui.visibleHeight m) t Hok)
      as (HR & HF & _).
    apply selected_viewport; try done; [|lia].
    rewrite pgdownLoop_Selected by lia. f_equal. lia.
  - apply selected_viewport; try done; lia.
  - destruct (0 <? model.lenFlat t)%Z eqn:E; [|apply Z.ltb_ge in E; lia].
    apply selected_viewport; try done; [|lia].
    cbn [model.set_Selected model.Selected]. apply wrap_int_id. unfold is_int. lia.
Qed.

Lemma page_keys_witness :
  ∃ m', ui.treeKey exampleModel "pgdown" = Some m' ∧
        ui.nodes m' = ui.nodes exampleModel ∧
        ui.tree m' = Some (model.set_Selected 2 exampleTree) ∧
        (0 ≤ ui.viewportTop m')%Z ∧
        (ui.viewportTop m' ≤ 2 < ui.viewportTop m' + ui.visibleHeight m')%Z.
Proof.
  apply (page_keys exampleModel exampleTree "pgdown" 2); try done.
  right. left. done.
Defined.

Lemma savedFlags_snoc (gs : list project) (g : project) :
  savedFlags (gs ++ [g]) = saveFlag (savedFlags gs) g.
Proof. unfold savedFlags. by rewrite foldl_app. Qed.

(** The flag saved under a name is that of the project of that name. *)
Lemma savedFlags_lookup (gs : list project) (k : string) (e : bool) :
  NoDup (p_name <$> gs) →
  savedFlags gs !! k = Some e ↔
  ∃ g, g ∈ gs ∧ p_name g = k ∧ String.eqb k "root" = false ∧ p_expanded g = e.
Proof.
  induction gs as [|g gs IH] using rev_ind; intros Hnames.
  - unfold savedFlags. cbn [foldl]. rewrite lookup_empty. split; [done|].
    by intros (g & ?%elem_of_nil & _).
  - rewrite fmap_app in Hnames. apply NoDup_app in Hnames as (Hgs & Hdisj & _).
    specialize (IH Hgs). rewrite savedFlags_snoc. unfold saveFlag.
    destruct (String.eqb (p_name g) "root") eqn:Hroot.
    + rewrite IH. split.
      * intros (g' & Hg' & ?). exists g'. split; [|done]. apply elem_of_app. by left.
      * intros (g' & [Hg'|Hg']%elem_of_app & Hk & Hr & He); [by exists g'|].
        apply list_elem_of_singleton in Hg' as ->. congruence.
    + destruct (decide (k = p_name g)) as [->|Hne].
      * rewrite lookup_insert_eq. split.
        -- intros [= <-]. exists g. split; [|done]. apply elem_of_app. right. by left.
        -- intros (g' & [Hg'|Hg']%elem_of_app & Hk & _ & He).
           ++ exfalso. apply (Hdisj (p_name g)); [|cbn; left].
              rewrite <- Hk. by apply list_elem_of_fmap_2.
           ++ apply list_elem_of_singleton in Hg' as ->. by rewrite He.
      * rewrite lookup_insert_ne by done. rewrite IH. split.
        -- intros (g' & Hg' & ?). exists g'. split; [|done]. apply elem_of_app. by left.
        -- intros (g' & [Hg'|Hg']%elem_of_app & Hk & Hr & He); [by exists g'|].
           apply list_elem_of_singleton in Hg' as ->. done.
Qed.

Lemma restoreFlag_saved (gs : list project) (g g0 : project) :
  NoDup (p_name <$> gs) → g ∈ gs →
  (String.eqb (p_name g) "root" = true → p_expanded g = true) →
  p_name g0 = p_name g → p_containers g0 = p_containers g → p_expanded g0 = true →
  restoreFlag (savedFlags gs) g0 = g.
Proof.
  intros Hnames Hg Hroot Hname Hcs Hexp. unfold restoreFlag. rewrite Hname.
  destruct (String.eqb (p_name g) "root") eqn:Hr.
  - destruct (savedFlags gs !! p_name g) as [e|] eqn:He.
    + apply savedFlags_lookup in He as (g' & _ & _ & Hr' & _); [|done].
      by rewrite Hr in Hr'.
    + destruct g as [n e c], g0 as [n0 e0 c0]. cbn in *. rewrite Hroot by done.
      by rewrite Hname, Hcs, Hexp.
  - assert (savedFlags gs !! p_name g = Some (p_expanded g)) as ->.
    { apply savedFlags_lookup; [done|]. by exists g. }
    destruct g as [n e c], g0 as [n0 e0 c0]. cbn in *. by rewrite Hname, Hcs.
Qed.

(** Restoring the flags saved of [gs] on projects that differ from [gs]
    in their flags at most gives [gs] back. *)
Lemma restoreFlags_saved (gs gs0 : list project) :
  NoDup (p_name <$> gs) → rootsExpanded gs → sameProjects gs gs0 →
  Forall (λ g, p_expanded g = true) gs0 →
  restoreFlag (savedFlags gs) <$> gs0 = gs.
Proof.
  intros Hnames Hroots Hsame Hexp.
  unfold rootsExpanded in Hroots. rewrite Forall_forall in Hroots.
  assert (∀ gs', gs' ⊆ gs → ∀ gs0', sameProjects gs' gs0' →
            Forall (λ g, p_expanded g = true) gs0' →
            restoreFlag (savedFlags gs) <$> gs0' = gs') as Hgen.
  { induction gs' as [|g gs' IH]; intros Hsub [|g0 gs0'] Hsame' Hexp'; try done.
    apply Forall_cons in Hexp' as [Hg0 Hexp'].
    unfold sameProjects in Hsame'. cbn [fmap list_fmap] in Hsame'.
    injection Hsame' as Hname Hcs Hsame'. cbn [fmap list_fmap]. f_equal.
    - apply restoreFlag_saved; try done.
      + apply Hsub. left.
      + apply Hroots, Hsub. left.
    - apply IH; try done. intros x Hx. apply Hsub. by right. }
  by apply Hgen.
Qed.

Lemma RestoreSelection_layout (gs : list project) (t : model.Tree) (i node : nat)
    (path : string) :
  noRoot gs → distinctNames gs →
  model.Flat t = flatOf 1 gs → flatOf 1 gs !! i = Some node →
  model.GetNodePath (layout gs) (Some node) = Some path →
  path ≠ "" ∧ model.RestoreSelection (layout gs) t path = Some (model.set_Selected (Z.of_nat i) t).
Proof.
  intros Hno Hdist HF Hi Hpath.
  destruct (flat_paths_distinct gs i i node node path Hno Hdist Hi Hi Hpath Hpath) as [_ Hne].
  split; [done|].
  unfold model.RestoreSelection. destruct (String.eqb_spec path "") as [|_]; [done|].
  destruct (searchPath_spec (layout gs) path (model.Flat t) 0) as
    [(k & node' & -> & Hk & Hpath' & _)|[_ Hnone]].
  { rewrite HF. apply Forall_forall. intros n Hin%flatOf_lt. apply GetNodePath_layout.
    rewrite length_layout. lia. }
  - rewrite HF in Hk.
    destruct (flat_paths_distinct gs k i node' node path Hno Hdist Hk Hi Hpath' Hpath) as [-> _].
    done.
  - exfalso. apply (Hnone node); [|done]. rewrite HF. by eapply list_elem_of_lookup_2.
Qed.

Lemma GetSelected_None (t : model.Tree) :
  selectionOk t → model.GetSelected t = None → model.Flat t = [].
Proof.
  intros [[Hge Hlt] Hsel] Hget. unfold model.GetSelected, model.lenFlat in *.
  destruct (model.Selected t <? 0)%Z eqn:E1; [apply Z.ltb_lt in E1; lia|].
  destruct (Z.of_nat (length (model.Flat t)) <=? model.Selected t)%Z eqn:E2.
  - apply Z.leb_le in E2. destruct (model.Flat t); [done|]. cbn [length] in *. lia.
  - apply Z.leb_gt in E2. cbn [orb] in Hget. apply lookup_ge_None in Hget. lia.
Qed.

Lemma adjustViewport_id (m : ui.Model) (t : model.Tree) :
  ui.tree m = Some t →
  (model.Flat t ≠ [] →
   (0 ≤ ui.viewportTop m)%Z ∧
   (ui.viewportTop m ≤ model.Selected t < ui.viewportTop m + ui.visibleHeight m)%Z) →
  (ui.viewportTop m + ui.visibleHeight m < 2 ^ 63)%Z →
  ui.adjustViewport m = m.
Proof.
  intros Ht Hview Hover. unfold ui.adjustViewport. rewrite Ht.
  destruct (model.lenFlat t =? 0)%Z eqn:E; [done|]. apply Z.eqb_neq in E.
  destruct Hview as (Hge & Hin).
  { intros HF. unfold model.lenFlat in E. by rewrite HF in E. }
  pose proof (visibleHeight_range m).
  rewrite (wrap_int_id (ui.viewportTop m + ui.visibleHeight m)) by (unfold is_int; lia).
  destruct (ui.viewportTop m + ui.visibleHeight m <=? model.Selected t)%Z eqn:E1;
    [apply Z.leb_le in E1; lia|].
  destruct (model.Selected t <? ui.viewportTop m)%Z eqn:E2; [apply Z.ltb_lt in E2; lia|].
  destruct (ui.viewportTop m <? 0)%Z eqn:E3; [apply Z.ltb_lt in E3; lia|]. done.
Qed.

Lemma set_tree_nodes_same (m : ui.Model) (t : model.Tree) :
  ui.tree m = Some t → ui.set_tree t (ui.set_nodes (ui.nodes m) m) = m.
Proof. destruct m. cbn. by intros ->. Qed.

Lemma set_treeView_same (m : ui.FullModel) : ui.set_treeView (ui.treeView m) m = m.
Proof. by destruct m. Qed.

(** X17.  A refresh with the containers that the tree was built from
    changes nothing: if the container names are pairwise distinct, hold no
    ["/"] and have project names other than the empty string and
    ["root"], the selection is inside the viewport and the end of the
    viewport is an [int], then [Update] with the same container list
    returns the model as it is (store, expansion flags, flat view,
    selection and viewport), and no command. *)
Theorem refresh_same (containers : list docker.ContainerInfo) (calls : list treeCall)
    (m : ui.FullModel) (t : model.Tree) :
  plainNames containers → (Z.of_nat (length containers) < 2 ^ 62)%Z →
  treeAfter containers calls = Some (ui.nodes (ui.treeView m), t) →
  ui.tree (ui.treeView m) = Some t →
  (model.Flat t ≠ [] →
   (0 ≤ ui.viewportTop (ui.treeView m))%Z ∧
   (ui.viewportTop (ui.treeView m) ≤ model.Selected t
    < ui.viewportTop (ui.treeView m) + ui.visibleHeight (ui.treeView m))%Z) →
  (ui.viewportTop (ui.treeView m) + ui.visibleHeight (ui.treeView m) < 2 ^ 63)%Z →
  ui.Update m (ui.containersMsg containers) = Some (m, None).
Proof.
  intros Hplain Hlen Hafter Ht Hview Hover.
  destruct (treeAfter_layout containers calls)
    as (gs & h' & t' & Hafter' & Hgs & Hsel & Hsame & Hroots).
  rewrite Hafter in Hafter'. injection Hafter' as <- <-.
  destruct (plainNames_groups _ _ Hplain Hsame) as [Hno Hdist].
  destruct (savedState_layout _ _ _ Ht Hgs) as (path & Hsaved & Hpath).
  destruct (refresh_layout _ containers path gs Hsaved Hlen)
    as (t1 & Hrestore & HR1 & HF1 & _ & _ & Hupd).
  assert (restoreFlag (savedFlags gs) <$> groupsOf containers = gs) as Hgs'.
  { apply restoreFlags_saved; try done; [apply Hdist|].
    apply Forall_forall. intros g Hg. by destruct (groupsOf_elem _ _ Hg) as (? & _). }
  rewrite Hgs' in Hrestore, HF1, Hupd.
  destruct Hgs as (Hh & HR & HF).
  assert (t1 = t) as ->.
  { destruct (model.GetSelected t) as [node|] eqn:Hget.
    - apply GetSelected_elem in Hget as [Hnode Hrange]. rewrite HF in Hnode. rewrite Hh in Hpath.
      destruct (RestoreSelection_layout gs
                  {| model.Root := Some 0; model.Flat := flatOf 1 gs; model.Selected := 0 |}
                  _ node path Hno Hdist eq_refl Hnode Hpath) as [Hne Hres].
      apply String.eqb_neq in Hne. rewrite Hne in Hrestore. cbn [negb] in Hrestore.
      rewrite Hres in Hrestore. injection Hrestore as <-.
      rewrite Z2Nat.id by lia. destruct t. cbn in *. by subst.
    - subst path. cbn in Hrestore. injection Hrestore as <-.
      pose proof (GetSelected_None t Hsel Hget) as HF0.
      destruct Hsel as [[Hge _] [Hlt|Hz]].
      { unfold model.lenFlat in Hlt. rewrite HF0 in Hlt. cbn in Hlt. lia. }
      destruct t. cbn in *. by subst. }
  cbn [ui.Update]. rewrite Hupd. cbn [mbind option_bind]. rewrite <- Hh.
  rewrite (set_tree_nodes_same _ t Ht), (adjustViewport_id _ t Ht Hview Hover).
  by rewrite set_treeView_same.
Qed.

Lemma refresh_same_witness :
  ui.Update exampleFull (ui.containersMsg exampleContainers) = Some (exampleFull, None).
Proof.
  apply (refresh_same exampleContainers [] exampleFull exampleTree).
  - split; [apply (bool_decide_unpack _); by vm_compute|].
    repeat constructor; vm_compute; discriminate.
  - cbn. lia.
  - reflexivity.
  - reflexivity.
  - intros _. vm_compute. repeat split; discriminate.
  - vm_compute. reflexivity.
Defined.

Lemma flat_project_shown (gs1 gs2 : list project) (g : project) :
  S (bodySize gs1) ∈ flatOf 1 (gs1 ++ g :: gs2) → String.eqb (p_name g) "root" = false.
Proof.
  rewrite flatOf_split, !elem_of_app. intros [Hin|[Hin|Hin]].
  - apply flatOf_lt in Hin. lia.
  - unfold shownOf in Hin. destruct (String.eqb (p_name g) "root"); [|done].
    cbn [app] in Hin. destruct (p_expanded g); [|by apply elem_of_nil in Hin].
    apply elem_of_seq in Hin. lia.
  - apply flatOf_ge in Hin. unfold projectSize in Hin. lia.
Qed.

(** The project nodes of the flat view are the projects not named ["root"]. *)
Lemma flat_projects (gs : list project) (k : string) (e : bool) :
  (∃ node n, node ∈ flatOf 1 gs ∧ layout gs !! node = Some n ∧
             model.Type_ n = model.NodeTypeProject ∧ model.Name n = k ∧ model.Expanded n = e)
  ↔ ∃ g, g ∈ gs ∧ p_name g = k ∧ String.eqb k "root" = false ∧ p_expanded g = e.
Proof.
  split.
  - intros (node & n & Hin & Hn & Htype & Hname & Hexp).
    destruct node as [|node]; [apply flatOf_ge in Hin; lia|].
    destruct (layout_lookup_node gs node n Hn)
      as (gs1 & g & gs2 & -> & [[-> ->]|(j & c & -> & Hc & ->)]); [|done].
    exists g. split; [apply elem_of_app; right; left|].
    cbn [projectNode model.Name model.Expanded] in *. split; [done|]. split; [|done].
    rewrite <- Hname. by apply (flat_project_shown gs1 gs2).
  - intros (g & Hg & Hname & Hroot & Hexp).
    apply list_elem_of_split in Hg as (gs1 & gs2 & ->).
    exists (S (bodySize gs1)), (projectNode (S (bodySize gs1)) g). split.
    { rewrite flatOf_project by (by rewrite Hname). apply elem_of_app. right. left. }
    split; [apply layout_lookup_project|]. done.
Qed.

Lemma projectNodes_flags (base : nat) (g g' : project) :
  p_name g = p_name g' → p_containers g = p_containers g' →
  model.set_Expanded true <$> projectNodes base g
  = model.set_Expanded true <$> projectNodes base g'.
Proof.
  intros Hname Hcs. unfold projectNodes, projectNode. cbn [fmap list_fmap].
  rewrite Hname, Hcs. done.
Qed.

Lemma bodyNodes_flags (base : nat) (gs gs' : list project) :
  sameProjects gs gs' →
  model.set_Expanded true <$> bodyNodes base gs = model.set_Expanded true <$> bodyNodes base gs'.
Proof.
  revert base gs'. induction gs as [|g gs IH]; intros base [|g' gs'] Hsame; try done.
  unfold sameProjects in Hsame. cbn [fmap list_fmap] in Hsame.
  injection Hsame as Hname Hcs Hsame. cbn [bodyNodes]. rewrite !fmap_app.
  rewrite (projectNodes_flags base g g') by done. f_equal.
  unfold projectSize. rewrite Hcs. by apply IH.
Qed.

Lemma projectAddrs_same (base : nat) (gs gs' : list project) :
  sameProjects gs gs' → projectAddrs base gs = projectAddrs base gs'.
Proof.
  revert base gs'. induction gs as [|g gs IH]; intros base [|g' gs'] Hsame; try done.
  unfold sameProjects in Hsame. cbn [fmap list_fmap] in Hsame.
  injection Hsame as Hname Hcs Hsame. cbn [projectAddrs]. f_equal.
  unfold projectSize. rewrite Hcs. by apply IH.
Qed.

(** Two layouts of the same projects differ in the flags at most. *)
Lemma layout_flags (gs gs' : list project) :
  sameProjects gs gs' →
  model.set_Expanded true <$> layout gs = model.set_Expanded true <$> layout gs'.
Proof.
  intros Hsame. unfold layout. cbn [fmap list_fmap].
  by rewrite (projectAddrs_same 1 gs gs' Hsame), (bodyNodes_flags 1 gs gs' Hsame).
Qed.

Lemma adjustViewport_frame (m : ui.Model) :
  ui.nodes (ui.adjustViewport m) = ui.nodes m ∧ ui.tree (ui.adjustViewport m) = ui.tree m.
Proof.
  unfold ui.adjustViewport. destruct (ui.tree m) as [t|] eqn:Ht; [|done].
  destruct (model.lenFlat t =? 0)%Z; [done|].
  repeat match goal with
         | |- context [if ?b then _ else _] => destruct b
         end; done.
Qed.

(** X18.  A refresh keeps the collapsed projects collapsed.  After
    [Update] with any container list, the store is the one [BuildTree]
    makes of the list, but for the flags, and a project of the new tree
    is collapsed exactly if the old flat view had a collapsed project of
    the same name; every other project is expanded. *)
Theorem refresh_keeps_collapsed (containers : list docker.ContainerInfo)
    (calls : list treeCall) (m : ui.FullModel) (t : model.Tree)
    (msg : list docker.ContainerInfo) :
  treeAfter containers calls = Some (ui.nodes (ui.treeView m), t) →
  ui.tree (ui.treeView m) = Some t →
  (Z.of_nat (length msg) < 2 ^ 62)%Z →
  ∃ m' t' h0 t0,
    ui.Update m (ui.containersMsg msg) = Some (m', None) ∧
    ui.tree (ui.treeView m') = Some t' ∧
    model.BuildTree msg = Some (h0, t0) ∧
    model.set_Expanded true <$> ui.nodes (ui.treeView m') = model.set_Expanded true <$> h0 ∧
    ∀ p n', p ∈ projectsOf (ui.nodes (ui.treeView m')) t' →
      ui.nodes (ui.treeView m') !! p = Some n' →
      (model.Expanded n' = false ↔
       ∃ node n, node ∈ model.Flat t ∧ ui.nodes (ui.treeView m) !! node = Some n ∧
                 model.Type_ n = model.NodeTypeProject ∧ model.Name n = model.Name n' ∧
                 model.Expanded n = false).
Proof.
  intros Hafter Ht Hlen.
  destruct (treeAfter_layout containers calls)
    as (gs & h' & t' & Hafter' & Hgs & Hsel & Hsame & Hroots).
  rewrite Hafter in Hafter'. injection Hafter' as <- <-.
  destruct (savedState_layout _ _ _ Ht Hgs) as (path & Hsaved & _).
  destruct (refresh_layout _ msg path gs Hsaved Hlen)
    as (t1 & _ & HR1 & HF1 & Hsel1 & Hsize & Hupd).
  set (gs' := restoreFlag (savedFlags gs) <$> groupsOf msg) in *.
  assert (NoDup (p_name <$> gs)) as Hnames.
  { rewrite (sameProjects_names _ _ Hsame). apply sorted_lt_NoDup, groupsOf_names. }
  destruct Hgs as (Hh & HR & HF).
  destruct (adjustViewport_frame (ui.set_tree t1 (ui.set_nodes (layout gs') (ui.treeView m))))
    as (Hnodes & Htree).
  cbn [ui.set_tree ui.set_nodes ui.nodes ui.tree] in Hnodes, Htree.
  eexists _, t1, _, _. split; [cbn [ui.Update]; rewrite Hupd; done|].
  cbn [ui.set_treeView ui.treeView]. rewrite Hnodes, Htree.
  split; [done|]. split; [apply BuildTree_layout|]. split.
  { apply layout_flags, restoreFlags_sameProjects. }
  intros p n' Hp Hn'.
  rewrite (projectsOf_layout gs' (layout gs') t1) in Hp by done.
  apply projectAddrs_elem in Hp as (gs1' & g' & gs2' & Hsplit & ->). cbn [Nat.add] in Hn'.
  rewrite Hsplit, layout_lookup_project in Hn'. injection Hn' as <-.
  cbn [projectNode model.Expanded model.Name].
  assert (g' ∈ gs') as Hg' by (rewrite Hsplit; apply elem_of_app; right; left).
  apply list_elem_of_fmap in Hg' as (g0 & -> & Hg0).
  destruct (groupsOf_elem _ _ Hg0) as (Hexp0 & _).
  destruct (restoreFlag_same (savedFlags gs) g0) as [Hname0 _]. rewrite Hname0.
  rewrite Hh, HF, (flat_projects gs (p_name g0) false), <- savedFlags_lookup by done.
  unfold restoreFlag. destruct (savedFlags gs !! p_name g0) as [[]|]; cbn [withExpanded p_expanded];
    rewrite ?Hexp0; split; done.
Qed.

Lemma refresh_keeps_collapsed_witness :
  ∃ m' t' h0 t0,
    ui.Update collapsedFull (ui.containersMsg (exampleContainers ++ [containerNamed "cache"]))
    = Some (m', None) ∧
    ui.tree (ui.treeView m') = Some t' ∧
    model.BuildTree (exampleContainers ++ [containerNamed "cache"]) = Some (h0, t0) ∧
    model.set_Expanded true <$> ui.nodes (ui.treeView m') = model.set_Expanded true <$> h0 ∧
    ∀ p n', p ∈ projectsOf (ui.nodes (ui.treeView m')) t' →
      ui.nodes (ui.treeView m') !! p = Some n' →
      (model.Expanded n' = false ↔
       ∃ node n, node ∈ model.Flat collapsedTree ∧
                 ui.nodes (ui.treeView collapsedFull) !! node = Some n ∧
                 model.Type_ n = model.NodeTypeProject ∧ model.Name n = model.Name n' ∧
                 model.Expanded n = false).
Proof.
  apply (refresh_keeps_collapsed exampleContainers [CallToggleExpanded] collapsedFull
           collapsedTree (exampleContainers ++ [containerNamed "cache"])).
  - reflexivity.
  - reflexivity.
  - cbn. lia.
Defined.

(** The example: the collapsed project stays collapsed when a container
    of a new project comes; the new project is expanded. *)
Example refresh_keeps_collapsed_example :
  match ui.Update collapsedFull (ui.containersMsg (exampleContainers ++ [containerNamed "cache"])) with
  | Some (m', _) =>
      (λ n, (model.Name n, model.Expanded n))
      <$> omap (λ p, ui.nodes (ui.treeView m') !! p) [1; 3; 6]
  | None => []
  end
  = [("cache", true); ("shopapp", false); ("standalone", true)].
Proof. by vm_compute. Qed.

Lemma filter_all {A} (P : A → Prop) `{∀ x, Decision (P x)} (l : list A) :
  Forall P l → filter P l = l.
Proof.
  induction 1 as [|x l Hx _ IH]; [done|]. by rewrite filter_cons_True, IH.
Qed.

Lemma filter_none {A} (P : A → Prop) `{∀ x, Decision (P x)} (l : list A) :
  Forall (λ x, ¬ P x) l → filter P l = [].
Proof.
  induction 1 as [|x l Hx _ IH]; [done|]. by rewrite filter_cons_False.
Qed.

Lemma other_projects (gs : list project) (k : string) :
  grouped gs → k ∉ p_name <$> gs →
  Forall (λ c, model.ParseProjectName (docker.Name c) ≠ k) (concat (p_containers <$> gs)).
Proof.
  induction 1 as [|g gs Hg _ IH]; intros Hk; [constructor|].
  cbn [fmap list_fmap concat] in *. apply not_elem_of_cons in Hk as [Hne Hk].
  apply Forall_app. split; [|by apply IH].
  eapply Forall_impl; [exact Hg|]. by intros c ->.
Qed.

(** The containers of a project are the containers with its project name. *)
Lemma project_containers (gs : list project) (g : project) :
  grouped gs → NoDup (p_name <$> gs) → g ∈ gs →
  filter (λ c, model.ParseProjectName (docker.Name c) = p_name g)
    (concat (p_containers <$> gs))
  = p_containers g.
Proof.
  induction gs as [|x gs IH]; intros Hgrouped Hnames Hg; [by apply elem_of_nil in Hg|].
  apply Forall_cons in Hgrouped as [Hx Hgrouped].
  cbn [fmap list_fmap] in Hnames. apply NoDup_cons in Hnames as [Hxn Hnames].
  cbn [fmap list_fmap concat]. rewrite filter_app.
  apply elem_of_cons in Hg as [->|Hg].
  - rewrite filter_all by done. rewrite filter_none; [by rewrite (right_id_L [] (++))|].
    by apply other_projects.
  - rewrite IH by done. rewrite filter_none; [done|].
    eapply Forall_impl; [exact Hx|]. intros c -> Heq.
    apply Hxn. rewrite Heq. by apply list_elem_of_fmap_2.
Qed.

Lemma children_nodes (h : list model.TreeNode) (parent start : nat)
    (cs : list docker.ContainerInfo) :
  (∀ j c, cs !! j = Some c → h !! (start + j) = Some (containerNode parent c)) →
  mapM (λ child, h !! child) (seq start (length cs)) = Some (containerNode parent <$> cs).
Proof.
  intros Hcs. apply mapM_Some. revert start Hcs.
  induction cs as [|c cs IH]; intros start Hcs; [constructor|].
  cbn [length seq fmap list_fmap]. constructor.
  - rewrite <- (Hcs 0 c eq_refl). f_equal. lia.
  - apply IH. intros j c' Hc'. rewrite <- (Hcs (S j) c' Hc'). f_equal. lia.
Qed.

Lemma forChildren_containers (cond : docker.ContainerInfo → bool) (call : string → ui.runtimeCall)
    (parent : nat) (cs : list docker.ContainerInfo) :
  ui.forChildren cond call (containerNode parent <$> cs)
  = (λ c, call (docker.ID c)) <$> filter (λ c, cond c = true) cs.
Proof.
  unfold ui.forChildren. induction cs as [|c cs IH]; [done|].
  cbn [fmap list_fmap flat_map containerNode model.Container]. rewrite IH.
  destruct (cond c) eqn:Hc.
  - by rewrite filter_cons_True.
  - rewrite filter_cons_False; [done|]. by rewrite Hc.
Qed.

Lemma filter_running (cs : list docker.ContainerInfo) :
  filter (λ c, String.eqb (docker.State c) "running" = true) cs
  = filter (λ c, docker.State c = "running") cs ∧
  filter (λ c, negb (String.eqb (docker.State c) "running") = true) cs
  = filter (λ c, docker.State c ≠ "running") cs.
Proof.
  split; apply list_filter_iff; intros c.
  - apply String.eqb_eq.
  - rewrite negb_true_iff. apply String.eqb_neq.
Qed.

(** X19.  The menu of a project.  With a project node selected,
    [openMenu] switches to the menu view with the first item selected
    and leaves the tree view alone; the items are "Restart All", "Stop
    All", "Down (stop & remove, keeps volumes)" and "Start All".  The
    command of each starts a goroutine that calls the client for the
    containers of the list that have the project's name as project name,
    in the order of the tree: restart and stop for those that are
    running, remove for all, start for those that are not running.  The
    command itself, meanwhile, lists the containers with statistics, and
    its message is that of this refresh. *)
Theorem project_menu (containers : list docker.ContainerInfo) (calls : list treeCall)
    (m : ui.FullModel) (t : model.Tree) (node : nat) (n : model.TreeNode) :
  treeAfter containers calls = Some (ui.nodes (ui.treeView m), t) →
  ui.tree (ui.treeView m) = Some t →
  model.GetSelected t = Some node →
  ui.nodes (ui.treeView m) !! node = Some n →
  model.Type_ n = model.NodeTypeProject →
  ∃ m' children,
    ui.openMenu m = Some m' ∧
    ui.treeView m' = ui.treeView m ∧ ui.viewMode m' = ui.ViewModeMenu ∧
    ui.menuSelected m' = 0%Z ∧
    children ≡ₚ filter (λ c, model.ParseProjectName (docker.Name c) = model.Name n) containers ∧
    (λ item, (ui.Label item, ui.goroutineCalls (ui.Action item),
              ui.commandCall (ui.Action item))) <$> ui.menuItems m'
    = [ ("Restart All",
         (λ c, ui.RestartContainer (docker.ID c))
         <$> filter (λ c, docker.State c = "running") children,
         ui.ListContainersWithStats true);
        ("Stop All",
         (λ c, ui.StopContainer (docker.ID c))
         <$> filter (λ c, docker.State c = "running") children,
         ui.ListContainersWithStats true);
        ("Down (stop & remove, keeps volumes)",
         (λ c, ui.RemoveContainer (docker.ID c)) <$> children,
         ui.ListContainersWithStats true);
        ("Start All",
         (λ c, ui.StartContainer (docker.ID c))
         <$> filter (λ c, docker.State c ≠ "running") children,
         ui.ListContainersWithStats true) ] ∧
    ∀ client choices logs item,
      item ∈ ui.menuItems m' →
      ui.actionMsg client choices logs (ui.Action item) = ui.refreshMsg client choices true.
Proof.
  intros Hafter Ht Hget Hn Htype.
  destruct (treeAfter_layout containers calls)
    as (gs & h' & t' & Hafter' & Hgs & Hsel & Hsame & Hroots).
  rewrite Hafter in Hafter'. injection Hafter' as <- <-.
  destruct (selected_project gs _ t node n Hgs Hget Hn Htype)
    as (gs1 & g & gs2 & Hsplit & -> & -> & Hname).
  destruct Hgs as (Hh & _ & _).
  exists (ui.set_menuItems
            [ {| ui.Label := "Restart All";
                 ui.Action := ui.RestartAll (containerNode (S (bodySize gs1)) <$> p_containers g) |};
              {| ui.Label := "Stop All";
                 ui.Action := ui.StopAll (containerNode (S (bodySize gs1)) <$> p_containers g) |};
              {| ui.Label := "Down (stop & remove, keeps volumes)";
                 ui.Action := ui.Down (containerNode (S (bodySize gs1)) <$> p_containers g) |};
              {| ui.Label := "Start All";
                 ui.Action := ui.StartAll (containerNode (S (bodySize gs1)) <$> p_containers g) |} ]
            (ui.set_viewMode ui.ViewModeMenu (ui.set_menuSelected 0 m))),
    (p_containers g).
  split.
  { unfold ui.openMenu. rewrite Ht. cbn [mbind option_bind]. rewrite Hget, Hn.
    cbn [mbind option_bind projectNode model.Type_]. unfold ui.getProjectMenuItems.
    cbn [ui.set_viewMode ui.set_menuSelected ui.treeView model.Children].
    rewrite Hh, Hsplit.
    change (model.Children (projectNode (S (bodySize gs1)) g))
      with (seq (S (S (bodySize gs1))) (length (p_containers g))).
    rewrite (children_nodes _ (S (bodySize gs1)) (S (S (bodySize gs1)))).
    - done.
    - destruct (holds_cons _ _ _ _ (holds_app_r _ _ _ _ (holds_layout (gs1 ++ g :: gs2))))
        as (_ & _ & Hcs).
      intros j c Hc. cbn [Nat.add] in Hcs. rewrite <- (Hcs j c Hc). f_equal. }
  split; [done|]. split; [done|]. split; [done|]. split.
  - cbn [projectNode model.Name].
    rewrite <- (groupsOf_perm containers), <- (sameProjects_containers _ _ Hsame).
    rewrite project_containers; [done| | |].
    + eapply sameProjects_grouped; [done|apply groupsOf_grouped].
    + rewrite (sameProjects_names _ _ Hsame). apply sorted_lt_NoDup, groupsOf_names.
    + rewrite Hsplit. apply elem_of_app. right. left.
  - split.
    + cbn [ui.set_menuItems ui.menuItems fmap list_fmap ui.Label ui.Action
           ui.goroutineCalls ui.commandCall].
      rewrite !forChildren_containers. destruct (filter_running (p_containers g)) as [-> ->].
      repeat f_equal. apply filter_all, Forall_forall. done.
    + intros client choices logs item Hitem. cbn [ui.set_menuItems ui.menuItems] in Hitem.
      repeat (apply elem_of_cons in Hitem as [->|Hitem]; [done|]).
      by apply elem_of_nil in Hitem.
Qed.

Lemma project_menu_witness :
  ∃ m' children,
    ui.openMenu exampleFull = Some m' ∧
    ui.treeView m' = ui.treeView exampleFull ∧ ui.viewMode m' = ui.ViewModeMenu ∧
    ui.menuSelected m' = 0%Z ∧
    children ≡ₚ filter (λ c, model.ParseProjectName (docker.Name c) = "shopapp") exampleContainers ∧
    (λ item, (ui.Label item, ui.goroutineCalls (ui.Action item),
              ui.commandCall (ui.Action item))) <$> ui.menuItems m'
    = [ ("Restart All",
         (λ c, ui.RestartContainer (docker.ID c))
         <$> filter (λ c, docker.State c = "running") children,
         ui.ListContainersWithStats true);
        ("Stop All",
         (λ c, ui.StopContainer (docker.ID c))
         <$> filter (λ c, docker.State c = "running") children,
         ui.ListContainersWithStats true);
        ("Down (stop & remove, keeps volumes)",
         (λ c, ui.RemoveContainer (docker.ID c)) <$> children,
         ui.ListContainersWithStats true);
        ("Start All",
         (λ c, ui.StartContainer (docker.ID c))
         <$> filter (λ c, docker.State c ≠ "running") children,
         ui.ListContainersWithStats true) ] ∧
    ∀ client choices logs item,
      item ∈ ui.menuItems m' →
      ui.actionMsg client choices logs (ui.Action item) = ui.refreshMsg client choices true.
Proof.
  exact (project_menu exampleContainers [] exampleFull exampleTree 1
           {| model.Type_ := model.NodeTypeProject; model.Name := "shopapp";
              model.Container := None; model.Children := [2; 3];
              model.Expanded := true; model.Parent := Some 0 |}
           eq_refl eq_refl eq_refl eq_refl eq_refl).
Defined.

(** X20.  The menu of a container.  With a container node selected,
    [openMenu] switches to the menu view with the first item selected
    and leaves the tree view alone; for a running container the items
    are "Restart", "Stop", "Remove (keeps volumes)" and "Logs", otherwise
    "Start" and "Logs".  The command of each but "Logs" starts a
    goroutine that makes the one call on the client, for the container of
    the node; the command itself, meanwhile, lists the containers with
    statistics, and its message is that of this refresh.  The command of
    "Logs" starts no goroutine: it asks for the last 1000 lines of the
    container's logs, and its message has them under the container's
    name, or the error. *)
Theorem container_menu (containers : list docker.ContainerInfo) (calls : list treeCall)
    (m : ui.FullModel) (t : model.Tree) (node : nat) (n : model.TreeNode) :
  treeAfter containers calls = Some (ui.nodes (ui.treeView m), t) →
  ui.tree (ui.treeView m) = Some t →
  model.GetSelected t = Some node →
  ui.nodes (ui.treeView m) !! node = Some n →
  model.Type_ n = model.NodeTypeContainer →
  ∃ m' c,
    model.Container n = Some c ∧ c ∈ containers ∧
    ui.openMenu m = Some m' ∧
    ui.treeView m' = ui.treeView m ∧ ui.viewMode m' = ui.ViewModeMenu ∧
    ui.menuSelected m' = 0%Z ∧
    (λ item, (ui.Label item, ui.goroutineCalls (ui.Action item),
              ui.commandCall (ui.Action item))) <$> ui.menuItems m'
    = (if String.eqb (docker.State c) "running"
       then [ ("Restart", [ui.RestartContainer (docker.ID c)], ui.ListContainersWithStats true);
              ("Stop", [ui.StopContainer (docker.ID c)], ui.ListContainersWithStats true);
              ("Remove (keeps volumes)", [ui.RemoveContainer (docker.ID c)],
               ui.ListContainersWithStats true) ]
       else [ ("Start", [ui.StartContainer (docker.ID c)], ui.ListContainersWithStats true) ])
      ++ [ ("Logs", [], ui.GetContainerLogs (docker.ID c) 1000) ] ∧
    ∀ client choices logs item,
      item ∈ ui.menuItems m' →
      ui.actionMsg client choices logs (ui.Action item)
      = if String.eqb (ui.Label item) "Logs"
        then match logs with
             | inl err => Ok (ui.errMsg err)
             | inr content => Ok (ui.logsMsg (docker.Name c) content)
             end
        else ui.refreshMsg client choices true.
Proof.
  intros Hafter Ht Hget Hn Htype.
  destruct (treeAfter_layout containers calls)
    as (gs & h' & t' & Hafter' & Hgs & Hsel & Hsame & Hroots).
  rewrite Hafter in Hafter'. injection Hafter' as <- <-.
  destruct Hgs as (Hh & _ & HF). rewrite Hh in Hn.
  destruct node as [|node]; [by injection Hn as <-|].
  destruct (layout_lookup_node gs node n Hn)
    as (gs1 & g & gs2 & Hsplit & [[-> ->]|(j & c & -> & Hc & ->)]); [done|].
  eexists _, c. split; [done|]. split.
  { rewrite <- (groupsOf_perm containers), <- (sameProjects_containers _ _ Hsame), Hsplit.
    rewrite fmap_app, concat_app. apply elem_of_app. right.
    cbn [fmap list_fmap concat]. apply elem_of_app. left. by eapply list_elem_of_lookup_2. }
  split.
  { unfold ui.openMenu. rewrite Ht. cbn [mbind option_bind]. rewrite Hget, Hh, Hn.
    cbn [mbind option_bind containerNode model.Type_]. done. }
  split; [done|]. split; [done|]. split; [done|].
  unfold ui.getContainerMenuItems. cbn [containerNode model.Container].
  destruct (String.eqb (docker.State c) "running"); (split; [done|]);
    intros client choices logs item Hitem; cbn [ui.set_menuItems ui.menuItems app] in Hitem;
    repeat (apply elem_of_cons in Hitem as [->|Hitem]; [done|]);
    by apply elem_of_nil in Hitem.
Qed.

Lemma container_menu_witness :
  ∃ m' c,
    Some (containerNamed "shopapp_db_1") = Some c ∧ c ∈ exampleContainers ∧
    ui.openMenu exampleFullOnContainer = Some m' ∧
    ui.treeView m' = ui.treeView exampleFullOnContainer ∧ ui.viewMode m' = ui.ViewModeMenu ∧
    ui.menuSelected m' = 0%Z ∧
    (λ item, (ui.Label item, ui.goroutineCalls (ui.Action item),
              ui.commandCall (ui.Action item))) <$> ui.menuItems m'
    = (if String.eqb (docker.State c) "running"
       then [ ("Restart", [ui.RestartContainer (docker.ID c)], ui.ListContainersWithStats true);
              ("Stop", [ui.StopContainer (docker.ID c)], ui.ListContainersWithStats true);
              ("Remove (keeps volumes)", [ui.RemoveContainer (docker.ID c)],
               ui.ListContainersWithStats true) ]
       else [ ("Start", [ui.StartContainer (docker.ID c)], ui.ListContainersWithStats true) ])
      ++ [ ("Logs", [], ui.GetContainerLogs (docker.ID c) 1000) ] ∧
    ∀ client choices logs item,
      item ∈ ui.menuItems m' →
      ui.actionMsg client choices logs (ui.Action item)
      = if String.eqb (ui.Label item) "Logs"
        then match logs with
             | inl err => Ok (ui.errMsg err)
             | inr content => Ok (ui.logsMsg (docker.Name c) content)
             end
        else ui.refreshMsg client choices true.
Proof.
  exact (container_menu exampleContainers [CallMoveDown] exampleFullOnContainer
           (model.MoveDown exampleTree) 2
           {| model.Type_ := model.NodeTypeContainer; model.Name := "shopapp_db_1";
              model.Container := Some (containerNamed "shopapp_db_1"); model.Children := [];
              model.Expanded := false; model.Parent := Some 1 |}
           eq_refl eq_refl eq_refl eq_refl eq_refl).
Defined.

(** ** The keys that collapse and expand a project *)

Lemma withExpanded_same (g : project) : withExpanded (p_expanded g) g = g.
Proof. by destruct g. Qed.

Lemma withExpanded_twice (e e' : bool) (g : project) :
  withExpanded e (withExpanded e' g) = withExpanded e g.
Proof. done. Qed.

(** Setting the flag of the selected project keeps the selection on it. *)
Lemma GetSelected_set_Flat_project (gs1 gs2 : list project) (g : project) (e : bool)
    (t : model.Tree) :
  model.Flat t = flatOf 1 (gs1 ++ g :: gs2) →
  String.eqb (p_name g) "root" = false →
  model.GetSelected t = Some (S (bodySize gs1)) →
  model.GetSelected (model.set_Flat (flatOf 1 (gs1 ++ withExpanded e g :: gs2)) t)
  = Some (S (bodySize gs1)).
Proof.
  intros HF Hname Hget.
  pose proof (selected_project_index gs1 gs2 g t HF Hname Hget) as Hidx.
  eapply GetSelected_at; [|exact Hidx].
  cbn [model.set_Flat model.Flat]. by rewrite (flatOf_project gs1 gs2 (withExpanded e g)).
Qed.

(** X21.  The keys "left" and "right".  On a container node both keys
    leave the model as it is, and so does "right" on an expanded project.
    On an expanded project "left" clears the flag of the selected project
    in the store and nothing else, keeps the selection on it and takes
    its children out of the flat view; there a second "left" changes
    nothing and "right" gives back the model from before the first
    "left".  (The selection is inside a viewport that does not reach
    2^63.) *)
Theorem left_right_keys (containers : list docker.ContainerInfo) (calls : list treeCall)
    (m : ui.Model) (t : model.Tree) (node : nat) (n : model.TreeNode) :
  treeAfter containers calls = Some (ui.nodes m, t) →
  ui.tree m = Some t →
  model.GetSelected t = Some node → ui.nodes m !! node = Some n →
  (0 ≤ ui.viewportTop m)%Z →
  (ui.viewportTop m ≤ model.Selected t < ui.viewportTop m + ui.visibleHeight m)%Z →
  (ui.viewportTop m + ui.visibleHeight m < 2 ^ 63)%Z →
  (model.Type_ n = model.NodeTypeContainer →
   ui.treeKey m "left" = Some m ∧ ui.treeKey m "right" = Some m) ∧
  (model.Type_ n = model.NodeTypeProject → model.Expanded n = true →
   ui.treeKey m "right" = Some m ∧
   ∃ m1 t1,
     ui.treeKey m "left" = Some m1 ∧
     ui.nodes m1 = <[node := model.set_Expanded false n]> (ui.nodes m) ∧
     ui.tree m1 = Some t1 ∧
     model.Selected t1 = model.Selected t ∧ model.GetSelected t1 = Some node ∧
     (∀ child, child ∈ model.Children n → child ∉ model.Flat t1) ∧
     ui.treeKey m1 "left" = Some m1 ∧
     ui.treeKey m1 "right" = Some m).
Proof.
  intros Hafter Ht Hget Hn Htop Hin Hover.
  unfold ui.treeKey. keys. rewrite Ht. cbn [mbind option_bind]. rewrite Hget, Hn.
  cbn [mbind option_bind]. split.
  { intros ->. by rewrite bool_decide_eq_false_2. }
  intros Htype Hexp. rewrite (bool_decide_eq_true_2 _ Htype), Hexp. cbn [andb negb].
  split; [done|].
  destruct (treeAfter_layout containers calls)
    as (gs & h' & t' & Hafter' & Hgs & Hsel & Hsame & Hroots).
  rewrite Hafter in Hafter'. injection Hafter' as <- <-.
  destruct (selected_project gs _ t node n Hgs Hget Hn Htype)
    as (gs1 & g & gs2 & -> & -> & -> & Hname).
  destruct Hgs as (Hh & HR & HF). cbn [projectNode model.Expanded] in Hexp.
  set (gs' := gs1 ++ withExpanded false g :: gs2).
  set (t1 := model.set_Flat (flatOf 1 gs') t).
  assert (<[S (bodySize gs1) := model.set_Expanded false (projectNode (S (bodySize gs1)) g)]>
            (ui.nodes m) = layout gs') as Hh1.
  { rewrite Hh. apply layout_set_expanded. }
  assert (model.GetSelected t1 = Some (S (bodySize gs1))) as Hget1.
  { by apply GetSelected_set_Flat_project. }
  assert (ui.setExpanded m t (S (bodySize gs1)) (projectNode (S (bodySize gs1)) g) false
          = Some (ui.set_tree t1 (ui.set_nodes (layout gs') m))) as Hleft.
  { unfold ui.setExpanded. rewrite Hh1, UpdateFlatView_layout by done.
    cbn [mbind option_bind]. fold t1. f_equal.
    apply (adjustViewport_id _ t1); [done| |done].
    intros _. cbn [ui.set_tree ui.set_nodes ui.viewportTop]. done. }
  exists (ui.set_tree t1 (ui.set_nodes (layout gs') m)), t1.
  split; [done|]. split; [by rewrite Hh1|]. split; [done|]. split; [done|].
  split; [done|]. split.
  { intros child Hchild. cbn [projectNode model.Children] in Hchild.
    apply (collapsed_project gs1 gs2 (withExpanded false g)); done. }
  cbn [ui.set_tree ui.set_nodes ui.tree ui.nodes mbind option_bind].
  rewrite Hget1. unfold gs'. rewrite layout_lookup_project.
  cbn [mbind option_bind projectNode model.Type_ model.Expanded withExpanded p_expanded].
  rewrite bool_decide_eq_true_2 by done. cbn [andb negb]. split; [done|].
  unfold ui.setExpanded. cbn [ui.nodes ui.set_tree ui.set_nodes].
  change {| model.Type_ := model.NodeTypeProject; model.Name := p_name g;
            model.Container := None;
            model.Children := seq (S (S (bodySize gs1))) (length (p_containers g));
            model.Expanded := false; model.Parent := Some 0 |}
    with (projectNode (S (bodySize gs1)) (withExpanded false g)).
  rewrite layout_set_expanded, withExpanded_twice, <- Hexp, withExpanded_same.
  rewrite UpdateFlatView_layout by done. cbn [mbind option_bind]. f_equal.
  assert (model.set_Flat (flatOf 1 (gs1 ++ g :: gs2)) t1 = t) as ->.
  { unfold t1. rewrite <- HF. by destruct t. }
  match goal with |- ui.adjustViewport ?x = _ => assert (x = m) as -> end.
  { rewrite <- Hh. destruct m. cbn in *. by rewrite Ht. }
  by apply (adjustViewport_id m t).
Qed.

Lemma left_right_keys_witness :
  ui.treeKey exampleModel "right" = Some exampleModel ∧
  ∃ m1 t1,
    ui.treeKey exampleModel "left" = Some m1 ∧
    ui.nodes m1
    = <[1 := model.set_Expanded false
              {| model.Type_ := model.NodeTypeProject; model.Name := "shopapp";
                 model.Container := None; model.Children := [2; 3];
                 model.Expanded := true; model.Parent := Some 0 |}]> (ui.nodes exampleModel) ∧
    ui.tree m1 = Some t1 ∧
    model.Selected t1 = model.Selected exampleTree ∧ model.GetSelected t1 = Some 1 ∧
    (∀ child, child ∈ [2; 3] → child ∉ model.Flat t1) ∧
    ui.treeKey m1 "left" = Some m1 ∧
    ui.treeKey m1 "right" = Some exampleModel.
Proof.
  refine (proj2 (left_right_keys exampleContainers [] exampleModel exampleTree 1
                   {| model.Type_ := model.NodeTypeProject; model.Name := "shopapp";
                      model.Container := None; model.Children := [2; 3];
                      model.Expanded := true; model.Parent := Some 0 |}
                   eq_refl eq_refl eq_refl eq_refl _ _ _) eq_refl eq_refl);
    vm_compute; repeat split; discriminate.
Defined.

(** ** Strings as sequences of code points *)

Lemma byte_value_range (a : ascii) : (0 ≤ utf8.byte_value a < 256)%Z.
Proof. unfold utf8.byte_value. pose proof (N_ascii_bounded a). lia. Qed.

Lemma byte_value_byte (b : Z) : (0 ≤ b < 256)%Z → utf8.byte_value (byte b) = b.
Proof.
  intros Hb. unfold utf8.byte_value, byte. rewrite N_ascii_embedding by lia. lia.
Qed.

Local Ltac zb :=
  repeat
    (match goal with
     | |- context [(?a <? ?b)%Z] => destruct (Z.ltb_spec a b)
     | |- context [(?a <=? ?b)%Z] => destruct (Z.leb_spec a b)
     | |- context [(?a =? ?b)%Z] => destruct (Z.eqb_spec a b)
     end; try (exfalso; lia); cbn [orb andb negb Nat.leb]).

Local Ltac dec :=
  repeat (zb; cbv beta iota zeta; cbn [Nat.leb orb andb negb];
          rewrite ?byte_value_byte by lia).

Lemma decodeRune_valid (a0 : ascii) (r0 : string) : validRune (utf8.decodeRune a0 r0).1.
Proof.
  unfold utf8.decodeRune, validRune, utf8.RuneError, utf8.continuation, utf8.first.
  pose proof (byte_value_range a0).
  destruct (Z.ltb_spec (utf8.byte_value a0) 0x80); [cbn; lia|].
  destruct r0 as [|a1 r1]; [by repeat case_match; cbn; lia|].
  pose proof (byte_value_range a1).
  destruct r1 as [|a2 r2].
  { zb; cbn; lia. }
  pose proof (byte_value_range a2).
  destruct r2 as [|a3 r3].
  { zb; cbn; lia. }
  pose proof (byte_value_range a3).
  zb; cbn; lia.
Qed.

Lemma decodeRune_length (a0 : ascii) (r0 : string) :
  (String.length (utf8.decodeRune a0 r0).2 ≤ String.length r0)%nat.
Proof.
  unfold utf8.decodeRune.
  repeat (case_match; cbn [fst snd String.length]; try lia).
Qed.

Lemma runesLoop_enough (fuel1 fuel2 : nat) (s : string) :
  (String.length s ≤ fuel1)%nat → (String.length s ≤ fuel2)%nat →
  runesLoop fuel1 s = runesLoop fuel2 s.
Proof.
  revert fuel2 s. induction fuel1 as [|fuel1 IH]; intros fuel2 s H1 H2.
  { destruct s; [by destruct fuel2|cbn in H1; lia]. }
  destruct s as [|a0 r0]; [by destruct fuel2|].
  destruct fuel2 as [|fuel2]; [cbn in H2; lia|].
  cbn [runesLoop String.length] in *.
  pose proof (decodeRune_length a0 r0).
  destruct (utf8.decodeRune a0 r0) as [r rest]. cbn [snd] in *.
  f_equal. apply IH; lia.
Qed.

Lemma runes_of_string_cons (a0 : ascii) (r0 : string) :
  runes_of_string (String a0 r0)
  = (utf8.decodeRune a0 r0).1 :: runes_of_string (utf8.decodeRune a0 r0).2.
Proof.
  unfold runes_of_string. cbn [String.length runesLoop].
  pose proof (decodeRune_length a0 r0).
  destruct (utf8.decodeRune a0 r0) as [r rest]. cbn [fst snd] in *.
  f_equal. apply runesLoop_enough; lia.
Qed.

Lemma runes_of_string_valid (s : string) : Forall validRune (runes_of_string s).
Proof.
  remember (String.length s) as n eqn:Hn.
  revert s Hn. induction (lt_wf n) as [n _ IH]. intros s ->.
  destruct s as [|a0 r0]; [constructor|].
  rewrite runes_of_string_cons. constructor; [apply decodeRune_valid|].
  pose proof (decodeRune_length a0 r0).
  eapply IH; [|done]. cbn [String.length]. lia.
Qed.

Lemma append_cons (a : ascii) (s t : string) : String a s +:+ t = String a (s +:+ t).
Proof. done. Qed.

Lemma lor_C0 (x : Z) : (0 ≤ x < 32)%Z → Z.lor 0xC0 x = (0xC0 + x)%Z.
Proof.
  intros Hx.
  assert (Forall (λ x, Z.lor 0xC0 x = 0xC0 + x)%Z (seqZ 0 32)) as Hall.
  { apply (bool_decide_unpack _). by vm_compute. }
  rewrite Forall_forall in Hall. apply Hall, elem_of_seqZ. lia.
Qed.

Lemma lor_E0 (x : Z) : (0 ≤ x < 16)%Z → Z.lor 0xE0 x = (0xE0 + x)%Z.
Proof.
  intros Hx.
  assert (Forall (λ x, Z.lor 0xE0 x = 0xE0 + x)%Z (seqZ 0 16)) as Hall.
  { apply (bool_decide_unpack _). by vm_compute. }
  rewrite Forall_forall in Hall. apply Hall, elem_of_seqZ. lia.
Qed.

Lemma lor_F0 (x : Z) : (0 ≤ x < 8)%Z → Z.lor 0xF0 x = (0xF0 + x)%Z.
Proof.
  intros Hx.
  assert (Forall (λ x, Z.lor 0xF0 x = 0xF0 + x)%Z (seqZ 0 8)) as Hall.
  { apply (bool_decide_unpack _). by vm_compute. }
  rewrite Forall_forall in Hall. apply Hall, elem_of_seqZ. lia.
Qed.

Lemma lor_80 (x : Z) : Z.lor 0x80 (Z.land x 0x3F) = (0x80 + x mod 64)%Z.
Proof.
  change 0x3F%Z with (Z.ones 6). rewrite Z.land_ones by lia.
  change (2 ^ 6)%Z with 64%Z.
  assert (0 ≤ x mod 64 < 64)%Z as Hx by (apply Z.mod_pos_bound; lia).
  revert Hx. generalize (x mod 64)%Z. intros y Hy.
  assert (Forall (λ x, Z.lor 0x80 x = 0x80 + x)%Z (seqZ 0 64)) as Hall.
  { apply (bool_decide_unpack _). by vm_compute. }
  rewrite Forall_forall in Hall. apply Hall, elem_of_seqZ. lia.
Qed.

(** Decoding gives back an encoded code point and what follows it. *)
Lemma decode_encode (r : Z) (t : string) :
  validRune r →
  ∃ a0 r0, string_of_rune r +:+ t = String a0 r0 ∧ utf8.decodeRune a0 r0 = (r, t).
Proof.
  intros [Hr Hs]. unfold string_of_rune.
  destruct (Z.ltb_spec r 0) as [|_]; [lia|].
  destruct (Z.ltb_spec 0x10FFFF r) as [|_]; [lia|].
  assert ((0xD800 <=? r)%Z && (r <=? 0xDFFF)%Z = false) as ->.
  { apply andb_false_iff. destruct (Z.leb_spec 0xD800 r), (Z.leb_spec r 0xDFFF); auto; lia. }
  cbn [orb].
  destruct (Z.ltb_spec r 0x80) as [Hr1|Hr1].
  { eexists _, _. split; [done|]. unfold utf8.decodeRune.
    rewrite byte_value_byte by lia. by destruct (Z.ltb_spec r 0x80); [|lia]. }
  rewrite !lor_80, !Z.shiftr_div_pow2 by lia.
  change (2 ^ 6)%Z with 64%Z. change (2 ^ 12)%Z with 4096%Z. change (2 ^ 18)%Z with 262144%Z.
  destruct (Z.ltb_spec r 0x800) as [Hr2|Hr2].
  { rewrite lor_C0 by (Z.div_mod_to_equations; lia).
    eexists _, _. split; [done|]. unfold utf8.decodeRune.
    rewrite !byte_value_byte by (Z.div_mod_to_equations; lia).
    unfold utf8.first.
    assert (r = (r / 64) * 64 + r mod 64 ∧ 2 ≤ r / 64 < 32 ∧ 0 ≤ r mod 64 < 64)%Z
      as (Hr' & Hq & Hx) by (Z.div_mod_to_equations; lia).
    revert Hr' Hq Hx. generalize (r / 64)%Z (r mod 64)%Z. clear. intros q x -> ? ?.
    dec; f_equal; lia. }
  destruct (Z.ltb_spec r 0x10000) as [Hr3|Hr3].
  { rewrite lor_E0 by (Z.div_mod_to_equations; lia).
    eexists _, _. split; [done|]. unfold utf8.decodeRune.
    rewrite !byte_value_byte by (Z.div_mod_to_equations; lia).
    unfold utf8.first, utf8.continuation.
    assert (r = (r / 4096) * 4096 + (r / 64 mod 64) * 64 + r mod 64 ∧
            0 ≤ r / 4096 < 16 ∧ 0 ≤ r / 64 mod 64 < 64 ∧ 0 ≤ r mod 64 < 64)%Z
      as (Hr' & Hq & Hy & Hx) by (Z.div_mod_to_equations; lia).
    revert Hr' Hq Hy Hx Hr2 Hs.
    generalize (r / 4096)%Z (r / 64 mod 64)%Z (r mod 64)%Z. clear.
    intros q y x -> ? ? ? ? ?.
    dec; f_equal; lia. }
  rewrite lor_F0 by (Z.div_mod_to_equations; lia).
  eexists _, _. split; [done|]. unfold utf8.decodeRune.
  rewrite !byte_value_byte by (Z.div_mod_to_equations; lia).
  unfold utf8.first, utf8.continuation.
  assert (r = (r / 262144) * 262144 + (r / 4096 mod 64) * 4096 + (r / 64 mod 64) * 64 + r mod 64 ∧
          0 ≤ r / 262144 < 8 ∧ 0 ≤ r / 4096 mod 64 < 64 ∧
          0 ≤ r / 64 mod 64 < 64 ∧ 0 ≤ r mod 64 < 64)%Z
    as (Hr' & Hq & Hz & Hy & Hx) by (Z.div_mod_to_equations; lia).
  revert Hr' Hq Hz Hy Hx Hr Hr3.
  generalize (r / 262144)%Z (r / 4096 mod 64)%Z (r / 64 mod 64)%Z (r mod 64)%Z. clear.
  intros q z y x -> ? ? ? ? ? ?.
  dec; f_equal; lia.
Qed.

Lemma runes_encode (rs : list Z) (t : string) :
  Forall validRune rs →
  runes_of_string (string_of_runes rs +:+ t) = rs ++ runes_of_string t.
Proof.
  induction 1 as [|r rs Hr _ IH]; [done|].
  cbn [string_of_runes foldr]. fold (string_of_runes rs).
  rewrite append_assoc.
  destruct (decode_encode r (string_of_runes rs +:+ t) Hr) as (a0 & r0 & -> & Hdec).
  rewrite runes_of_string_cons, Hdec. cbn [fst snd app]. by rewrite IH.
Qed.

(** What follows an encoding does not change how it is decoded, unless
    it starts with a utf8.continuation byte. *)
Lemma decodeRune_app (a0 : ascii) (r0 t : string) :
  startsFresh t →
  utf8.decodeRune a0 (r0 +:+ t) = ((utf8.decodeRune a0 r0).1, (utf8.decodeRune a0 r0).2 +:+ t).
Proof.
  intros Ht. unfold utf8.decodeRune.
  destruct (Z.ltb_spec (utf8.byte_value a0) 0x80); [done|].
  destruct (utf8.first (utf8.byte_value a0)) as [[[sz lo] hi]|] eqn:Hfirst; [|by destruct r0, t].
  assert (0x80 ≤ lo ∧ hi ≤ 0xBF)%Z as [Hlo Hhi].
  { unfold utf8.first in Hfirst. repeat case_match; simplify_eq; lia. }
  assert (∀ a t', t = String a t' →
            (utf8.byte_value a <? lo)%Z || (hi <? utf8.byte_value a)%Z = true ∧
            utf8.continuation (utf8.byte_value a) = false) as Hfresh.
  { intros a t' ->. cbn in Ht. split; [|done]. unfold utf8.continuation in Ht.
    apply andb_false_iff in Ht as [Ht|Ht]; apply orb_true_iff;
      [left; apply Z.ltb_lt; apply Z.leb_gt in Ht; lia
      |right; apply Z.ltb_lt; apply Z.leb_gt in Ht; lia]. }
  destruct r0 as [|a1 r1].
  { rewrite append_nil_l. destruct t as [|a t']; [done|].
    destruct (Hfresh a t' eq_refl) as [-> _]. done. }
  rewrite append_cons.
  destruct ((utf8.byte_value a1 <? lo)%Z || (hi <? utf8.byte_value a1)%Z); [done|].
  destruct (sz <=? 2)%nat; [done|].
  destruct r1 as [|a2 r2].
  { rewrite append_nil_l. destruct t as [|a t']; [done|].
    destruct (Hfresh a t' eq_refl) as [_ ->]. done. }
  rewrite append_cons.
  destruct (utf8.continuation (utf8.byte_value a2)); [|done]. cbn [negb].
  destruct (sz <=? 3)%nat; [done|].
  destruct r2 as [|a3 r3].
  { rewrite append_nil_l. destruct t as [|a t']; [done|].
    destruct (Hfresh a t' eq_refl) as [_ ->]. done. }
  rewrite append_cons.
  by destruct (utf8.continuation (utf8.byte_value a3)).
Qed.

Lemma runes_of_string_app (s t : string) :
  startsFresh t →
  runes_of_string (s +:+ t) = runes_of_string s ++ runes_of_string t.
Proof.
  intros Ht. remember (String.length s) as n eqn:Hn.
  revert s Hn. induction (lt_wf n) as [n _ IH]. intros s ->.
  destruct s as [|a0 r0]; [by rewrite append_nil_l|].
  rewrite append_cons, !runes_of_string_cons, decodeRune_app by done.
  cbn [fst snd app]. f_equal.
  pose proof (decodeRune_length a0 r0).
  eapply IH; [|done]. cbn [String.length]. lia.
Qed.

Lemma Repeat_spaces (count : Z) :
  (0 ≤ count ≤ strings.maxAlloc)%Z →
  ∃ pad, strings.Repeat " " count = Some pad ∧ startsFresh pad ∧
         runes_of_string pad = replicate (Z.to_nat count) 32%Z.
Proof.
  intros Hc. unfold strings.Repeat. destruct (Z.ltb_spec count 0); [lia|].
  cbn [String.length].
  destruct (Z.ltb_spec strings.maxAlloc (Z.of_nat 1 * count)); [lia|].
  eexists. split; [done|].
  induction (Z.to_nat count) as [|k [IH1 IH2]]; [done|].
  cbn [replicate foldr]. split; [done|].
  change (" " +:+ ?s) with (String " " s).
  rewrite runes_of_string_cons.
  assert (∀ r, utf8.decodeRune " " r = (32%Z, r)) as -> by done.
  cbn [fst snd]. by rewrite IH2.
Qed.

Lemma runes_of_string_length (s : string) :
  (length (runes_of_string s) ≤ String.length s)%nat.
Proof.
  remember (String.length s) as n eqn:Hn.
  revert s Hn. induction (lt_wf n) as [n _ IH]. intros s ->.
  destruct s as [|a0 r0]; [done|].
  rewrite runes_of_string_cons. cbn [length String.length].
  pose proof (decodeRune_length a0 r0).
  specialize (IH (String.length (utf8.decodeRune a0 r0).2)).
  cbn [String.length] in IH.
  specialize (IH ltac:(lia) _ eq_refl). lia.
Qed.

Lemma truncateOrPadPlain_fitted (s : string) (width : Z) :
  (- 2 ^ 63 ≤ width < 2 ^ 20)%Z → (Z.of_nat (String.length s) < 2 ^ 20)%Z →
  fitted s width (ui.truncateOrPadPlain s width).
Proof.
  intros [Hlo Hhi] Hlen. unfold ui.truncateOrPadPlain, fitted.
  pose proof (runes_of_string_length s) as Hn.
  pose proof (runes_of_string_valid s) as Hvalid.
  set (rs := runes_of_string s) in *.
  destruct (Z.ltb_spec width (Z.of_nat (length rs))) as [Hlong|Hshort].
  - destruct (Z.lt_ge_cases width 3) as [Hw|Hw].
    + assert ((wrap_int (width - 3) <? 0)%Z
              || (Z.of_nat (length rs) <? wrap_int (width - 3))%Z = true) as ->; [|done].
      apply orb_true_iff. unfold wrap_int.
      destruct (Z.le_gt_cases (- 2 ^ 63) (width - 3)).
      * left. apply Z.ltb_lt. rewrite Z.mod_small; lia.
      * right. apply Z.ltb_lt. Z.div_mod_to_equations. lia.
    + rewrite wrap_int_id by (unfold is_int; lia).
      destruct (Z.ltb_spec (width - 3) 0); [lia|].
      destruct (Z.ltb_spec (Z.of_nat (length rs)) (width - 3)); [lia|].
      cbn [orb].
      rewrite runes_encode by by apply Forall_take.
      change (runes_of_string "...") with [46; 46; 46]%Z.
      split; [|split; [lia|done]].
      rewrite length_app, length_take. cbn [length]. lia.
  - rewrite wrap_int_id by (unfold is_int; lia).
    destruct (Repeat_spaces (width - Z.of_nat (length rs)) ltac:(unfold strings.maxAlloc; lia))
      as (pad & -> & Hfresh & Hpad).
    cbn [mbind option_bind].
    rewrite runes_of_string_app, Hpad by done. fold rs.
    split; [|split; [eauto|lia]].
    rewrite length_app, length_replicate. lia.
Qed.

(** X22.  Fitting a string to a column.  For a width below 2^20 and a
    string of fewer than 2^20 bytes (what is allocated stays far below
    the largest allocation), [truncateOrPadPlain] and [truncateOrPad]
    return a string of exactly [width] code points, bytes that are no
    valid UTF-8 counting as one each: the string followed by spaces if
    it has no more than [width] code points, else its first [width - 3]
    code points followed by three dots.  They panic only on a string
    that is longer than a width below 3. *)
Theorem truncateOrPad_width (s : string) (width : Z) :
  (- 2 ^ 63 ≤ width < 2 ^ 20)%Z → (Z.of_nat (String.length s) < 2 ^ 20)%Z →
  fitted s width (ui.truncateOrPadPlain s width) ∧
  fitted s width (ui.truncateOrPad s width).
Proof.
  intros Hwidth Hlen. split; by apply truncateOrPadPlain_fitted.
Qed.

Lemma truncateOrPad_width_witness :
  fitted "shopapp_db_1" 8 (ui.truncateOrPadPlain "shopapp_db_1" 8) ∧
  fitted "shopapp_db_1" 8 (ui.truncateOrPad "shopapp_db_1" 8).
Proof.
  apply (truncateOrPad_width "shopapp_db_1" 8); [split|]; vm_compute; done.
Defined.

Example truncateOrPadPlain_long :
  ui.truncateOrPadPlain "shopapp_db_1" 8 = Some "shopa...".
Proof. reflexivity. Qed.
